(** * GAN training loops (GAN_piece1/code/main.py, GAN_piece2/code/main.py)

    A shallow embedding of the two training scripts.  The scripts are
    straight-line Python driving PyTorch; the embedding keeps their control
    flow (argument parsing, the post-parse overrides, the epoch / batch-window /
    discriminator-update loops, the exceptions Python raises on the way) and
    treats the numerical collaborators as parameters:

    - the networks, the loss modules and the optimizers' update rules are
      fields of a [Collaborators] class (piece1 imports them from [utils],
      [loss] and [torch.optim]; piece2 builds them from [torch.nn]);
    - the global random generator of torch is an oracle indexed by the number
      of draws made so far, so that two tensors are "independently drawn"
      exactly when they come from two different draws;
    - tensor elements are rationals: rounding, infinities and NaN of IEEE
      floats are not represented in parameters and samples (loss values, which
      the scripts only print, carry an explicit non-finite case).

    Every run records a trace of the events the properties are about. *)

From Stdlib Require Import Ascii String.
From Stdlib Require Import ZArith QArith Qminmax List Bool Lia.
From Stdlib Require Import Permutation Orders Sorting.Mergesort Sorting.Sorted.
From Stdlib Require DecimalString DecimalZ DecimalFacts.
Import ListNotations.

Set Implicit Arguments.

(* ===================================================================== *)
(** ** Python built-ins used by the scripts *)
(* ===================================================================== *)

Module Py.

Open Scope Z_scope.

(** Exceptions the two scripts can run into. [SystemExit] is how argparse
    rejects a command line. *)
Inductive error :=
| ValueError | RuntimeError | NameError | ZeroDivisionError | IndexError
| SystemExit.

Fixpoint count_from (start step : Z) (n : nat) : list Z :=
  match n with
  | O => []
  | S k => start :: count_from (start + step) step k
  end.

(** Number of elements of [range(start, stop, step)], [step <> 0]. *)
Definition range_len (start stop step : Z) : Z :=
  if 0 <? step
  then Z.max 0 ((stop - start + step - 1) / step)
  else Z.max 0 ((start - stop - step - 1) / (- step)).

(** [range(start, stop, step)]; a zero step is a ValueError. *)
Definition range3 (start stop step : Z) : error + list Z :=
  if step =? 0 then inl ValueError
  else inr (count_from start step (Z.to_nat (range_len start stop step))).

(** [range(n)] *)
Definition range (n : Z) : list Z := count_from 0 1 (Z.to_nat n).

(** Index normalisation of a slice bound: negative bounds count from the
    end, and everything is clamped into [0, len]. *)
Definition norm_index (len i : Z) : Z :=
  if i <? 0 then Z.max 0 (i + len) else Z.min i len.

(** [l[i:j]] *)
Definition slice {A : Type} (l : list A) (i j : Z) : list A :=
  let n := Z.of_nat (length l) in
  let a := norm_index n i in
  let b := norm_index n j in
  firstn (Z.to_nat (b - a)) (skipn (Z.to_nat a) l).

(** [a % b]; a zero divisor is a ZeroDivisionError.  [Z.modulo] has the sign
    of the divisor, as Python's [%]. *)
Definition mod_ (a b : Z) : error + Z :=
  if b =? 0 then inl ZeroDivisionError else inr (a mod b).

End Py.

(* ===================================================================== *)
(** ** A state-and-exception monad for the scripts *)
(* ===================================================================== *)

Module Run.

Import Py.

Inductive outcome (S A : Type) :=
| Ok (a : A) (s : S)
| Raise (e : error) (s : S).

Arguments Ok {S A} a s.
Arguments Raise {S A} e s.

Definition M (S A : Type) := S -> outcome S A.

Definition ret {S A : Type} (a : A) : M S A := fun s => Ok a s.

Definition bind {S A B : Type} (c : M S A) (k : A -> M S B) : M S B :=
  fun s => match c s with
           | Ok a s' => k a s'
           | Raise e s' => Raise e s'
           end.

Definition raise {S A : Type} (e : error) : M S A := fun s => Raise e s.

Definition get {S : Type} : M S S := fun s => Ok s s.

Definition modify {S : Type} (f : S -> S) : M S unit := fun s => Ok tt (f s).

Definition lift {S A : Type} (r : error + A) : M S A :=
  match r with
  | inl e => raise e
  | inr a => ret a
  end.

(** [for x in l: body(x)] *)
Fixpoint for_each {S A : Type} (l : list A) (body : A -> M S unit) : M S unit :=
  match l with
  | [] => ret tt
  | x :: l' => bind (body x) (fun _ => for_each l' body)
  end.

(** [chain B l s s']: the states [s] and [s'] are linked by one [B x] per
    element [x] of [l], in order. *)
Fixpoint chain {S A : Type} (B : A -> S -> S -> Prop) (l : list A) (s s' : S)
  : Prop :=
  match l with
  | [] => s' = s
  | x :: l' => exists s1, B x s s1 /\ chain B l' s1 s'
  end.

(** The final state of an outcome, whether it returned or raised. *)
Definition final {S A : Type} (o : outcome S A) : S :=
  match o with
  | Ok _ s => s
  | Raise _ s => s
  end.

Definition returned {S A : Type} (o : outcome S A) : bool :=
  match o with
  | Ok _ _ => true
  | Raise _ _ => false
  end.

End Run.

Declare Scope run_scope.
Delimit Scope run_scope with run.
Notation "x <- c ;; k" := (Run.bind c (fun x => k))
  (at level 61, c at next level, right associativity) : run_scope.
Notation "c ;;; k" := (Run.bind c (fun _ => k))
  (at level 61, right associativity) : run_scope.

(* ===================================================================== *)
(** ** Tensors and the torch operations the loops call *)
(* ===================================================================== *)

Module Torch.

Import Py.

(** A 2-D tensor, as its list of rows. *)
Definition tensor := list (list Q).

(** The parameter set of an [nn.Module]: one flattened tensor per parameter. *)
Definition params := list (list Q).

Definition shape0 {A : Type} (t : list A) : Z := Z.of_nat (length t).

(** The two networks; also names the optimizer that steps each. *)
Inductive net := Gen | Dis.

(** A scalar loss as [.item()] reports it. *)
Inductive lossval :=
| Finite (q : Q)
| PosInf
| NegInf
| NaN.

Definition is_finite (l : lossval) : bool :=
  match l with
  | Finite _ => true
  | _ => false
  end.

(** [torch.randn([rows, cols])] at draw [k] of the global generator, given the
    oracle [normal k i j] for element (i, j) of that draw.  Negative
    dimensions are a RuntimeError. *)
Definition randn (normal : nat -> nat -> nat -> Q) (k : nat) (rows cols : Z)
  : error + tensor :=
  if (rows <? 0)%Z || (cols <? 0)%Z then inl RuntimeError
  else inr (map (fun i => map (normal k i) (seq 0 (Z.to_nat cols)))
                (seq 0 (Z.to_nat rows))).

(** [torch.full((rows, cols), v)] *)
Definition full (rows cols : Z) (v : Q) : error + tensor :=
  if (rows <? 0)%Z || (cols <? 0)%Z then inl RuntimeError
  else inr (repeat (repeat v (Z.to_nat cols)) (Z.to_nat rows)).

(** [t[idx]] for an index tensor [idx]: gathers rows; an index out of range
    is an IndexError. *)
Fixpoint index_rows {A : Type} (t : list A) (idx : list nat) : error + list A :=
  match idx with
  | [] => inr []
  | i :: idx' =>
      match nth_error t i, index_rows t idx' with
      | Some r, inr rs => inr (r :: rs)
      | _, _ => inl IndexError
      end
  end.

(** [torch.clamp(x, lo, hi)] on one element: min(max(x, lo), hi). *)
Definition clamp (lo hi x : Q) : Q := Qmin (Qmax x lo) hi.

(** [param.clamp_(lo, hi)] *)
Definition clamp_ (lo hi : Q) (p : list Q) : list Q := map (clamp lo hi) p.

(** [x > 0] on rationals, as a boolean. *)
Definition Qgtb (x y : Q) : bool := negb (Qle_bool x y).

End Torch.

(** Descending order on scores, for [torch.topk]. *)
Module ScoreOrder <: TotalLeBool.
Definition t := Q.
Definition leb (x y : Q) : bool := Qle_bool y x.
Lemma leb_total : forall x y, leb x y = true \/ leb y x = true.
Proof.
  intros x y. unfold leb. rewrite !Qle_bool_iff.
  destruct (Qlt_le_dec x y) as [H | H]; [right; apply Qlt_le_weak, H | left; exact H].
Qed.
End ScoreOrder.

Module ScoreSort := Sort ScoreOrder.

Module TopK.

Import Py Torch.

(** [torch.topk(input=v, k=k)[0]]: the [k] largest entries of the vector [v],
    largest first.  [k] outside [0, len v] is a RuntimeError. *)
Definition topk (v : list Q) (k : Z) : error + list Q :=
  if (k <? 0)%Z || (shape0 v <? k)%Z then inl RuntimeError
  else inr (firstn (Z.to_nat k) (ScoreSort.sort v)).

(** The entries [topk] leaves out. *)
Definition rest (v : list Q) (k : Z) : list Q :=
  skipn (Z.to_nat k) (ScoreSort.sort v).

End TopK.

(* ===================================================================== *)
(** ** GAN_piece1/code/main.py *)
(* ===================================================================== *)

Module Piece1.

Import Py Run Torch.

Local Open Scope string_scope.
Local Open Scope Z_scope.
Local Open Scope run_scope.

(** *** Command line (lines 8-53) *)

(** The namespace [parser.parse_args()] returns. *)
Record Args := {
  device : string;
  epochs : Z;
  d_updates : Z;
  plot_frequency : Z;
  lr : Q;
  latent_size : Z;
  samples : Z;
  batch_size : Z;
  loss : string;
  spectral_norm : bool;
  clip_weights : Q;
  topk : bool;
  gen_picture : bool
}.

(** What the caller wrote on the command line: each valued option is present
    (already converted by its [type=]) or absent; the two [store_true] flags
    are set or not.  [--gen_picture] has [type=bool], which is applied to the
    raw string. *)
Record Cli := {
  cli_device : option string;
  cli_epochs : option Z;
  cli_d_updates : option Z;
  cli_plot_frequency : option Z;
  cli_lr : option Q;
  cli_latent_size : option Z;
  cli_samples : option Z;
  cli_batch_size : option Z;
  cli_loss : option string;
  cli_spectral_norm : bool;
  cli_clip_weights : option Q;
  cli_topk : bool;
  cli_gen_picture : option string
}.

Definition device_choices : list string := ["cpu"; "cuda"; "mps"].

Definition loss_choices : list string :=
  ["standard"; "non-saturating"; "hinge"; "wasserstein"; "wasserstein-gp";
   "least-squares"].

Definition member (x : string) (l : list string) : bool :=
  existsb (String.eqb x) l.

Definition or_default {A : Type} (o : option A) (d : A) : A :=
  match o with
  | Some x => x
  | None => d
  end.

(** A supplied value is checked against the option's [choices]; a default is
    not. *)
Definition choice_ok (o : option string) (choices : list string) : bool :=
  match o with
  | Some v => member v choices
  | None => true
  end.

(** [parser.parse_args()] (line 39): a value outside an option's [choices]
    makes argparse print an error and exit. *)
Definition parse_args (c : Cli) : error + Args :=
  if negb (choice_ok (cli_device c) device_choices) then inl SystemExit
  else if negb (choice_ok (cli_loss c) loss_choices) then inl SystemExit
  else
    inr {| device := or_default (cli_device c) "mps";
           epochs := or_default (cli_epochs c) 10000;
           d_updates := or_default (cli_d_updates c) 1;
           plot_frequency := or_default (cli_plot_frequency c) 10;
           lr := or_default (cli_lr c) 0.0001%Q;
           latent_size := or_default (cli_latent_size c) 32;
           samples := or_default (cli_samples c) 10000;
           batch_size := or_default (cli_batch_size c) 500;
           loss := or_default (cli_loss c) "standard";
           spectral_norm := cli_spectral_norm c;
           clip_weights := or_default (cli_clip_weights c) 0%Q;
           topk := cli_topk c;
           gen_picture :=
             match cli_gen_picture c with
             | Some s => negb (String.eqb s "")
             | None => false
             end |}.

(** The assignments after parsing (lines 41-53): all but two are commented
    out. *)
Definition override (a : Args) : Args :=
  {| device := device a;
     epochs := epochs a;
     d_updates := d_updates a;
     plot_frequency := plot_frequency a;
     lr := 0.00004%Q;
     latent_size := latent_size a;
     samples := samples a;
     batch_size := batch_size a;
     loss := loss a;
     spectral_norm := spectral_norm a;
     clip_weights := clip_weights a;
     topk := topk a;
     gen_picture := true |}.

(** *** Loss selection (lines 88-105) *)

(** The loss classes of [loss.py]; one constructor stands for the
    generator/discriminator pair the dispatch chain instantiates together. *)
Inductive loss_class :=
| GANLoss
| NSGANLoss
| HingeGANLoss
| WassersteinGANLoss
| WassersteinGANLossGP
| LSGANLoss.

Definition select_loss (name : string) : loss_class :=
  if String.eqb name "standard" then GANLoss
  else if String.eqb name "non-saturating" then NSGANLoss
  else if String.eqb name "hinge" then HingeGANLoss
  else if String.eqb name "wasserstein" then WassersteinGANLoss
  else if String.eqb name "wasserstein-gp" then WassersteinGANLossGP
  else LSGANLoss.

(** [isinstance(loss_discriminator, loss.WassersteinGANLossGPDiscriminator)] *)
Definition is_gp (lc : loss_class) : bool :=
  match lc with
  | WassersteinGANLossGP => true
  | _ => false
  end.

(** *** Events *)

Inductive event :=
| EvRandn (draw : nat) (rows cols : Z)
    (** [torch.randn]: draw number [draw] of the global generator *)
| EvRandperm (draw : nat) (n : Z)
    (** [torch.randperm(n)], also a draw *)
| EvOptimizer (o : net) (rate : Q)
    (** [torch.optim.RMSprop(net.parameters(), lr=rate)] *)
| EvStepD (epoch index : Z) (batch : tensor) (noise : nat) (l : lossval)
    (** [discriminator_optimizer.step()] on the loss [l] computed from
        [batch] and the latent batch of draw [noise] *)
| EvClamp (c : Q) (grad : bool) (after : params)
    (** the clamp loop of lines 148-149, with the grad mode it ran under and
        the discriminator parameters it left *)
| EvStepG (epoch index : Z) (noise : nat) (scores : list Q) (l : lossval)
    (** [generator_optimizer.step()] on the loss [l] computed over [scores] *)
| EvProgress (epoch : Z) (lg ld : lossval)
| EvPlot (epoch : Z).

(** The optimizer steps of a trace, each with the latent draw it consumed. *)
Definition step_of (e : event) : list (net * nat) :=
  match e with
  | EvStepD _ _ _ k _ => [(Dis, k)]
  | EvStepG _ _ k _ _ => [(Gen, k)]
  | _ => []
  end.

Definition steps (tr : list event) : list (net * nat) := flat_map step_of tr.

(** The loss each optimizer step of a trace was taken on. *)
Definition loss_of (e : event) : list (net * lossval) :=
  match e with
  | EvStepD _ _ _ _ l => [(Dis, l)]
  | EvStepG _ _ _ _ l => [(Gen, l)]
  | _ => []
  end.

Definition step_losses (tr : list event) : list (net * lossval) :=
  flat_map loss_of tr.

(** The draws of a trace that produced latent noise. *)
Definition randn_of (e : event) : list nat :=
  match e with
  | EvRandn k _ _ => [k]
  | _ => []
  end.

Definition randn_draws (tr : list event) : list nat := flat_map randn_of tr.

Definition is_step_g (e : event) : bool :=
  match e with
  | EvStepG _ _ _ _ _ => true
  | _ => false
  end.

Definition is_step_d (e : event) : bool :=
  match e with
  | EvStepD _ _ _ _ _ => true
  | _ => false
  end.

Definition is_randperm (e : event) : bool :=
  match e with
  | EvRandperm _ _ => true
  | _ => false
  end.

(** The real batches the discriminator steps of a trace were fed, each with
    the window index it was sliced at. *)
Definition batch_of (e : event) : list (Z * tensor) :=
  match e with
  | EvStepD _ index b _ _ => [(index, b)]
  | _ => []
  end.

Definition batches (tr : list event) : list (Z * tensor) :=
  flat_map batch_of tr.

Definition is_clamp (e : event) : bool :=
  match e with
  | EvClamp _ _ _ => true
  | _ => false
  end.

(** *** Collaborators *)

(** What the loop takes from [utils.py], [loss.py], autograd and
    [torch.optim.RMSprop].  [normal] and [randperm] are the oracle of the
    global random generator: the outcome of its draw number [k]. *)
Class Collaborators := {
  normal : nat -> nat -> nat -> Q;
  randperm : nat -> nat -> list nat;
  get_data : Z -> tensor;
  get_generator : Z -> params;
  get_discriminator : bool -> params;
  generator : params -> tensor -> tensor;
  discriminator : params -> tensor -> list Q;
  loss_generator : loss_class -> list Q -> lossval;
  loss_discriminator : loss_class -> list Q -> list Q -> lossval;
  loss_discriminator_gp :
    list Q -> list Q -> params -> tensor -> tensor -> lossval;
  backward_d : loss_class -> params -> tensor -> tensor -> params;
  backward_g : loss_class -> params -> params -> tensor -> bool -> params;
  buffers : Type;
  rmsprop_init : params -> buffers;
  rmsprop_step : Q -> buffers -> params -> params -> buffers * params
}.

Section Trainer.

Context {C : Collaborators}.

Record optimizer := {
  opt_lr : Q;
  opt_buf : buffers
}.

(** [torch.optim.RMSprop(parameters, lr=rate)] *)
Definition RMSprop (p : params) (rate : Q) : optimizer :=
  {| opt_lr := rate; opt_buf := rmsprop_init p |}.

(** The names the training loop reads and rebinds, the state of the global
    random generator ([rng]: draws made so far), the autograd mode, and the
    trace.  [loss_d] is unbound until the first discriminator update. *)
Record state := {
  data : tensor;
  generator_p : params;
  discriminator_p : params;
  generator_optimizer : optimizer;
  discriminator_optimizer : optimizer;
  fixed_generator_noise : tensor;
  rng : nat;
  grad_enabled : bool;
  loss_d : option lossval;
  trace : list event
}.

Definition set_data (d : tensor) (s : state) : state :=
  {| data := d;
     generator_p := generator_p s;
     discriminator_p := discriminator_p s;
     generator_optimizer := generator_optimizer s;
     discriminator_optimizer := discriminator_optimizer s;
     fixed_generator_noise := fixed_generator_noise s;
     rng := rng s;
     grad_enabled := grad_enabled s;
     loss_d := loss_d s;
     trace := trace s |}.

Definition set_generator (p : params) (o : optimizer) (s : state) : state :=
  {| data := data s;
     generator_p := p;
     discriminator_p := discriminator_p s;
     generator_optimizer := o;
     discriminator_optimizer := discriminator_optimizer s;
     fixed_generator_noise := fixed_generator_noise s;
     rng := rng s;
     grad_enabled := grad_enabled s;
     loss_d := loss_d s;
     trace := trace s |}.

Definition set_discriminator (p : params) (o : optimizer) (s : state) : state :=
  {| data := data s;
     generator_p := generator_p s;
     discriminator_p := p;
     generator_optimizer := generator_optimizer s;
     discriminator_optimizer := o;
     fixed_generator_noise := fixed_generator_noise s;
     rng := rng s;
     grad_enabled := grad_enabled s;
     loss_d := loss_d s;
     trace := trace s |}.

Definition set_fixed_noise (t : tensor) (s : state) : state :=
  {| data := data s;
     generator_p := generator_p s;
     discriminator_p := discriminator_p s;
     generator_optimizer := generator_optimizer s;
     discriminator_optimizer := discriminator_optimizer s;
     fixed_generator_noise := t;
     rng := rng s;
     grad_enabled := grad_enabled s;
     loss_d := loss_d s;
     trace := trace s |}.

Definition set_rng (k : nat) (s : state) : state :=
  {| data := data s;
     generator_p := generator_p s;
     discriminator_p := discriminator_p s;
     generator_optimizer := generator_optimizer s;
     discriminator_optimizer := discriminator_optimizer s;
     fixed_generator_noise := fixed_generator_noise s;
     rng := k;
     grad_enabled := grad_enabled s;
     loss_d := loss_d s;
     trace := trace s |}.

Definition set_grad_enabled (b : bool) (s : state) : state :=
  {| data := data s;
     generator_p := generator_p s;
     discriminator_p := discriminator_p s;
     generator_optimizer := generator_optimizer s;
     discriminator_optimizer := discriminator_optimizer s;
     fixed_generator_noise := fixed_generator_noise s;
     rng := rng s;
     grad_enabled := b;
     loss_d := loss_d s;
     trace := trace s |}.

Definition set_loss_d (l : lossval) (s : state) : state :=
  {| data := data s;
     generator_p := generator_p s;
     discriminator_p := discriminator_p s;
     generator_optimizer := generator_optimizer s;
     discriminator_optimizer := discriminator_optimizer s;
     fixed_generator_noise := fixed_generator_noise s;
     rng := rng s;
     grad_enabled := grad_enabled s;
     loss_d := Some l;
     trace := trace s |}.

Definition log (e : event) (s : state) : state :=
  {| data := data s;
     generator_p := generator_p s;
     discriminator_p := discriminator_p s;
     generator_optimizer := generator_optimizer s;
     discriminator_optimizer := discriminator_optimizer s;
     fixed_generator_noise := fixed_generator_noise s;
     rng := rng s;
     grad_enabled := grad_enabled s;
     loss_d := loss_d s;
     trace := trace s ++ [e] |}.

Definition emit (e : event) : M state unit := modify (log e).

(** *** torch calls that touch the state *)

(** [torch.randn([rows, cols], ...)]: returns the draw number with the
    tensor. *)
Definition torch_randn (rows cols : Z) : M state (nat * tensor) :=
  s <- get ;;
  t <- lift (randn normal (rng s) rows cols) ;;
  modify (set_rng (S (rng s))) ;;;
  emit (EvRandn (rng s) rows cols) ;;;
  ret (rng s, t).

(** [torch.randperm(n, ...)] *)
Definition torch_randperm (n : Z) : M state (list nat) :=
  s <- get ;;
  modify (set_rng (S (rng s))) ;;;
  emit (EvRandperm (rng s) n) ;;;
  ret (randperm (rng s) (Z.to_nat n)).

(** [with torch.no_grad(): body] *)
Definition no_grad {A : Type} (body : M state A) : M state A :=
  s <- get ;;
  modify (set_grad_enabled false) ;;;
  a <- body ;;
  modify (set_grad_enabled (grad_enabled s)) ;;;
  ret a.

(** *** The training loop (lines 118-166) *)

(** Line 123: [data = data[torch.randperm(data.shape[0], ...)]] *)
Definition shuffle : M state unit :=
  s <- get ;;
  p <- torch_randperm (shape0 (data s)) ;;
  d <- lift (index_rows (data s) p) ;;
  modify (set_data d).

(** Lines 146-149 *)
Definition clip (a : Args) : M state unit :=
  if Qgtb (clip_weights a) 0
  then
    no_grad
      (s <- get ;;
       let p := map (clamp_ (- clip_weights a) (clip_weights a))
                    (discriminator_p s) in
       modify (set_discriminator p (discriminator_optimizer s)) ;;;
       emit (EvClamp (clip_weights a) (grad_enabled s) p))
  else ret tt.

(** Lines 137-141 *)
Definition discriminator_loss (lc : loss_class) (d : params)
  (prediction_real prediction_fake : list Q) (batch fake_samples : tensor)
  : lossval :=
  if is_gp lc
  then loss_discriminator_gp prediction_real prediction_fake d batch
                             fake_samples
  else loss_discriminator lc prediction_real prediction_fake.

(** Lines 126-149: the body of [for _ in range(args.d_updates)]. *)
Definition discriminator_update (a : Args) (lc : loss_class) (epoch index : Z)
  : M state unit :=
  s <- get ;;
  let batch := slice (data s) index (index + batch_size a) in
  kn <- torch_randn (batch_size a) (latent_size a) ;;
  fake_samples <- no_grad (ret (generator (generator_p s) (snd kn))) ;;
  let prediction_real := discriminator (discriminator_p s) batch in
  let prediction_fake := discriminator (discriminator_p s) fake_samples in
  let l := discriminator_loss lc (discriminator_p s) prediction_real
                              prediction_fake batch fake_samples in
  let g := backward_d lc (discriminator_p s) batch fake_samples in
  let o := discriminator_optimizer s in
  let bp := rmsprop_step (opt_lr o) (opt_buf o) (discriminator_p s) g in
  modify (set_loss_d l) ;;;
  modify (set_discriminator (snd bp)
                            {| opt_lr := opt_lr o; opt_buf := fst bp |}) ;;;
  emit (EvStepD epoch index batch (fst kn) l) ;;;
  clip a.

(** Line 158: [args.topk and (epoch >= 0.5 * args.epochs)] *)
Definition topk_active (a : Args) (epoch : Z) : bool :=
  topk a && Qle_bool (0.5 * inject_Z (epochs a)) (inject_Z epoch).

(** Lines 158-159: what [loss_generator] is applied to. *)
Definition generator_loss_input (a : Args) (epoch : Z)
  (prediction_fake : list Q) : error + list Q :=
  if topk_active a epoch
  then TopK.topk prediction_fake (shape0 prediction_fake / 2)
  else inr prediction_fake.

(** Lines 151-162 *)
Definition generator_update (a : Args) (lc : loss_class) (epoch index : Z)
  : M state lossval :=
  kn <- torch_randn (batch_size a) (latent_size a) ;;
  s <- get ;;
  let fake_samples := generator (generator_p s) (snd kn) in
  let prediction_fake := discriminator (discriminator_p s) fake_samples in
  scores <- lift (generator_loss_input a epoch prediction_fake) ;;
  let l := loss_generator lc scores in
  let g := backward_g lc (generator_p s) (discriminator_p s) (snd kn)
                      (topk_active a epoch) in
  let o := generator_optimizer s in
  let bp := rmsprop_step (opt_lr o) (opt_buf o) (generator_p s) g in
  modify (set_generator (snd bp)
                        {| opt_lr := opt_lr o; opt_buf := fst bp |}) ;;;
  emit (EvStepG epoch index (fst kn) scores l) ;;;
  ret l.

(** Lines 164-166: the description formats [loss_g.item()] and
    [loss_d.item()]; the name [loss_d] is bound only once a discriminator
    update has run. *)
Definition set_description (epoch : Z) (loss_g : lossval) : M state unit :=
  s <- get ;;
  match loss_d s with
  | Some ld => emit (EvProgress epoch loss_g ld)
  | None => raise NameError
  end.

(** Lines 122-166: the body of [for index in range(0, args.samples,
    args.batch_size)]. *)
Definition batch_iteration (a : Args) (lc : loss_class) (epoch index : Z)
  : M state unit :=
  shuffle ;;;
  for_each (range (d_updates a))
           (fun _ => discriminator_update a lc epoch index) ;;;
  loss_g <- generator_update a lc epoch index ;;
  set_description epoch loss_g.

(** Lines 168-238: the plotting block reads the generator and the data and
    writes files and a UDP message; nothing of it feeds back into training. *)
Definition plot (a : Args) (epoch : Z) : M state unit :=
  r <- lift (mod_ (epoch + 1) (plot_frequency a)) ;;
  if r =? 0 then emit (EvPlot epoch) else ret tt.

(** Lines 119-238: the body of [for epoch in range(args.epochs)]. *)
Definition epoch_iteration (a : Args) (lc : loss_class) (epoch : Z)
  : M state unit :=
  windows <- lift (range3 0 (samples a) (batch_size a)) ;;
  for_each windows (batch_iteration a lc epoch) ;;;
  plot a epoch.

Definition training_loop (a : Args) (lc : loss_class) : M state unit :=
  for_each (range (epochs a)) (epoch_iteration a lc).

(** *** Set-up (lines 76-116) and the whole script *)

Definition setup (a : Args) : M state loss_class :=
  kn <- torch_randn (samples a / 10) (latent_size a) ;;
  modify (set_fixed_noise (snd kn)) ;;;
  modify (set_data (get_data (samples a))) ;;;
  let g := get_generator (latent_size a) in
  let d := get_discriminator (spectral_norm a) in
  let lc := select_loss (loss a) in
  modify (set_generator g (RMSprop g (lr a))) ;;;
  emit (EvOptimizer Gen (lr a)) ;;;
  modify (set_discriminator d (RMSprop d (lr a))) ;;;
  emit (EvOptimizer Dis (lr a)) ;;;
  ret lc.

Definition main (a : Args) : M state unit :=
  lc <- setup a ;;
  training_loop a lc.

(** The interpreter state when the script starts: nothing drawn, grad mode
    on, [loss_d] unbound, empty trace.  The network and optimizer names are
    unbound too; they are filled with empty parameter sets, which [setup]
    replaces before anything reads them. *)
Definition boot : state :=
  {| data := [];
     generator_p := [];
     discriminator_p := [];
     generator_optimizer := RMSprop [] 0;
     discriminator_optimizer := RMSprop [] 0;
     fixed_generator_noise := [];
     rng := O;
     grad_enabled := true;
     loss_d := None;
     trace := [] |}.

(** The script on a command line. *)
Definition program (c : Cli) : outcome state unit :=
  match parse_args c with
  | inl e => Raise e boot
  | inr a => main (override a) boot
  end.

End Trainer.

End Piece1.

(* ===================================================================== *)
(** ** GAN_piece2/code/main.py *)
(* ===================================================================== *)

Module Piece2.

Import Py Run Torch.

Local Open Scope string_scope.
Local Open Scope Z_scope.
Local Open Scope run_scope.

(** Hyperparameters (lines 17-21) *)
Definition batch_size : Z := 64.
Definition lr : Q := 0.0002%Q.
Definition latent_dim : Z := 100.
Definition image_size : Z := 28 * 28.
Definition epochs : Z := 50.

(** Where a latent tensor comes from: a draw of the random generator, or a
    constant fill. *)
Inductive latent_source :=
| Drawn (draw : nat)
| Filled (value : Q).

Inductive event :=
| EvLatent (id : nat) (src : latent_source) (rows cols : Z)
    (** a latent tensor is created; [id] numbers the tensors created so far *)
| EvStepD (epoch i : Z) (latent : nat) (l : lossval)
    (** [optimizer_D.step()] on [d_loss = l], whose fake half was generated
        from latent tensor [latent] *)
| EvStepG (epoch i : Z) (latent : nat) (l : lossval)
    (** [optimizer_G.step()] on [g_loss = l] *)
| EvPrint (epoch i : Z) (d_loss g_loss : lossval)
| EvLog (epoch i : Z) (d_loss g_loss : lossval)
| EvSave (epoch i : Z).

Definition step_of (e : event) : list (net * nat) :=
  match e with
  | EvStepD _ _ k _ => [(Dis, k)]
  | EvStepG _ _ k _ => [(Gen, k)]
  | _ => []
  end.

Definition steps (tr : list event) : list (net * nat) := flat_map step_of tr.

(** The loss each optimizer step of a trace was taken on. *)
Definition loss_of (e : event) : list (net * lossval) :=
  match e with
  | EvStepD _ _ _ l => [(Dis, l)]
  | EvStepG _ _ _ l => [(Gen, l)]
  | _ => []
  end.

Definition step_losses (tr : list event) : list (net * lossval) :=
  flat_map loss_of tr.

(** The closure stored in [generator.input_activation]: the default lambda
    of [Generator.__init__] (line 70), or the one [set_generator_activation]
    installs (lines 43-52). *)
Inductive activation :=
| DefaultActivation
| SetActivation (mode : string) (value : Q).

(** IEEE addition on reported losses ([d_loss = real_loss + fake_loss]). *)
Definition add_loss (x y : lossval) : lossval :=
  match x, y with
  | Finite p, Finite q => Finite (p + q)
  | NaN, _ | _, NaN => NaN
  | PosInf, NegInf | NegInf, PosInf => NaN
  | PosInf, _ | _, PosInf => PosInf
  | NegInf, _ | _, NegInf => NegInf
  end.

(** Lines 159-168 *)
Definition save_interval (epoch : Z) : Z :=
  if epoch <? 2 then 10
  else if (2 <=? epoch) && (epoch <? 5) then 30
  else if (5 <=? epoch) && (epoch <? 10) then 50
  else if (10 <=? epoch) && (epoch <? 30) then 100
  else 200.

(** [enumerate(l)] *)
Definition enumerate {A : Type} (l : list A) : list (Z * A) :=
  combine (range (shape0 l)) l.

(** The networks, [nn.BCELoss]'s value, autograd, Adam, and the batches the
    data loader yields in each epoch (rows are the flattened images). *)
Class Collaborators := {
  normal : nat -> nat -> nat -> Q;
  train_loader : Z -> list tensor;
  init_generator : params;
  init_discriminator : params;
  generator : params -> tensor -> tensor;
  discriminator : params -> tensor -> list Q;
  bce : list Q -> list Q -> lossval;
  backward_d : params -> tensor -> tensor -> params;
  backward_g : params -> params -> tensor -> params;
  buffers : Type;
  adam_init : params -> buffers;
  adam_step : Q -> buffers -> params -> params -> buffers * params
}.

Section Trainer.

Context {C : Collaborators}.

(** [criterion(input, target)] for [criterion = nn.BCELoss()]: the functional
    refuses a target whose size differs from the input's. *)
Definition criterion (input target : list Q) : error + lossval :=
  if Nat.eqb (length input) (length target) then inr (bce input target)
  else inl ValueError.

Record state := {
  generator_p : params;
  discriminator_p : params;
  optimizer_G : buffers;
  optimizer_D : buffers;
  input_activation : activation;
  rng : nat;
  tensors : nat;
  trace : list event
}.

Definition set_generator (p : params) (o : buffers) (s : state) : state :=
  {| generator_p := p;
     discriminator_p := discriminator_p s;
     optimizer_G := o;
     optimizer_D := optimizer_D s;
     input_activation := input_activation s;
     rng := rng s;
     tensors := tensors s;
     trace := trace s |}.

Definition set_discriminator (p : params) (o : buffers) (s : state) : state :=
  {| generator_p := generator_p s;
     discriminator_p := p;
     optimizer_G := optimizer_G s;
     optimizer_D := o;
     input_activation := input_activation s;
     rng := rng s;
     tensors := tensors s;
     trace := trace s |}.

Definition set_input_activation (f : activation) (s : state) : state :=
  {| generator_p := generator_p s;
     discriminator_p := discriminator_p s;
     optimizer_G := optimizer_G s;
     optimizer_D := optimizer_D s;
     input_activation := f;
     rng := rng s;
     tensors := tensors s;
     trace := trace s |}.

Definition set_counters (draws made : nat) (s : state) : state :=
  {| generator_p := generator_p s;
     discriminator_p := discriminator_p s;
     optimizer_G := optimizer_G s;
     optimizer_D := optimizer_D s;
     input_activation := input_activation s;
     rng := draws;
     tensors := made;
     trace := trace s |}.

Definition log (e : event) (s : state) : state :=
  {| generator_p := generator_p s;
     discriminator_p := discriminator_p s;
     optimizer_G := optimizer_G s;
     optimizer_D := optimizer_D s;
     input_activation := input_activation s;
     rng := rng s;
     tensors := tensors s;
     trace := trace s ++ [e] |}.

Definition emit (e : event) : M state unit := modify (log e).

(** [torch.randn(rows, cols, ...)], returning the new tensor's number. *)
Definition torch_randn (rows cols : Z) : M state (nat * tensor) :=
  s <- get ;;
  t <- lift (randn normal (rng s) rows cols) ;;
  modify (set_counters (S (rng s)) (S (tensors s))) ;;;
  emit (EvLatent (tensors s) (Drawn (rng s)) rows cols) ;;;
  ret (tensors s, t).

(** [torch.full((rows, cols), fill_value=value, ...)] *)
Definition torch_full (rows cols : Z) (value : Q) : M state (nat * tensor) :=
  s <- get ;;
  t <- lift (full rows cols value) ;;
  modify (set_counters (rng s) (S (tensors s))) ;;;
  emit (EvLatent (tensors s) (Filled value) rows cols) ;;;
  ret (tensors s, t).

(** [generator.input_activation(rows, cols, device)] *)
Definition call_input_activation (rows cols : Z) : M state (nat * tensor) :=
  s <- get ;;
  match input_activation s with
  | DefaultActivation => torch_randn rows cols
  | SetActivation mode value =>
      if String.eqb mode "random" then torch_randn rows cols
      else if String.eqb mode "uniform" then torch_full rows cols value
      else raise ValueError
  end.

(** Lines 192-193: the console line. *)
Definition print_line (epoch i : Z) (d_loss g_loss : lossval) : M state unit :=
  if i mod 200 =? 0 then emit (EvPrint epoch i d_loss g_loss) else ret tt.

(** Lines 196-238: the metric log (on 100 freshly drawn latent vectors) and
    the image grid (on a latent batch from the input activation). *)
Definition save_block (epoch i : Z) (d_loss g_loss : lossval) : M state unit :=
  r <- lift (mod_ i (save_interval epoch)) ;;
  if r =? 0
  then
    _ <- torch_randn 100 latent_dim ;;
    emit (EvLog epoch i d_loss g_loss) ;;;
    _ <- call_input_activation batch_size latent_dim ;;
    emit (EvSave epoch i)
  else ret tt.

Definition report (epoch i : Z) (d_loss g_loss : lossval) : M state unit :=
  print_line epoch i d_loss g_loss ;;;
  save_block epoch i d_loss g_loss.

(** Lines 171-190: one real batch [imgs]. *)
Definition train_batch (epoch : Z) (ib : Z * tensor) : M state unit :=
  let i := fst ib in
  let imgs := snd ib in
  let real := repeat 1%Q (length imgs) in
  let fake := repeat 0%Q (length imgs) in
  s <- get ;;
  real_loss <- lift (criterion (discriminator (discriminator_p s) imgs) real) ;;
  kz <- call_input_activation batch_size latent_dim ;;
  let generated_imgs := generator (generator_p s) (snd kz) in
  fake_loss <-
    lift (criterion (discriminator (discriminator_p s) generated_imgs) fake) ;;
  let d_loss := add_loss real_loss fake_loss in
  let gd := backward_d (discriminator_p s) imgs generated_imgs in
  let bd := adam_step lr (optimizer_D s) (discriminator_p s) gd in
  modify (set_discriminator (snd bd) (fst bd)) ;;;
  emit (EvStepD epoch i (fst kz) d_loss) ;;;
  g_loss <- lift (criterion (discriminator (snd bd) generated_imgs) real) ;;
  let gg := backward_g (generator_p s) (snd bd) (snd kz) in
  let bg := adam_step lr (optimizer_G s) (generator_p s) gg in
  modify (set_generator (snd bg) (fst bg)) ;;;
  emit (EvStepG epoch i (fst kz) g_loss) ;;;
  report epoch i d_loss g_loss.

(** Lines 158-238 *)
Definition epoch_iteration (epoch : Z) : M state unit :=
  for_each (enumerate (train_loader epoch)) (train_batch epoch).

Definition training_loop : M state unit :=
  for_each (range epochs) epoch_iteration.

(** Lines 43-52: replaces the closure stored in the generator. *)
Definition set_generator_activation (mode : string) (value : Q) (s : state)
  : state :=
  set_input_activation (SetActivation mode value) s.

(** Fresh networks (lines 92-93) and Adam optimizers (lines 100-101); the
    generator comes with its default input activation. *)
Definition init : state :=
  {| generator_p := init_generator;
     discriminator_p := init_discriminator;
     optimizer_G := adam_init init_generator;
     optimizer_D := adam_init init_discriminator;
     input_activation := DefaultActivation;
     rng := O;
     tensors := O;
     trace := [] |}.

(** The state the training loop starts in: line 96 has set the input
    activation to uniform 0.5. *)
Definition boot : state := set_generator_activation "uniform" 0.5%Q init.

Definition program : outcome state unit := training_loop boot.

End Trainer.

End Piece2.

(* ===================================================================== *)
(** ** Facts about the Python helpers and the monad *)
(* ===================================================================== *)

(* ===================================================================== *)
(** ** Piece1: the vocabulary of the properties *)
(* ===================================================================== *)

Module Piece1Props.

Import Py Run Torch Piece1.

Local Open Scope Z_scope.

Section Props.

Context {C : Collaborators}.

(** Every element of every parameter lies in [-c, c]. *)
Definition clipped (c : Q) (p : params) : Prop :=
  Forall (Forall (fun x => (- c <= x)%Q /\ (x <= c)%Q)) p.

(** The oracle of [torch.randperm] returns permutations. *)
Definition valid_randperm : Prop :=
  forall k n, Permutation (randperm k n) (seq 0 n).

(** The networks map a batch of [n] rows to [n] outputs. *)
Definition row_preserving : Prop :=
  (forall p z, length (generator p z) = length z) /\
  (forall p x, length (discriminator p x) = length x).

(** A clamp event ran with grad mode off and left every discriminator
    parameter element within its bound. *)
Definition clamp_ok (e : event) : Prop :=
  match e with
  | EvClamp c g p => g = false /\ clipped c p
  | _ => True
  end.

(** [n]: the number of iterations of [for _ in range(args.d_updates)]. *)
Definition d_count (a : Args) : nat := Z.to_nat (d_updates a).

(** What one batch window leaves behind, between its start state [s] and
    its end state [s']. *)
Definition batch_rel (a : Args) (i : Z) (s s' : state) : Prop :=
  exists new,
    rng s' = (rng s + d_count a + 2)%nat /\
    Permutation (data s') (data s) /\
    loss_d s' <> None /\
    trace s' = trace s ++ new /\
    steps new =
      map (pair Dis) (seq (S (rng s)) (d_count a))
      ++ [(Gen, (S (rng s) + d_count a)%nat)] /\
    randn_draws new = seq (S (rng s)) (S (d_count a)) /\
    batches new =
      repeat (i, slice (data s') i (i + batch_size a)) (d_count a) /\
    length (filter is_randperm new) = 1%nat /\
    length (filter is_step_g new) = 1%nat /\
    length (filter is_step_d new) = d_count a /\
    (Qgtb (clip_weights a) 0 = true ->
     length (filter is_clamp new) = d_count a) /\
    Forall clamp_ok new /\
    (Qgtb (clip_weights a) 0 = true ->
     (1 <= d_updates a \/ clipped (clip_weights a) (discriminator_p s)) ->
     clipped (clip_weights a) (discriminator_p s')).

(** A batch sliced at window [i] out of a pool of [n] rows has
    [min(batch_size, n - i)] rows. *)
Definition batch_ok (a : Args) (n : Z) (ib : Z * tensor) : Prop :=
  shape0 (snd ib) = Z.min (batch_size a) (Z.max 0 (n - fst ib)).

(** [seg a ws s s']: the run from [s] to [s'] went through the batch windows
    [ws], in order. *)
Definition seg (a : Args) (ws : list Z) (s s' : state) : Prop :=
  exists new,
    trace s' = trace s ++ new /\
    rng s' = (rng s + (d_count a + 2) * length ws)%nat /\
    Permutation (data s') (data s) /\
    length (filter is_randperm new) = length ws /\
    length (filter is_step_g new) = length ws /\
    length (filter is_step_d new) = (d_count a * length ws)%nat /\
    (Qgtb (clip_weights a) 0 = true ->
     length (filter is_clamp new) = (d_count a * length ws)%nat) /\
    map fst (batches new) = flat_map (fun i => repeat i (d_count a)) ws /\
    Forall (batch_ok a (shape0 (data s))) (batches new) /\
    Forall clamp_ok new /\
    (loss_d s <> None \/ ws <> [] -> loss_d s' <> None) /\
    (Qgtb (clip_weights a) 0 = true ->
     clipped (clip_weights a) (discriminator_p s) \/
     (1 <= d_updates a /\ ws <> []) ->
     clipped (clip_weights a) (discriminator_p s')).

(** The batch windows of an epoch: the indices
    [range(0, args.samples, args.batch_size)] yields for a positive batch
    size. *)
Definition windows (a : Args) : list Z :=
  count_from 0 (batch_size a)
             (Z.to_nat ((samples a + batch_size a - 1) / batch_size a)).

(** The loop can run when a discriminator update comes before the first
    progress line, or [loss_d] is bound already. *)
Definition can_report (a : Args) (s : state) : Prop :=
  1 <= d_updates a \/ loss_d s <> None.

(** The windows of [n] epochs in a row. *)
Definition all_windows (a : Args) : list Z :=
  concat (map (fun _ => windows a) (range (epochs a))).

(** What [discriminator_optimizer.step()] of line 143 leaves in the
    discriminator, when the update starts in [s] at window [index] and has
    drawn [noise]: the parameters the clamp of lines 146-149 is applied
    to. *)
Definition stepped (a : Args) (lc : loss_class) (index : Z) (s : state)
  (noise : tensor) : params :=
  let batch := slice (data s) index (index + batch_size a) in
  let fake_samples := generator (generator_p s) noise in
  let g := backward_d lc (discriminator_p s) batch fake_samples in
  let o := discriminator_optimizer s in
  snd (rmsprop_step (opt_lr o) (opt_buf o) (discriminator_p s) g).

End Props.

End Piece1Props.

(* ===================================================================== *)
(** ** Piece2: the vocabulary of the properties *)
(* ===================================================================== *)

Module Piece2Props.

Import Py Run Torch Piece2.

Section Props.

Context {C : Collaborators}.

(** The networks map a batch of [n] rows to [n] outputs. *)
Definition row_preserving : Prop :=
  (forall p z, length (generator p z) = length z) /\
  (forall p x, length (discriminator p x) = length x).

(** The activation closures that return a tensor: the default one and the
    two modes [set_generator_activation] knows. *)
Definition known_activation (f : activation) : Prop :=
  match f with
  | DefaultActivation => True
  | SetActivation mode _ => mode = "random"%string \/ mode = "uniform"%string
  end.


(** The loss is a number: neither NaN nor an infinity. *)
Definition is_finite (l : lossval) : bool :=
  match l with
  | Finite _ => true
  | _ => false
  end.



End Props.

End Piece2Props.

(* ===================================================================== *)
(** ** Alternation of optimizer steps *)
(* ===================================================================== *)

Module Protocol.

Import Torch.

(** [alternation k st]: the optimizer steps [st] of one batch are [k]
    discriminator steps followed by one generator step, and the latent
    tensors the [k + 1] steps consumed are pairwise different. *)
Definition alternation (k : nat) (st : list (net * nat)) : Prop :=
  exists ds g,
    st = map (pair Dis) ds ++ [(Gen, g)] /\
    length ds = k /\
    NoDup (ds ++ [g]).

End Protocol.

(* ===================================================================== *)
(** ** Small concrete collaborators, to run the loops on *)
(* ===================================================================== *)

Module Toy.

Import Py Run Torch.

Local Open Scope string_scope.

(** The identity permutation at every draw but the fifth, which reverses. *)
Definition toy_perm (k n : nat) : list nat :=
  if Nat.eqb k 4 then rev (seq 0 n) else seq 0 n.

Definition row_sums (x : tensor) : list Q :=
  map (fun r => fold_right Qplus 0%Q r) x.

Definition shift (p : params) : params := map (map (Qplus 1%Q)) p.

(** Piece1 collaborators whose losses all evaluate to [l]: the pool is
    [[0], [1], ..., [n-1]], the generator is the identity on latent rows, the
    discriminator sums each row, and an optimizer step adds one to every
    parameter element. *)
Definition piece1 (l : lossval) : Piece1.Collaborators :=
  {| Piece1.normal := fun k _ _ => inject_Z (Z.of_nat k);
     Piece1.randperm := toy_perm;
     Piece1.get_data :=
       fun n => map (fun i => [inject_Z (Z.of_nat i)]) (seq 0 (Z.to_nat n));
     Piece1.get_generator := fun _ => [[1%Q]];
     Piece1.get_discriminator := fun _ => [[5%Q; (-5)%Q]];
     Piece1.generator := fun _ z => z;
     Piece1.discriminator := fun _ x => row_sums x;
     Piece1.loss_generator := fun _ _ => l;
     Piece1.loss_discriminator := fun _ _ _ => l;
     Piece1.loss_discriminator_gp := fun _ _ _ _ _ => l;
     Piece1.backward_d := fun _ p _ _ => p;
     Piece1.backward_g := fun _ p _ _ _ => p;
     Piece1.buffers := unit;
     Piece1.rmsprop_init := fun _ => tt;
     Piece1.rmsprop_step := fun _ _ p _ => (tt, shift p) |}.

(** A command line with everything small. *)
Definition cli (loss_name : string) (clip : Q) (n_epochs n_samples n_batch d : Z)
  : Piece1.Cli :=
  {| Piece1.cli_device := Some "cpu";
     Piece1.cli_epochs := Some n_epochs;
     Piece1.cli_d_updates := Some d;
     Piece1.cli_plot_frequency := None;
     Piece1.cli_lr := Some 0.5%Q;
     Piece1.cli_latent_size := Some 1%Z;
     Piece1.cli_samples := Some n_samples;
     Piece1.cli_batch_size := Some n_batch;
     Piece1.cli_loss := Some loss_name;
     Piece1.cli_spectral_norm := false;
     Piece1.cli_clip_weights := Some clip;
     Piece1.cli_topk := false;
     Piece1.cli_gen_picture := None |}.

(** The namespace [parse_args] returns on such a command line. *)
Definition parsed (loss_name : string) (clip : Q)
  (n_epochs n_samples n_batch d : Z) (use_topk : bool) : Piece1.Args :=
  {| Piece1.device := "cpu";
     Piece1.epochs := n_epochs;
     Piece1.d_updates := d;
     Piece1.plot_frequency := 10;
     Piece1.lr := 0.5%Q;
     Piece1.latent_size := 1;
     Piece1.samples := n_samples;
     Piece1.batch_size := n_batch;
     Piece1.loss := loss_name;
     Piece1.spectral_norm := false;
     Piece1.clip_weights := clip;
     Piece1.topk := use_topk;
     Piece1.gen_picture := false |}.

(** The same, after the overrides. *)
Definition args (loss_name : string) (clip : Q)
  (n_epochs n_samples n_batch d : Z) (use_topk : bool) : Piece1.Args :=
  Piece1.override (parsed loss_name clip n_epochs n_samples n_batch d use_topk).

(** Piece2 collaborators with the same toy networks; the loader yields the
    given batches in every epoch and every loss evaluates to [l]. *)
Definition piece2 (l : lossval) (loader : list tensor) : Piece2.Collaborators :=
  {| Piece2.normal := fun k _ _ => inject_Z (Z.of_nat k);
     Piece2.train_loader := fun _ => loader;
     Piece2.init_generator := [[1%Q]];
     Piece2.init_discriminator := [[5%Q; (-5)%Q]];
     Piece2.generator := fun _ z => z;
     Piece2.discriminator := fun _ x => row_sums x;
     Piece2.bce := fun _ _ => l;
     Piece2.backward_d := fun p _ _ => p;
     Piece2.backward_g := fun p _ _ => p;
     Piece2.buffers := unit;
     Piece2.adam_init := fun _ => tt;
     Piece2.adam_step := fun _ _ p _ => (tt, shift p) |}.

(** A batch of [n] one-pixel images. *)
Definition images (n : nat) : tensor := repeat [0%Q] n.

(** The state piece1 is in when its set-up (lines 76-116) has run. *)
Definition ready (l : lossval) (a : Piece1.Args) : @Piece1.state (piece1 l) :=
  final (@Piece1.setup (piece1 l) a (@Piece1.boot (piece1 l))).

End Toy.

(* ===================================================================== *)
(** ** Piece1: the plotting block (lines 168-238) *)
(* ===================================================================== *)

Module Piece1Plot.

Import Py Run Torch.

Local Open Scope string_scope.

(** [radius = torch.tensor([0.5, ..., 0.5])] (line 188) *)
Definition radius : list Q := repeat 0.5%Q 8.

(** [v[k]] on a 1-D tensor *)
Definition item (v : list Q) (k : nat) : error + Q :=
  match nth_error v k with
  | Some x => inr x
  | None => inl IndexError
  end.

(** [sums[i] += 1] *)
Fixpoint bump (i : nat) (sums : list Z) : list Z :=
  match i, sums with
  | _, [] => []
  | O, x :: l => (x + 1)%Z :: l
  | S k, x :: l => x :: bump k l
  end.

Section Circles.

(** The comparison of line 206,
    [(px - cx)**2 + (py - cy)**2 < r**2], as torch evaluates it on the
    float32 elements [px], [cx], [py], [cy] and [r].  Its rounding is not
    modelled: the loops are taken with whatever this test answers. *)
Variable closer : Q -> Q -> Q -> Q -> Q -> bool.

(** The test of line 206: the five elements are indexed in the order the
    expression reads them; every circle is compared with [radius[0]]. *)
Definition inside (center point : list Q) : error + bool :=
  match item point 0, item center 0, item point 1, item center 1,
        item radius 0 with
  | inr px, inr cx, inr py, inr cy, inr r => inr (closer px cx py cy r)
  | _, _, _, _, _ => inl IndexError
  end.

(** The inner loop of [get_point_loc] (lines 205-207) for circle [i]. *)
Fixpoint scan_points (i : nat) (center : list Q) (points : tensor)
  (sums : list Z) : error + list Z :=
  match points with
  | [] => inr sums
  | point :: rest =>
      match inside center point with
      | inl e => inl e
      | inr true => scan_points i center rest (bump i sums)
      | inr false => scan_points i center rest sums
      end
  end.

(** The outer loop (line 204), [i] counting the circles done. *)
Fixpoint scan_centers (i : nat) (centers points : tensor) (sums : list Z)
  : error + list Z :=
  match centers with
  | [] => inr sums
  | center :: rest =>
      match scan_points i center points sums with
      | inl e => inl e
      | inr sums' => scan_centers (S i) rest points sums'
      end
  end.

(** [get_point_loc] (lines 201-209), as the list it prints, writes and
    sends: [centers] are the rows of the tensor of line 186, [points] the
    generator's samples. *)
Definition get_point_loc (centers points : tensor) : error + list Z :=
  scan_centers O centers points (repeat 0%Z (length centers)).

End Circles.

(** The same comparison in exact arithmetic, to run the loops on. *)
Definition exact_closer (px cx py cy r : Q) : bool :=
  Qgtb (r ^ 2) ((px - cx) ^ 2 + (py - cy) ^ 2).

(** [str(z)] for an integer *)
Definition str (z : Z) : string :=
  DecimalString.NilZero.string_of_int (Z.to_int z).

Fixpoint zeros (n : nat) : string :=
  match n with
  | O => EmptyString
  | S k => String "0"%char (zeros k)
  end.

Definition is_sign (c : Ascii.ascii) : bool :=
  Ascii.eqb c "+"%char || Ascii.eqb c "-"%char.

(** [s.zfill(width)]: zeros are inserted after a leading sign. *)
Definition zfill (width : nat) (s : string) : string :=
  let fill := (width - String.length s)%nat in
  match s with
  | String c rest =>
      if is_sign c then String c (zeros fill ++ rest) else zeros fill ++ s
  | EmptyString => zeros fill
  end.

(** The file name of line 227, inside the plots directory. *)
Definition plot_file_name (epoch : Z) : string :=
  zfill 4 (str (epoch + 1)) ++ ".png".

End Piece1Plot.

(* ===================================================================== *)
(** ** Piece2: the metric averages (lines 202-223) *)
(* ===================================================================== *)

Module Piece2Metrics.

Import Py Run Torch.

Local Open Scope Z_scope.

(** Lines 211-214: the index pairs [calculate_ssim] is called on, for [n]
    generated images. *)
Definition ssim_pairs (n : Z) : error + list (Z * Z) :=
  match range3 0 n 2 with
  | inl e => inl e
  | inr js =>
      inr (flat_map (fun j => if j + 1 <? n then [(j, j + 1)] else []) js)
  end.

(** [sum(values) / len(values)] *)
Definition average (values : list Q) : error + Q :=
  match values with
  | [] => inl ZeroDivisionError
  | _ => inr (fold_right Qplus 0%Q values / inject_Z (shape0 values))%Q
  end.

(** Lines 211-215, for a given [calculate_ssim] on image indices. *)
Definition ssim_avg (calculate_ssim : Z -> Z -> Q) (n : Z) : error + Q :=
  match ssim_pairs n with
  | inl e => inl e
  | inr pairs =>
      average (map (fun p => calculate_ssim (fst p) (snd p)) pairs)
  end.

End Piece2Metrics.

(* ===================================================================== *)
(** ** Further vocabulary on traces *)
(* ===================================================================== *)

Module TraceProps.

Import Py Run Torch.

Local Open Scope Z_scope.

(** The integers torch takes as a tensor size: those of a 64-bit signed
    integer. *)
Definition int64 (z : Z) : Prop := - 2 ^ 63 <= z < 2 ^ 63.

(** The epochs a trace plotted at. *)
Definition plot_of (e : Piece1.event) : list Z :=
  match e with
  | Piece1.EvPlot epoch => [epoch]
  | _ => []
  end.

Definition plots (tr : list Piece1.event) : list Z := flat_map plot_of tr.

(** Line 168: [((epoch + 1) % args.plot_frequency) == 0] *)
Definition plot_due (a : Piece1.Args) (epoch : Z) : bool :=
  (epoch + 1) mod Piece1.plot_frequency a =? 0.

(** The number of real rows the discriminator steps of a trace were fed. *)
Definition real_rows (tr : list Piece1.event) : Z :=
  fold_right (fun ib acc => shape0 (snd ib) + acc) 0 (Piece1.batches tr).

(** [increasing_within lo hi l]: the draw numbers [l] are strictly
    increasing and lie in [lo, hi). *)
Definition increasing_within (lo hi : nat) (l : list nat) : Prop :=
  StronglySorted lt l /\ Forall (fun k => (lo <= k < hi)%nat) l.

(** The optimizer steps of a piece2 trace, as (discriminator, generator)
    pairs on one latent tensor each. *)
Definition paired (zs : list nat) : list (net * nat) :=
  flat_map (fun z => [(Dis, z); (Gen, z)]) zs.

(** The number of [points] for which the comparison [closer] with the
    circle around [center], of radius 0.5, answers yes. *)
Definition hits (closer : Q -> Q -> Q -> Q -> Q -> bool) (center : list Q)
  (points : tensor) : Z :=
  Z.of_nat
    (length
       (filter (fun point => closer (nth 0 point 0%Q) (nth 0 center 0%Q)
                                    (nth 1 point 0%Q) (nth 1 center 0%Q)
                                    0.5%Q) points)).

(** The row count of the window at index [i] of a pool of [n] rows, for
    batch size [b]. *)
Definition size_at (b n i : Z) : Z := Z.min b (Z.max 0 (n - i)).

(** The rows of the windows at the indices [l], together. *)
Definition total (b n : Z) (l : list Z) : Z :=
  fold_right (fun i acc => size_at b n i + acc) 0 l.

Section OnStates.

Context {C : Piece1.Collaborators}.

(** What the batch windows never change: the fixed noise of line 80, the
    learning rates of the two optimizers, the autograd mode, and the plots
    recorded so far. *)
Definition kept (s : Piece1.state) : tensor * Q * Q * bool * list Z :=
  (Piece1.fixed_generator_noise s,
   Piece1.opt_lr (Piece1.generator_optimizer s),
   Piece1.opt_lr (Piece1.discriminator_optimizer s),
   Piece1.grad_enabled s,
   plots (Piece1.trace s)).

(** [draws_fresh k s s']: from [s] to [s'] the random generator made [k]
    draws, and the optimizer steps taken on the way consumed [torch.randn]
    draws made on the way, each step a later draw than the step before. *)
Definition draws_fresh (k : nat) (s s' : Piece1.state) : Prop :=
  exists new,
    Piece1.trace s' = Piece1.trace s ++ new /\
    Piece1.rng s' = (Piece1.rng s + k)%nat /\
    increasing_within (Piece1.rng s) (Piece1.rng s')
                      (map snd (Piece1.steps new)) /\
    incl (map snd (Piece1.steps new)) (Piece1.randn_draws new).

End OnStates.

Section OnPiece2States.

Context {C : Piece2.Collaborators}.

(** [batches_done k s s']: from [s] to [s'] the loop went through [k]
    batches, each a discriminator step and then a generator step on one
    latent tensor, and left the generator's input activation as it was. *)
Definition batches_done (k : nat) (s s' : Piece2.state) : Prop :=
  exists new zs,
    Piece2.trace s' = Piece2.trace s ++ new /\
    Piece2.steps new = paired zs /\
    length zs = k /\
    Piece2.input_activation s' = Piece2.input_activation s.

(** What a latent tensor may be while the input activation is uniform [v]:
    a random one has the 100 rows of the metric block, a constant one is
    filled with [v] and has [batch_size] rows. *)
Definition latent_ok (v : Q) (ev : Piece2.event) : Prop :=
  match ev with
  | Piece2.EvLatent _ (Piece2.Drawn _) rows _ => rows = 100
  | Piece2.EvLatent _ (Piece2.Filled x) rows _ =>
      x = v /\ rows = Piece2.batch_size
  | _ => True
  end.

Definition is_drawn (ev : Piece2.event) : bool :=
  match ev with
  | Piece2.EvLatent _ (Piece2.Drawn _) _ _ => true
  | _ => false
  end.

(** The number of random latent tensors a trace created. *)
Definition drawn (tr : list Piece2.event) : nat :=
  length (filter is_drawn tr).

(** Every optimizer step of [tr] consumed a latent tensor that [tr] created
    as the constant [v]. *)
Definition fed_constant (v : Q) (tr : list Piece2.event) : Prop :=
  forall n id,
    In (n, id) (Piece2.steps tr) ->
    In (Piece2.EvLatent id (Piece2.Filled v) Piece2.batch_size
          Piece2.latent_dim) tr.

(** [noise_free v s s']: from [s] to [s'] the input activation stayed as
    it was, the latent tensors created were as [latent_ok] says, the
    optimizer steps were fed constants, and the random generator advanced
    by one draw per random latent tensor. *)
Definition noise_free (v : Q) (s s' : Piece2.state) : Prop :=
  Piece2.input_activation s' = Piece2.input_activation s /\
  exists new,
    Piece2.trace s' = Piece2.trace s ++ new /\
    Forall (latent_ok v) new /\
    fed_constant v new /\
    Piece2.rng s' = (Piece2.rng s + drawn new)%nat.

(** The (epoch, batch) pairs at which a trace printed the console line, wrote
    a line of the metric log, and saved an image grid. *)
Definition print_of (ev : Piece2.event) : list (Z * Z) :=
  match ev with
  | Piece2.EvPrint e i _ _ => [(e, i)]
  | _ => []
  end.

Definition log_of (ev : Piece2.event) : list (Z * Z) :=
  match ev with
  | Piece2.EvLog e i _ _ => [(e, i)]
  | _ => []
  end.

Definition save_of (ev : Piece2.event) : list (Z * Z) :=
  match ev with
  | Piece2.EvSave e i => [(e, i)]
  | _ => []
  end.

Definition prints (tr : list Piece2.event) : list (Z * Z) :=
  flat_map print_of tr.

Definition logs (tr : list Piece2.event) : list (Z * Z) :=
  flat_map log_of tr.

Definition saves (tr : list Piece2.event) : list (Z * Z) :=
  flat_map save_of tr.

(** Lines 192 and 196: [i % 200 == 0] and [i % save_interval == 0]. *)
Definition print_due (i : Z) : bool := i mod 200 =? 0.

Definition save_due (e i : Z) : bool := i mod Piece2.save_interval e =? 0.

(** The batches of epoch [e] among [idx] at which [due] holds. *)
Definition at_epoch (e : Z) (due : Z -> bool) (idx : list Z) : list (Z * Z) :=
  map (pair e) (filter due idx).

(** What a state gained: the reports of [pr], [lo] and [sa], no change of
    the input activation. *)
Definition gained (pr lo sa : list (Z * Z)) (s s' : Piece2.state) : Prop :=
  Piece2.input_activation s' = Piece2.input_activation s /\
  exists new,
    Piece2.trace s' = Piece2.trace s ++ new /\
    prints new = pr /\ logs new = lo /\ saves new = sa.

End OnPiece2States.

End TraceProps.

Unset Implicit Arguments.

Module PyFacts.

Import Py.

Local Open Scope Z_scope.

Lemma length_count_from (start step : Z) (n : nat) :
  length (count_from start step n) = n.
Proof.
  revert start. induction n as [| n IH]; intros start; simpl; [reflexivity |].
  now rewrite IH.
Qed.

Lemma In_count_from (start step : Z) (n : nat) (x : Z) :
  In x (count_from start step n) <->
  exists k : nat, (k < n)%nat /\ x = start + Z.of_nat k * step.
Proof.
  revert start. induction n as [| n IH]; intros start; simpl.
  - split; [tauto | intros [k [Hk _]]; lia].
  - rewrite IH. split.
    + intros [H | [k [Hk Hx]]].
      * exists O. split; [lia | lia].
      * exists (S k). split; [lia | lia].
    + intros [k [Hk Hx]]. destruct k as [| k].
      * left. lia.
      * right. exists k. split; [lia | lia].
Qed.

Lemma length_range (n : Z) : length (range n) = Z.to_nat n.
Proof. apply length_count_from. Qed.

(** With a positive step, [range(0, stop, step)] has ceil(stop / step)
    elements. *)
Lemma range3_windows (stop step : Z) :
  0 < step -> 0 <= stop ->
  range3 0 stop step =
  inr (count_from 0 step (Z.to_nat ((stop + step - 1) / step))).
Proof.
  intros Hs Hn. unfold range3, range_len.
  destruct (Z.eqb_spec step 0) as [E | _]; [lia |].
  destruct (Z.ltb_spec 0 step) as [_ | E]; [| lia].
  rewrite Z.sub_0_r. rewrite Z.max_r; [reflexivity |].
  apply Z.div_pos; lia.
Qed.

Lemma length_slice_window {A : Type} (l : list A) (i w : Z) :
  0 <= i -> 0 <= w ->
  Z.of_nat (length (slice l i (i + w))) =
  Z.min w (Z.max 0 (Z.of_nat (length l) - i)).
Proof.
  intros Hi Hw. unfold slice, norm_index.
  destruct (Z.ltb_spec i 0) as [E | _]; [lia |].
  destruct (Z.ltb_spec (i + w) 0) as [E | _]; [lia |].
  rewrite length_firstn, length_skipn. lia.
Qed.

End PyFacts.

Module RunFacts.

Import Py Run.

(** A loop whose body returns and establishes [B x] from every state of an
    invariant returns, and its end state is linked to its start state by the
    chain of the [B x]. *)
Lemma for_each_chain {S A : Type} (I : S -> Prop) (B : A -> S -> S -> Prop)
  (body : A -> M S unit) (l : list A) :
  (forall x s, In x l -> I s ->
               exists s', body x s = Ok tt s' /\ I s' /\ B x s s') ->
  forall s, I s ->
            exists s', for_each l body s = Ok tt s' /\ I s' /\ chain B l s s'.
Proof.
  induction l as [| x l IH]; intros Hb s Hs; simpl.
  - exists s. repeat split; [exact Hs].
  - unfold bind.
    destruct (Hb x s (or_introl eq_refl) Hs) as [s1 [E1 [I1 B1]]].
    rewrite E1.
    destruct (IH (fun y t Hy => Hb y t (or_intror Hy)) s1 I1)
      as [s' [E' [I' C']]].
    exists s'. split; [exact E' |]. split; [exact I' |]. exists s1. auto.
Qed.

End RunFacts.

Module TorchFacts.

Import Py Torch.

Lemma randn_rows (normal : nat -> nat -> nat -> Q) (k : nat) (rows cols : Z) :
  (0 <= rows)%Z -> (0 <= cols)%Z ->
  exists t, randn normal k rows cols = inr t /\ shape0 t = rows.
Proof.
  intros Hr Hc. unfold randn.
  destruct (Z.ltb_spec rows 0) as [E | _]; [lia |].
  destruct (Z.ltb_spec cols 0) as [E | _]; [lia |]. simpl.
  eexists. split; [reflexivity |].
  unfold shape0. rewrite length_map, length_seq. lia.
Qed.

Lemma full_rows (rows cols : Z) (v : Q) :
  (0 <= rows)%Z -> (0 <= cols)%Z ->
  exists t, full rows cols v = inr t /\ shape0 t = rows.
Proof.
  intros Hr Hc. unfold full.
  destruct (Z.ltb_spec rows 0) as [E | _]; [lia |].
  destruct (Z.ltb_spec cols 0) as [E | _]; [lia |]. simpl.
  eexists. split; [reflexivity |].
  unfold shape0. rewrite repeat_length. lia.
Qed.

Lemma index_rows_some {A : Type} (t : list A) (idx : list nat) :
  Forall (fun i => (i < length t)%nat) idx ->
  exists d, index_rows t idx = inr d /\ map Some d = map (nth_error t) idx.
Proof.
  induction idx as [| i idx IH]; intros H; simpl.
  - exists []. split; reflexivity.
  - inversion H as [| ? ? Hi Hrest]; subst.
    destruct (IH Hrest) as [d [E1 E2]]. rewrite E1.
    destruct (nth_error t i) as [r |] eqn:En.
    + exists (r :: d). split; [reflexivity |]. simpl. now rewrite E2.
    + apply nth_error_None in En. lia.
Qed.

Lemma map_nth_error_seq {A : Type} (t : list A) :
  map (nth_error t) (seq 0 (length t)) = map Some t.
Proof.
  induction t as [| x t IH]; simpl; [reflexivity |].
  f_equal. rewrite <- seq_shift, map_map. exact IH.
Qed.

Lemma map_Some_inj {A : Type} (l1 l2 : list A) :
  map Some l1 = map Some l2 -> l1 = l2.
Proof.
  revert l2. induction l1 as [| x l1 IH]; intros [| y l2] H; simpl in H;
    try discriminate; [reflexivity |].
  injection H as Hx Hl. subst. f_equal. now apply IH.
Qed.

(** Indexing a tensor by a permutation of its row numbers permutes its
    rows. *)
Lemma index_rows_permutation {A : Type} (t : list A) (idx : list nat) :
  Permutation idx (seq 0 (length t)) ->
  exists d, index_rows t idx = inr d /\ Permutation d t.
Proof.
  intros Hp.
  assert (Hall : Forall (fun i => (i < length t)%nat) idx).
  { apply Forall_forall. intros i Hi.
    apply (Permutation_in _ Hp) in Hi. apply in_seq in Hi. lia. }
  destruct (index_rows_some t idx Hall) as [d [E1 E2]].
  exists d. split; [exact E1 |].
  assert (Hm : Permutation (map Some d) (map Some t)).
  { rewrite E2, <- map_nth_error_seq. now apply Permutation_map. }
  apply Permutation_sym in Hm.
  destruct (Permutation_map_inv _ _ Hm) as [l3 [E3 P3]].
  apply map_Some_inj in E3. subst l3. now apply Permutation_sym.
Qed.

(** Clamping lands in the interval as soon as the interval is not empty. *)
Lemma clamp_bounds (lo hi x : Q) :
  (lo <= hi)%Q -> (lo <= clamp lo hi x)%Q /\ (clamp lo hi x <= hi)%Q.
Proof.
  intros H. unfold clamp. split.
  - apply Q.min_glb; [apply Q.le_max_r | exact H].
  - apply Q.le_min_r.
Qed.

(** Clamping leaves an element of the interval as it is. *)
Lemma clamp_inside (lo hi x : Q) :
  (lo <= x)%Q -> (x <= hi)%Q -> (clamp lo hi x == x)%Q.
Proof.
  intros H1 H2. unfold clamp.
  rewrite (Q.max_l _ _ H1). now apply Q.min_l.
Qed.

Lemma Qgtb_lt (x y : Q) : Qgtb x y = true <-> (y < x)%Q.
Proof.
  unfold Qgtb. rewrite negb_true_iff. split.
  - intros H. apply Qnot_le_lt. intros Hle.
    apply Qle_bool_iff in Hle. congruence.
  - intros H. destruct (Qle_bool x y) eqn:E; [| reflexivity].
    apply Qle_bool_iff in E. exfalso. eapply Qlt_not_le; eauto.
Qed.

End TorchFacts.

Module TopKFacts.

Import Py Torch TopK.

Lemma score_order_transitive :
  Transitive (fun x y : Q => is_true (Qle_bool y x)).
Proof.
  intros x y z Hxy Hyz. unfold is_true in *.
  rewrite Qle_bool_iff in *. eapply Qle_trans; eauto.
Qed.

(** In a strongly sorted list every element of a prefix is related to every
    element of the matching suffix. *)
Lemma sorted_prefix_dominates {A : Type} (R : A -> A -> Prop) (l : list A) :
  StronglySorted R l ->
  forall n, Forall (fun x => Forall (R x) (skipn n l)) (firstn n l).
Proof.
  induction 1 as [| a l Hl IH Ha]; intros n.
  - destruct n; constructor.
  - destruct n as [| n]; simpl; [constructor |].
    constructor; [| apply IH].
    apply Forall_forall. intros y Hy.
    rewrite Forall_forall in Ha. apply Ha.
    rewrite <- (firstn_skipn n l). apply in_or_app. now right.
Qed.

(** [topk] with [0 <= k <= len v] returns [k] entries; together with the
    entries left out they are the input, and none left out exceeds one
    kept. *)
Lemma topk_spec (v : list Q) (k : Z) :
  (0 <= k <= shape0 v)%Z ->
  exists top,
    topk v k = inr top /\
    shape0 top = k /\
    Permutation (top ++ rest v k) v /\
    Forall (fun x => Forall (fun y => (y <= x)%Q) (rest v k)) top.
Proof.
  intros [H0 H1]. unfold topk, rest.
  destruct (Z.ltb_spec k 0) as [E | _]; [lia |].
  destruct (Z.ltb_spec (shape0 v) k) as [E | _]; [lia |]. simpl.
  eexists. split; [reflexivity |]. split; [| split].
  - unfold shape0 in *. rewrite length_firstn.
    rewrite <- (Permutation_length (ScoreSort.Permuted_sort v)). lia.
  - rewrite firstn_skipn. apply Permutation_sym, ScoreSort.Permuted_sort.
  - pose proof (ScoreSort.StronglySorted_sort v score_order_transitive) as Hs.
    pose proof (sorted_prefix_dominates _ _ Hs (Z.to_nat k)) as Hd.
    eapply Forall_impl; [| exact Hd]. intros x Hx.
    eapply Forall_impl; [| exact Hx]. intros y Hy.
    now apply Qle_bool_iff.
Qed.

(** Half the length is always an admissible [k]. *)
Lemma half_in_range {A : Type} (v : list A) :
  (0 <= shape0 v / 2 <= shape0 v)%Z.
Proof.
  unfold shape0. split.
  - apply Z.div_pos; lia.
  - apply Z.div_le_upper_bound; lia.
Qed.

End TopKFacts.

(* ===================================================================== *)
(** ** Piece1: what each block of the loop does to the state *)
(* ===================================================================== *)

Module Piece1Facts.

Import Py Run Torch Piece1 Piece1Props.

Local Open Scope Z_scope.

Ltac run := unfold bind, get, modify, ret, lift, raise, emit; simpl.

Section Blocks.

Context {C : Collaborators}.

Lemma clamp_clipped (c : Q) (p : params) :
  (0 < c)%Q -> clipped c (map (clamp_ (- c) c) p).
Proof.
  intros Hc. unfold clipped. apply Forall_map, Forall_forall. intros t _.
  unfold clamp_. apply Forall_map, Forall_forall. intros x _.
  apply TorchFacts.clamp_bounds.
  apply Qle_trans with 0%Q; [| now apply Qlt_le_weak].
  rewrite <- (Qopp_involutive 0). apply Qopp_le_compat. simpl.
  now apply Qlt_le_weak.
Qed.

Lemma shuffle_spec (s : state) :
  valid_randperm ->
  exists s',
    shuffle s = Ok tt s' /\
    rng s' = S (rng s) /\
    Permutation (data s') (data s) /\
    discriminator_p s' = discriminator_p s /\
    loss_d s' = loss_d s /\
    trace s' = trace s ++ [EvRandperm (rng s) (shape0 (data s))].
Proof.
  intros Hv. unfold shuffle, torch_randperm. run.
  destruct (TorchFacts.index_rows_permutation (data s)
              (randperm (rng s) (Z.to_nat (shape0 (data s))))) as [d [E P]].
  { unfold shape0. rewrite Nat2Z.id. apply Hv. }
  rewrite E. simpl. eexists. split; [reflexivity |]. simpl. auto.
Qed.

Lemma clip_spec (a : Args) (s : state) :
  exists s',
    clip a s = Ok tt s' /\
    rng s' = rng s /\
    data s' = data s /\
    loss_d s' = loss_d s /\
    trace s' = trace s ++
               (if Qgtb (clip_weights a) 0
                then [EvClamp (clip_weights a) false (discriminator_p s')]
                else []) /\
    (Qgtb (clip_weights a) 0 = true ->
     discriminator_p s' =
     map (clamp_ (- clip_weights a) (clip_weights a)) (discriminator_p s)) /\
    (Qgtb (clip_weights a) 0 = false ->
     discriminator_p s' = discriminator_p s).
Proof.
  unfold clip. destruct (Qgtb (clip_weights a) 0) eqn:E.
  - unfold no_grad. run. eexists. split; [reflexivity |]. simpl.
    repeat split; auto; discriminate.
  - run. exists s. rewrite app_nil_r. repeat split; auto; discriminate.
Qed.

Lemma discriminator_update_spec (a : Args) (lc : loss_class) (e i : Z)
  (s : state) :
  0 <= batch_size a -> 0 <= latent_size a ->
  exists s' l,
    discriminator_update a lc e i s = Ok tt s' /\
    rng s' = S (rng s) /\
    data s' = data s /\
    loss_d s' = Some l /\
    trace s' = trace s ++
               EvRandn (rng s) (batch_size a) (latent_size a)
               :: EvStepD e i (slice (data s) i (i + batch_size a)) (rng s) l
               :: (if Qgtb (clip_weights a) 0
                   then [EvClamp (clip_weights a) false (discriminator_p s')]
                   else []) /\
    (Qgtb (clip_weights a) 0 = true ->
     clipped (clip_weights a) (discriminator_p s')).
Proof.
  intros Hb Hl. unfold discriminator_update, torch_randn, no_grad.
  destruct (TorchFacts.randn_rows normal (rng s) _ _ Hb Hl) as [t [Et _]].
  run. rewrite Et. simpl.
  match goal with
  | |- context [clip a ?s1] =>
      destruct (clip_spec a s1) as [s' [Ec [Hr [Hd [Hld [Ht [Hc1 Hc0]]]]]]]
  end.
  simpl in *. exists s'. eexists. split; [exact Ec |].
  split; [exact Hr |]. split; [exact Hd |]. split; [exact Hld |].
  split.
  - rewrite Ht. rewrite <- !app_assoc. reflexivity.
  - intros Hq. rewrite (Hc1 Hq). apply clamp_clipped.
    now apply TorchFacts.Qgtb_lt.
Qed.

Lemma generator_loss_input_total (a : Args) (e : Z) (v : list Q) :
  exists scores, generator_loss_input a e v = inr scores.
Proof.
  unfold generator_loss_input. destruct (topk_active a e).
  - destruct (TopKFacts.topk_spec v (shape0 v / 2)
                (TopKFacts.half_in_range v)) as [top [E _]].
    eauto.
  - eauto.
Qed.

Lemma generator_update_spec (a : Args) (lc : loss_class) (e i : Z)
  (s : state) :
  0 <= batch_size a -> 0 <= latent_size a ->
  exists s' noise scores,
    generator_update a lc e i s = Ok (loss_generator lc scores) s' /\
    randn normal (rng s) (batch_size a) (latent_size a) = inr noise /\
    generator_loss_input a e
      (discriminator (discriminator_p s) (generator (generator_p s) noise))
    = inr scores /\
    rng s' = S (rng s) /\
    data s' = data s /\
    discriminator_p s' = discriminator_p s /\
    loss_d s' = loss_d s /\
    trace s' = trace s ++
               [EvRandn (rng s) (batch_size a) (latent_size a);
                EvStepG e i (rng s) scores (loss_generator lc scores)].
Proof.
  intros Hb Hl. unfold generator_update, torch_randn.
  destruct (TorchFacts.randn_rows normal (rng s) _ _ Hb Hl) as [t [Et _]].
  run. rewrite Et. simpl.
  destruct (generator_loss_input_total a e
              (discriminator (discriminator_p s)
                 (generator (generator_p s) t))) as [scores Es].
  rewrite Es. simpl. eexists. exists t, scores.
  split; [reflexivity |]. simpl. rewrite <- !app_assoc.
  repeat split; auto.
Qed.

Lemma d_loop_spec (a : Args) (lc : loss_class) (e i : Z) (l : list Z) :
  0 <= batch_size a -> 0 <= latent_size a ->
  forall s,
  exists s' new,
    for_each l (fun _ => discriminator_update a lc e i) s = Ok tt s' /\
    rng s' = (rng s + length l)%nat /\
    data s' = data s /\
    (l = [] -> s' = s) /\
    (l <> [] -> loss_d s' <> None) /\
    trace s' = trace s ++ new /\
    steps new = map (pair Dis) (seq (rng s) (length l)) /\
    randn_draws new = seq (rng s) (length l) /\
    batches new =
      repeat (i, slice (data s) i (i + batch_size a)) (length l) /\
    filter is_randperm new = [] /\
    filter is_step_g new = [] /\
    length (filter is_step_d new) = length l /\
    (Qgtb (clip_weights a) 0 = true ->
     length (filter is_clamp new) = length l) /\
    Forall clamp_ok new /\
    (Qgtb (clip_weights a) 0 = true -> l <> [] ->
     clipped (clip_weights a) (discriminator_p s')).
Proof.
  intros Hb Hl. induction l as [| x l IH]; intros s.
  - exists s, []. simpl. rewrite app_nil_r.
    repeat split; auto; try congruence.
  - destruct (discriminator_update_spec a lc e i s Hb Hl)
      as [s1 [ld [E1 [R1 [D1 [L1 [T1 C1]]]]]]].
    destruct (IH s1)
      as (s' & new & E2 & R2 & D2 & N2 & L2 & T2 & S2 & W2 & B2 & P2 & G2 & K2
          & J2 & F2 & C2).
    set (c := Qgtb (clip_weights a) 0) in *.
    exists s'.
    exists (EvRandn (rng s) (batch_size a) (latent_size a)
            :: EvStepD e i (slice (data s) i (i + batch_size a)) (rng s) ld
            :: (if c then [EvClamp (clip_weights a) false (discriminator_p s1)]
                else []) ++ new).
    simpl for_each. unfold bind. rewrite E1.
    split; [exact E2 |].
    split; [rewrite R2, R1; simpl; lia |].
    split; [congruence |].
    split; [discriminate |].
    split.
    { intros _. destruct l as [| y l].
      - rewrite (N2 eq_refl). congruence.
      - apply L2. discriminate. }
    split.
    { rewrite T2, T1. rewrite <- app_assoc. simpl. reflexivity. }
    rewrite R1, D1 in *.
    assert (Hc : forall (A : Type) (f : event -> list A),
               f (EvClamp (clip_weights a) false (discriminator_p s1)) = [] ->
               flat_map f ((if c then [EvClamp (clip_weights a) false
                                         (discriminator_p s1)]
                            else []) ++ new) = flat_map f new).
    { intros A f Hf. destruct c; simpl; [rewrite Hf |]; reflexivity. }
    split; [unfold steps in *; simpl; rewrite Hc, S2; reflexivity |].
    split; [unfold randn_draws in *; simpl; rewrite Hc, W2; reflexivity |].
    split; [unfold batches in *; simpl; rewrite Hc, B2; reflexivity |].
    split; [simpl; destruct c; simpl; exact P2 |].
    split; [simpl; destruct c; simpl; exact G2 |].
    split; [simpl; destruct c; simpl; now rewrite K2 |].
    split.
    { intros Hq. rewrite Hq. simpl. now rewrite (J2 Hq). }
    split.
    { constructor; [exact I |]. constructor; [exact I |].
      apply Forall_app. split; [| exact F2].
      destruct c eqn:Ec; constructor; [| constructor].
      simpl. split; [reflexivity | now apply C1]. }
    intros Hq _. destruct l as [| y l].
    + rewrite (N2 eq_refl). now apply C1.
    + apply C2; [exact Hq | discriminate].
Qed.

Lemma set_description_spec (e : Z) (lg : lossval) (s : state) :
  loss_d s <> None ->
  exists s' ld,
    set_description e lg s = Ok tt s' /\
    rng s' = rng s /\
    data s' = data s /\
    discriminator_p s' = discriminator_p s /\
    loss_d s' = loss_d s /\
    trace s' = trace s ++ [EvProgress e lg ld].
Proof.
  intros H. unfold set_description. run.
  destruct (loss_d s) as [ld |] eqn:E; [| congruence].
  run. eexists. exists ld. split; [reflexivity |]. simpl. auto.
Qed.

Lemma projection_app3 {A : Type} (f : event -> list A) (x : event)
  (l1 l2 : list event) (y : event) :
  f x = [] -> f y = [] ->
  flat_map f (x :: l1 ++ l2 ++ [y]) = flat_map f l1 ++ flat_map f l2.
Proof.
  intros Hx Hy. simpl. rewrite Hx. simpl.
  rewrite !flat_map_app. simpl. rewrite Hy, !app_nil_r. reflexivity.
Qed.

Lemma batch_iteration_spec (a : Args) (lc : loss_class) (e i : Z) (s : state) :
  valid_randperm ->
  0 <= batch_size a -> 0 <= latent_size a ->
  (1 <= d_updates a \/ loss_d s <> None) ->
  exists s', batch_iteration a lc e i s = Ok tt s' /\ batch_rel a i s s'.
Proof.
  intros Hv Hb Hl Hd. unfold batch_iteration, bind.
  destruct (shuffle_spec s Hv) as (s1 & E1 & R1 & P1 & K1 & L1 & T1).
  rewrite E1.
  destruct (d_loop_spec a lc e i (range (d_updates a)) Hb Hl s1)
    as (s2 & new2 & E2 & R2 & D2 & N2 & L2 & T2 & S2 & W2 & B2 & P2 & G2 & C2
        & J2 & F2 & Q2).
  rewrite E2.
  destruct (generator_update_spec a lc e i s2 Hb Hl)
    as (s3 & noise & scores & E3 & _ & _ & R3 & D3 & K3 & L3 & T3).
  rewrite E3.
  assert (Hn : length (range (d_updates a)) = d_count a)
    by apply PyFacts.length_range.
  rewrite Hn in *.
  assert (Hbound : loss_d s3 <> None).
  { rewrite L3. destruct (range (d_updates a)) as [| x l] eqn:Er.
    - rewrite (N2 eq_refl), L1. destruct Hd as [Hd | Hd]; [| exact Hd].
      simpl in Hn. unfold d_count in Hn. lia.
    - apply L2. discriminate. }
  destruct (set_description_spec e (loss_generator lc scores) s3 Hbound)
    as (s4 & ld & E4 & R4 & D4 & K4 & L4 & T4).
  rewrite E4. exists s4. split; [reflexivity |].
  exists (EvRandperm (rng s) (shape0 (data s))
          :: new2
          ++ [EvRandn (rng s2) (batch_size a) (latent_size a);
              EvStepG e i (rng s2) scores (loss_generator lc scores)]
          ++ [EvProgress e (loss_generator lc scores) ld]).
  split; [rewrite R4, R3, R2, R1; lia |].
  split; [rewrite D4, D3, D2; exact P1 |].
  split; [rewrite L4; exact Hbound |].
  split.
  { rewrite T4, T3, T2, T1. rewrite <- !app_assoc. reflexivity. }
  rewrite R2, R1 in *.
  split.
  { unfold steps in *. rewrite projection_app3 by reflexivity.
    rewrite S2. reflexivity. }
  split.
  { unfold randn_draws in *. rewrite projection_app3 by reflexivity.
    rewrite W2. simpl flat_map. rewrite seq_S. reflexivity. }
  split.
  { unfold batches in *. rewrite projection_app3 by reflexivity.
    rewrite B2. simpl. rewrite app_nil_r. now rewrite D4, D3, D2. }
  split; [simpl; rewrite !filter_app, P2; reflexivity |].
  split; [simpl; rewrite !filter_app, G2; reflexivity |].
  split.
  { simpl. rewrite !filter_app. simpl. rewrite app_nil_r. exact C2. }
  split.
  { intros Hq. simpl. rewrite !filter_app. simpl. rewrite app_nil_r.
    exact (J2 Hq). }
  split.
  { constructor; [exact I |]. apply Forall_app. split; [exact F2 |].
    repeat constructor. }
  intros Hq Hc. rewrite K4, K3.
  destruct (range (d_updates a)) as [| x l] eqn:Er.
  - rewrite (N2 eq_refl), K1. destruct Hc as [Hc | Hc]; [| exact Hc].
    simpl in Hn. unfold d_count in Hn. lia.
  - apply Q2; [exact Hq | discriminate].
Qed.

Lemma seg_refl (a : Args) (s : state) : seg a [] s s.
Proof.
  exists []. simpl. rewrite app_nil_r, Nat.mul_0_r, Nat.add_0_r.
  repeat split; auto.
  - intros [H | H]; congruence.
  - intros _ [H | [_ H]]; congruence.
Qed.

Lemma shape0_permutation {A : Type} (l l' : list A) :
  Permutation l l' -> shape0 l = shape0 l'.
Proof. intros H. unfold shape0. now rewrite (Permutation_length H). Qed.

Lemma seg_trans (a : Args) (ws1 ws2 : list Z) (s1 s2 s3 : state) :
  seg a ws1 s1 s2 -> seg a ws2 s2 s3 -> seg a (ws1 ++ ws2) s1 s3.
Proof.
  intros (n1 & T1 & R1 & D1 & P1 & G1 & K1 & J1 & I1 & B1 & F1 & L1 & C1)
         (n2 & T2 & R2 & D2 & P2 & G2 & K2 & J2 & I2 & B2 & F2 & L2 & C2).
  exists (n1 ++ n2).
  split; [rewrite T2, T1; now rewrite app_assoc |].
  split; [rewrite R2, R1, length_app; lia |].
  split; [eapply Permutation_trans; eauto |].
  rewrite !filter_app, !length_app.
  split; [lia |]. split; [lia |]. split; [lia |].
  split; [intros Hq; specialize (J1 Hq); specialize (J2 Hq); lia |].
  unfold batches in *. rewrite !flat_map_app, map_app.
  split; [now rewrite I1, I2 |].
  split.
  { apply Forall_app. split; [exact B1 |].
    now rewrite <- (shape0_permutation _ _ D1). }
  split; [apply Forall_app; now split |].
  split.
  { intros H. destruct ws2 as [| w ws2].
    - apply L2. left. apply L1. rewrite app_nil_r in H. exact H.
    - apply L2. right. discriminate. }
  intros Hq H. destruct ws2 as [| w ws2].
  - apply C2; [exact Hq |]. left. apply C1; [exact Hq |].
    rewrite app_nil_r in H. exact H.
  - apply C2; [exact Hq |]. destruct H as [H | [H _]].
    + destruct ws1 as [| v ws1].
      * left. apply C1; [exact Hq | now left].
      * destruct (Z_le_gt_dec 1 (d_updates a)) as [Hd | Hd].
        -- right. split; [exact Hd | discriminate].
        -- left. apply C1; [exact Hq | now left].
    + right. split; [exact H | discriminate].
Qed.

Lemma seg_of_batch (a : Args) (i : Z) (s s' : state) :
  0 <= i -> 0 <= batch_size a ->
  batch_rel a i s s' -> seg a [i] s s'.
Proof.
  intros Hi Hb (new & R & D & L & T & S & W & B & P & G & K & J & F & Q).
  exists new. simpl length. rewrite !Nat.mul_1_r.
  split; [exact T |]. split; [rewrite R; lia |]. split; [exact D |].
  split; [exact P |]. split; [exact G |]. split; [exact K |].
  split; [exact J |].
  split.
  { rewrite B. simpl. rewrite app_nil_r.
    generalize (d_count a). intros n. induction n; simpl; congruence. }
  split.
  { rewrite B. apply Forall_forall. intros ib Hin.
    apply repeat_spec in Hin. subst ib. unfold batch_ok. simpl.
    unfold shape0. rewrite (PyFacts.length_slice_window _ _ _ Hi Hb).
    now rewrite (Permutation_length D). }
  split; [exact F |]. split; [intros _; exact L |].
  intros Hq [H | [H _]]; apply Q; auto.
Qed.

Lemma seg_of_chain (a : Args) (ws : list Z) :
  Forall (fun i => 0 <= i) ws -> 0 <= batch_size a ->
  forall s s', chain (batch_rel a) ws s s' -> seg a ws s s'.
Proof.
  intros Hw Hb. induction Hw as [| i ws Hi Hws IH]; intros s s' Hc.
  - simpl in Hc. subst s'. apply seg_refl.
  - destruct Hc as (s1 & H1 & Hc).
    change (i :: ws) with ([i] ++ ws).
    eapply seg_trans; [apply seg_of_batch; eauto | now apply IH].
Qed.

Lemma plot_spec (a : Args) (e : Z) (s : state) :
  plot_frequency a <> 0 ->
  exists s', plot a e s = Ok tt s' /\ seg a [] s s'.
Proof.
  intros Hp. unfold plot, mod_.
  destruct (Z.eqb_spec (plot_frequency a) 0) as [E | _]; [contradiction |].
  run. destruct (_ =? 0).
  - eexists. split; [reflexivity |]. exists [EvPlot e]. simpl.
    rewrite Nat.mul_0_r, Nat.add_0_r. repeat split; auto.
    + repeat constructor.
    + intros [H | H]; congruence.
    + intros _ [H | [_ H]]; congruence.
  - run. exists s. split; [reflexivity | apply seg_refl].
Qed.

Lemma windows_range (a : Args) :
  0 < batch_size a -> 0 <= samples a ->
  range3 0 (samples a) (batch_size a) = inr (windows a).
Proof. intros Hb Hs. now apply PyFacts.range3_windows. Qed.

Lemma windows_nonneg (a : Args) :
  0 < batch_size a -> Forall (fun i => 0 <= i) (windows a).
Proof.
  intros Hb. apply Forall_forall. intros i Hi.
  apply PyFacts.In_count_from in Hi. destruct Hi as (k & _ & ->). nia.
Qed.

Lemma epoch_iteration_spec (a : Args) (lc : loss_class) (e : Z) (s : state) :
  valid_randperm ->
  0 < batch_size a -> 0 <= samples a -> 0 <= latent_size a ->
  plot_frequency a <> 0 ->
  can_report a s ->
  exists s',
    epoch_iteration a lc e s = Ok tt s' /\ can_report a s' /\
    seg a (windows a) s s'.
Proof.
  intros Hv Hb Hs Hl Hp Hr. unfold epoch_iteration.
  rewrite (windows_range a Hb Hs). run.
  destruct (RunFacts.for_each_chain (can_report a) (batch_rel a)
              (batch_iteration a lc e) (windows a)) with (s := s)
    as (s1 & E1 & I1 & C1).
  - intros i t _ Ht.
    destruct (batch_iteration_spec a lc e i t Hv) as (t' & Et & Rt);
      [lia | exact Hl | exact Ht |].
    exists t'. split; [exact Et |]. split; [| exact Rt].
    destruct Rt as (new & _ & _ & L & _). now right.
  - exact Hr.
  - rewrite E1.
    destruct (plot_spec a e s1 Hp) as (s2 & E2 & S2). rewrite E2.
    exists s2. split; [reflexivity |].
    assert (Hseg : seg a (windows a) s s2).
    { rewrite <- (app_nil_r (windows a)).
      eapply seg_trans; [| exact S2].
      apply seg_of_chain; [now apply windows_nonneg | lia | exact C1]. }
    split; [| exact Hseg].
    destruct I1 as [I1 | I1]; [now left | right].
    destruct S2 as (new & _ & _ & _ & _ & _ & _ & _ & _ & _ & _ & L & _).
    apply L. now left.
Qed.

Lemma seg_of_epochs (a : Args) (l : list Z) :
  forall s s',
    chain (fun _ => seg a (windows a)) l s s' ->
    seg a (concat (map (fun _ => windows a) l)) s s'.
Proof.
  induction l as [| e l IH]; intros s s' Hc; simpl in *.
  - subst s'. apply seg_refl.
  - destruct Hc as (s1 & H1 & Hc). eapply seg_trans; eauto.
Qed.

Lemma training_loop_spec (a : Args) (lc : loss_class) (s : state) :
  valid_randperm ->
  0 < batch_size a -> 0 <= samples a -> 0 <= latent_size a ->
  plot_frequency a <> 0 ->
  can_report a s ->
  exists s', training_loop a lc s = Ok tt s' /\ seg a (all_windows a) s s'.
Proof.
  intros Hv Hb Hs Hl Hp Hr. unfold training_loop.
  destruct (RunFacts.for_each_chain (can_report a)
              (fun _ => seg a (windows a))
              (epoch_iteration a lc) (range (epochs a))) with (s := s)
    as (s1 & E1 & _ & C1).
  - intros e t _ Ht. now apply epoch_iteration_spec.
  - exact Hr.
  - exists s1. split; [exact E1 |]. now apply seg_of_epochs.
Qed.


Lemma length_windows (a : Args) :
  length (windows a) =
  Z.to_nat ((samples a + batch_size a - 1) / batch_size a).
Proof. apply PyFacts.length_count_from. Qed.

End Blocks.

End Piece1Facts.

(* ===================================================================== *)
(** ** Piece2: what one batch does to the state *)
(* ===================================================================== *)

Module Piece2Facts.

Import Py Run Torch Piece2 Piece2Props.

Local Open Scope Z_scope.

Ltac run := unfold bind, get, modify, ret, lift, raise, emit; simpl.

Section Blocks.

Context {C : Collaborators}.

Lemma torch_randn_spec (rows cols : Z) (s : state) :
  0 <= rows -> 0 <= cols ->
  exists s' t,
    torch_randn rows cols s = Ok (tensors s, t) s' /\
    shape0 t = rows /\
    trace s' = trace s ++ [EvLatent (tensors s) (Drawn (rng s)) rows cols] /\
    tensors s' = S (tensors s) /\
    input_activation s' = input_activation s /\
    generator_p s' = generator_p s /\
    discriminator_p s' = discriminator_p s /\
    optimizer_G s' = optimizer_G s /\
    optimizer_D s' = optimizer_D s.
Proof.
  intros Hr Hc.
  destruct (TorchFacts.randn_rows normal (rng s) rows cols Hr Hc)
    as (tn & En & Sn).
  unfold torch_randn. run. rewrite En. simpl.
  eexists. exists tn. split; [reflexivity |]. simpl. repeat split; auto.
Qed.

(** A call of the generator's input activation returns a new tensor with the
    rows asked for, and logs where it came from. *)
Lemma call_input_activation_spec (rows cols : Z) (s : state) :
  0 <= rows -> 0 <= cols ->
  known_activation (input_activation s) ->
  exists s' t src,
    call_input_activation rows cols s = Ok (tensors s, t) s' /\
    shape0 t = rows /\
    trace s' = trace s ++ [EvLatent (tensors s) src rows cols] /\
    tensors s' = S (tensors s) /\
    input_activation s' = input_activation s /\
    generator_p s' = generator_p s /\
    discriminator_p s' = discriminator_p s /\
    optimizer_G s' = optimizer_G s /\
    optimizer_D s' = optimizer_D s /\
    (forall v, input_activation s = SetActivation "uniform" v ->
               src = Filled v /\ rng s' = rng s).
Proof.
  intros Hr Hc Hk. unfold call_input_activation. run.
  destruct (torch_randn_spec rows cols s Hr Hc)
    as (sr & tn & Er & Sr & Tr & Nr & Ar & Gr & Dr & OGr & ODr).
  destruct (input_activation s) as [| mode value] eqn:Ea.
  - exists sr, tn, (Drawn (rng s)). rewrite Er.
    repeat split; auto; discriminate.
  - destruct (String.eqb_spec mode "random") as [Em | Em].
    + exists sr, tn, (Drawn (rng s)). rewrite Er.
      subst mode. repeat split; auto; congruence.
    + destruct (String.eqb_spec mode "uniform") as [Eu | Eu].
      * destruct (TorchFacts.full_rows rows cols value Hr Hc)
          as (tf & Ef & Sf).
        unfold torch_full. run. rewrite Ef. simpl.
        eexists. exists tf, (Filled value).
        split; [reflexivity |]. simpl.
        repeat split; auto; congruence.
      * simpl in Hk. destruct Hk; contradiction.
Qed.

Lemma save_block_spec (e i : Z) (ld lg : lossval) (s : state) :
  known_activation (input_activation s) ->
  exists s' new,
    save_block e i ld lg s = Ok tt s' /\
    trace s' = trace s ++ new /\
    steps new = [] /\
    input_activation s' = input_activation s.
Proof.
  intros Hk. unfold save_block, mod_.
  assert (Hsi : save_interval e <> 0).
  { unfold save_interval.
    repeat match goal with
           | |- context [if ?b then _ else _] => destruct b
           end; lia. }
  destruct (Z.eqb_spec (save_interval e) 0) as [E0 | _]; [contradiction |].
  unfold bind at 1, lift, ret. destruct (_ =? 0).
  - unfold bind at 1.
    destruct (torch_randn_spec 100 latent_dim s)
      as (s1 & t1 & E1 & _ & T1 & _ & A1 & _);
      [lia | unfold latent_dim; lia |].
    rewrite E1. unfold bind at 1, emit, modify. unfold bind at 1.
    destruct (call_input_activation_spec batch_size latent_dim
                (log (EvLog e i ld lg) s1))
      as (s3 & t3 & src & E3 & _ & T3 & _ & A3 & _).
    { unfold batch_size. lia. }
    { unfold latent_dim. lia. }
    { simpl. now rewrite A1. }
    rewrite E3. eexists. eexists. split; [reflexivity |]. simpl.
    split; [| split].
    + rewrite T3. simpl. rewrite T1. rewrite <- !app_assoc. reflexivity.
    + reflexivity.
    + rewrite A3. simpl. exact A1.
  - exists s, []. rewrite app_nil_r. auto.
Qed.

(** The reporting block returns and takes no optimizer step. *)
Lemma report_spec (e i : Z) (ld lg : lossval) (s : state) :
  known_activation (input_activation s) ->
  exists s' new,
    report e i ld lg s = Ok tt s' /\
    trace s' = trace s ++ new /\
    steps new = [] /\
    input_activation s' = input_activation s.
Proof.
  intros Hk. unfold report, print_line, bind.
  destruct (i mod 200 =? 0).
  - run.
    destruct (save_block_spec e i ld lg (log (EvPrint e i ld lg) s) Hk)
      as (s' & new & E & T & S & A).
    rewrite E. exists s', (EvPrint e i ld lg :: new).
    split; [reflexivity |]. split; [| split].
    + rewrite T. simpl. rewrite <- app_assoc. reflexivity.
    + exact S.
    + exact A.
  - run. now apply save_block_spec.
Qed.

Lemma criterion_same (input target : list Q) :
  length input = length target ->
  criterion input target = inr (bce input target).
Proof. intros H. unfold criterion. now rewrite H, Nat.eqb_refl. Qed.

Lemma criterion_mismatch (input target : list Q) :
  length input <> length target ->
  criterion input target = inl ValueError.
Proof.
  intros H. unfold criterion.
  destruct (Nat.eqb_spec (length input) (length target)); [contradiction |].
  reflexivity.
Qed.

(** A batch of exactly [batch_size] images: one discriminator step, then one
    generator step, both computed from the same latent tensor. *)
Lemma train_batch_full (e i : Z) (imgs : tensor) (s : state) :
  row_preserving ->
  known_activation (input_activation s) ->
  shape0 imgs = batch_size ->
  exists s' new src,
    train_batch e (i, imgs) s = Ok tt s' /\
    trace s' =
      trace s ++ EvLatent (tensors s) src batch_size latent_dim :: new /\
    steps new = [(Dis, tensors s); (Gen, tensors s)] /\
    input_activation s' = input_activation s /\
    (forall v, input_activation s = SetActivation "uniform" v ->
               src = Filled v) /\
    (exists s1 z,
        call_input_activation batch_size latent_dim s
          = Ok (tensors s, z) s1 /\
        trace s1
          = trace s ++ [EvLatent (tensors s) src batch_size latent_dim]).
Proof.
  intros [Hg Hd] Hk Hn. unfold train_batch. cbn [fst snd].
  unfold bind at 1, get. unfold bind at 1.
  rewrite criterion_same by (now rewrite Hd, repeat_length).
  cbn [lift ret]. unfold bind at 1.
  destruct (call_input_activation_spec batch_size latent_dim s)
    as (s1 & z & src & E1 & Z1 & T1 & _ & A1 & _ & _ & _ & _ & U1);
    [unfold batch_size; lia | unfold latent_dim; lia | exact Hk |].
  rewrite E1. cbn [fst snd]. unfold bind at 1.
  assert (Hz : length z = length imgs).
  { unfold shape0 in *. lia. }
  rewrite criterion_same by (now rewrite Hd, Hg, repeat_length).
  cbn [lift ret]. unfold bind at 1, modify. unfold bind at 1, emit, modify.
  unfold bind at 1.
  rewrite criterion_same by (now rewrite Hd, Hg, repeat_length).
  cbn [lift ret]. unfold bind at 1, modify. unfold bind at 1, modify.
  match goal with
  | |- context [report e i ?ld ?lg ?s2] =>
      destruct (report_spec e i ld lg s2) as (s3 & new & E3 & T3 & S3 & A3)
  end.
  { simpl. now rewrite A1. }
  rewrite E3. eexists. eexists. exists src. split; [reflexivity |].
  split; [| split; [| split; [| split]]].
  - rewrite T3. simpl. rewrite T1. rewrite <- !app_assoc. reflexivity.
  - unfold steps in *. simpl. rewrite S3. reflexivity.
  - rewrite A3. simpl. exact A1.
  - intros v Hv. now destruct (U1 v Hv).
  - exists s1, z. split; [reflexivity | exact T1].
Qed.

(** A batch of another size: the latent batch still has [batch_size] rows,
    and the loss of the fake half is refused before any optimizer step. *)
Lemma train_batch_short (e i : Z) (imgs : tensor) (s : state) :
  row_preserving ->
  known_activation (input_activation s) ->
  shape0 imgs <> batch_size ->
  exists s' z src,
    call_input_activation batch_size latent_dim s = Ok (tensors s, z) s' /\
    shape0 z = batch_size /\
    shape0 (discriminator (discriminator_p s)
              (generator (generator_p s) z)) = batch_size /\
    train_batch e (i, imgs) s = Raise ValueError s' /\
    trace s' = trace s ++ [EvLatent (tensors s) src batch_size latent_dim].
Proof.
  intros [Hg Hd] Hk Hn. unfold train_batch. cbn [fst snd].
  unfold bind at 1, get. unfold bind at 1.
  rewrite criterion_same by (now rewrite Hd, repeat_length).
  cbn [lift ret]. unfold bind at 1.
  destruct (call_input_activation_spec batch_size latent_dim s)
    as (s1 & z & src & E1 & Z1 & T1 & _);
    [unfold batch_size; lia | unfold latent_dim; lia | exact Hk |].
  rewrite E1. cbn [fst snd]. unfold bind at 1.
  rewrite criterion_mismatch.
  - exists s1, z, src. repeat split; auto.
    unfold shape0 in *. now rewrite Hd, Hg.
  - rewrite Hd, Hg, repeat_length. unfold shape0 in *. lia.
Qed.

End Blocks.

End Piece2Facts.

(* ===================================================================== *)
(** ** The toy collaborators meet the assumptions made on collaborators *)
(* ===================================================================== *)

Module ToyFacts.

Import Py Run Torch.

Lemma toy_perm_valid (l : lossval) :
  @Piece1Props.valid_randperm (Toy.piece1 l).
Proof.
  intros k n. simpl. unfold Toy.toy_perm.
  destruct (Nat.eqb k 4); [| apply Permutation_refl].
  apply Permutation_sym, Permutation_rev.
Qed.

Lemma toy_rows1 (l : lossval) : @Piece1Props.row_preserving (Toy.piece1 l).
Proof.
  split; intros p x; simpl; [reflexivity |].
  unfold Toy.row_sums. apply length_map.
Qed.

Lemma toy_rows2 (l : lossval) (loader : list tensor) :
  @Piece2Props.row_preserving (Toy.piece2 l loader).
Proof.
  split; intros p x; simpl; [reflexivity |].
  unfold Toy.row_sums. apply length_map.
Qed.

End ToyFacts.

(* ===================================================================== *)
(** ** The properties of the training loops *)
(* ===================================================================== *)

Import Py Run Torch.

Local Open Scope Z_scope.

(** *** Top-k filtering of the generator's loss input *)

Lemma topk_active_spec (a : Piece1.Args) (e : Z) :
  Piece1.topk_active a e = true <->
  Piece1.topk a = true /\ Piece1.epochs a <= 2 * e.
Proof.
  unfold Piece1.topk_active. rewrite andb_true_iff, Qle_bool_iff.
  unfold Qle, Qmult, inject_Z. cbn [Qnum Qden].
  rewrite Pos.mul_1_r. split; intros [H1 H2]; split; auto; lia.
Qed.

(** C3.  The generator update draws a latent batch of [batch_size] rows, so
    the discriminator scores [batch_size] fake samples.  When [--topk] is set
    and [epoch >= 0.5 * epochs], the generator loss is computed over exactly
    [batch_size // 2] of these scores, and none of the scores left out
    exceeds one that is kept; in every earlier epoch (and without [--topk])
    it is computed over all of them. *)
Theorem topk_generator_loss_input {C : Piece1.Collaborators}
  (a : Piece1.Args) (lc : Piece1.loss_class) (e i : Z) (s : Piece1.state) :
  Piece1Props.row_preserving ->
  0 <= Piece1.batch_size a -> 0 <= Piece1.latent_size a ->
  exists s' noise scores,
    randn Piece1.normal (Piece1.rng s) (Piece1.batch_size a)
          (Piece1.latent_size a) = inr noise /\
    let prediction_fake :=
      Piece1.discriminator (Piece1.discriminator_p s)
        (Piece1.generator (Piece1.generator_p s) noise) in
    let k := Piece1.batch_size a / 2 in
    Piece1.generator_update a lc e i s
      = Ok (Piece1.loss_generator lc scores) s' /\
    Piece1.trace s' =
      Piece1.trace s ++
      [Piece1.EvRandn (Piece1.rng s) (Piece1.batch_size a)
         (Piece1.latent_size a);
       Piece1.EvStepG e i (Piece1.rng s) scores
         (Piece1.loss_generator lc scores)] /\
    shape0 prediction_fake = Piece1.batch_size a /\
    (Piece1.topk a = true /\ Piece1.epochs a <= 2 * e ->
     shape0 scores = k /\
     Permutation (scores ++ TopK.rest prediction_fake k) prediction_fake /\
     Forall (fun x => Forall (fun y => (y <= x)%Q)
                             (TopK.rest prediction_fake k)) scores) /\
    (Piece1.topk a = false \/ 2 * e < Piece1.epochs a ->
     scores = prediction_fake).
Proof.
  intros [Hg Hd] Hb Hl.
  destruct (Piece1Facts.generator_update_spec a lc e i s Hb Hl)
    as (s' & noise & scores & E & En & Es & _ & _ & _ & _ & T).
  exists s', noise, scores. split; [exact En |]. cbv zeta.
  split; [exact E |]. split; [exact T |].
  destruct (TorchFacts.randn_rows Piece1.normal (Piece1.rng s) _ _ Hb Hl)
    as (t & Et & St).
  assert (t = noise) by congruence. subst t.
  set (pf := Piece1.discriminator _ _) in *.
  assert (Hpf : shape0 pf = Piece1.batch_size a).
  { unfold pf, shape0 in *. now rewrite Hd, Hg. }
  split; [exact Hpf |].
  unfold Piece1.generator_loss_input in Es. split.
  - intros Hact. apply topk_active_spec in Hact. rewrite Hact in Es.
    rewrite Hpf in Es.
    destruct (TopKFacts.topk_spec pf (Piece1.batch_size a / 2))
      as (top & Et' & Ht).
    { rewrite <- Hpf. apply TopKFacts.half_in_range. }
    assert (top = scores) by congruence. subst top. exact Ht.
  - intros Hin.
    destruct (Piece1.topk_active a e) eqn:Ea; [| congruence].
    apply topk_active_spec in Ea. destruct Ea as [E1 E2].
    destruct Hin as [Hin | Hin]; [congruence | lia].
Qed.

Lemma topk_generator_loss_input_witness :
  exists s' scores,
    @Piece1.generator_update (Toy.piece1 (Finite 0))
      (Toy.args "hinge" 0%Q 10 8 4 1 true) Piece1.HingeGANLoss 5 0
      (@Piece1.boot (Toy.piece1 (Finite 0)))
    = Ok (Finite 0) s' /\
    In (Piece1.EvStepG 5 0 0 scores (Finite 0)) (Piece1.trace s') /\
    shape0 scores = 2.
Proof.
  destruct (@topk_generator_loss_input (Toy.piece1 (Finite 0))
              (Toy.args "hinge" 0%Q 10 8 4 1 true) Piece1.HingeGANLoss 5 0
              (@Piece1.boot (Toy.piece1 (Finite 0)))
              (ToyFacts.toy_rows1 (Finite 0)))
    as (s' & noise & scores & _ & E & T & _ & Hact & _);
    [simpl; lia | simpl; lia |].
  exists s', scores. split; [exact E |]. split.
  - rewrite T. simpl. right. left. reflexivity.
  - apply Hact. simpl. split; [reflexivity | lia].
Defined.

(** *** Weight clipping *)

Module ClipFacts.

Import Py Run Torch Piece1 Piece1Props.

Local Open Scope Z_scope.

Lemma bound_order (c : Q) : (0 < c)%Q -> (- c <= c)%Q.
Proof.
  intros Hc. apply Qle_trans with 0%Q; [| now apply Qlt_le_weak].
  rewrite <- (Qopp_involutive 0). apply Qopp_le_compat. simpl.
  now apply Qlt_le_weak.
Qed.

(** Below the interval the clamp gives the lower bound. *)
Lemma clamp_below (lo hi x : Q) :
  (lo <= hi)%Q -> (x <= lo)%Q -> (clamp lo hi x == lo)%Q.
Proof.
  intros H Hx. unfold clamp.
  rewrite (Q.max_r _ _ Hx). now apply Q.min_l.
Qed.

(** Above the interval the clamp gives the upper bound. *)
Lemma clamp_above (lo hi x : Q) :
  (lo <= hi)%Q -> (hi <= x)%Q -> (clamp lo hi x == hi)%Q.
Proof.
  intros H Hx. unfold clamp.
  assert (Hlo : (lo <= x)%Q) by (eapply Qle_trans; eauto).
  rewrite (Q.max_l _ _ Hlo). now apply Q.min_r.
Qed.

Section Blocks.

Context {C : Collaborators}.

(** A discriminator update with clipping on ends in the element-wise clamp
    of the parameters its optimizer step produced. *)
Lemma discriminator_update_projects (a : Args) (lc : loss_class) (e i : Z)
  (s : state) :
  0 <= batch_size a -> 0 <= latent_size a ->
  Qgtb (clip_weights a) 0 = true ->
  exists s' l noise,
    discriminator_update a lc e i s = Ok tt s' /\
    randn normal (rng s) (batch_size a) (latent_size a) = inr noise /\
    trace s' = trace s ++
               [EvRandn (rng s) (batch_size a) (latent_size a);
                EvStepD e i (slice (data s) i (i + batch_size a)) (rng s) l;
                EvClamp (clip_weights a) false (discriminator_p s')] /\
    discriminator_p s' =
      map (map (clamp (- clip_weights a) (clip_weights a)))
          (stepped a lc i s noise) /\
    grad_enabled s' = grad_enabled s.
Proof.
  intros Hb Hl Hq. unfold discriminator_update, torch_randn, no_grad.
  destruct (TorchFacts.randn_rows normal (rng s) _ _ Hb Hl) as [t [Et _]].
  Piece1Facts.run. rewrite Et. simpl.
  unfold clip. rewrite Hq. unfold no_grad. Piece1Facts.run.
  eexists. eexists. exists t. split; [reflexivity |]. simpl.
  split; [reflexivity |]. split; [| split; reflexivity].
  rewrite <- !app_assoc. reflexivity.
Qed.

End Blocks.

End ClipFacts.

(** C4.  With [clip_weights = c > 0], the clamp is the projection onto
    [-c, c]: it leaves the elements of the interval as they are and sends
    the others to the nearer bound.  Every discriminator update ends with
    it: the discriminator's parameters after the update are, element by
    element, the clamp of the parameters [discriminator_optimizer.step()]
    produced, so every element lies in [-c, c]; the clamp runs under
    [torch.no_grad()] and the gradient mode is afterwards what it was.  The
    generator update does not touch the discriminator parameters; hence the
    bound holds wherever the loop stands after its first discriminator
    update: every clamp recorded during training satisfies it, and so does
    the state training ends in. *)
Theorem weight_clipping_invariant {C : Piece1.Collaborators}
  (a : Piece1.Args) (lc : Piece1.loss_class) :
  (0 < Piece1.clip_weights a)%Q ->
  0 <= Piece1.batch_size a -> 0 <= Piece1.latent_size a ->
  let c := Piece1.clip_weights a in
  (forall x,
      ((- c <= x)%Q -> (x <= c)%Q -> (clamp (- c) c x == x)%Q) /\
      ((x <= - c)%Q -> (clamp (- c) c x == - c)%Q) /\
      ((c <= x)%Q -> (clamp (- c) c x == c)%Q)) /\
  (forall e i s,
      exists s' l noise,
        Piece1.discriminator_update a lc e i s = Ok tt s' /\
        randn Piece1.normal (Piece1.rng s) (Piece1.batch_size a)
              (Piece1.latent_size a) = inr noise /\
        Piece1.trace s' =
          Piece1.trace s ++
          [Piece1.EvRandn (Piece1.rng s) (Piece1.batch_size a)
             (Piece1.latent_size a);
           Piece1.EvStepD e i
             (slice (Piece1.data s) i (i + Piece1.batch_size a))
             (Piece1.rng s) l;
           Piece1.EvClamp c false (Piece1.discriminator_p s')] /\
        Piece1.discriminator_p s' =
          map (map (clamp (- c) c)) (Piece1Props.stepped a lc i s noise) /\
        Piece1.grad_enabled s' = Piece1.grad_enabled s /\
        Piece1Props.clipped c (Piece1.discriminator_p s')) /\
  (forall e i s,
      exists s' l,
        Piece1.generator_update a lc e i s = Ok l s' /\
        Piece1.discriminator_p s' = Piece1.discriminator_p s) /\
  (forall s,
      Piece1Props.valid_randperm ->
      0 < Piece1.batch_size a -> 0 <= Piece1.samples a ->
      Piece1.plot_frequency a <> 0 -> 1 <= Piece1.d_updates a ->
      exists s' new,
        Piece1.training_loop a lc s = Ok tt s' /\
        Piece1.trace s' = Piece1.trace s ++ new /\
        Forall Piece1Props.clamp_ok new /\
        length (filter Piece1.is_clamp new)
          = length (filter Piece1.is_step_d new) /\
        (Piece1Props.all_windows a <> [] ->
         Piece1Props.clipped c (Piece1.discriminator_p s'))).
Proof.
  intros Hc Hb Hl c.
  assert (Hq : Qgtb (Piece1.clip_weights a) 0 = true)
    by now apply TorchFacts.Qgtb_lt.
  pose proof (ClipFacts.bound_order c Hc) as Ho.
  split; [| split; [| split]].
  - intros x. split; [apply TorchFacts.clamp_inside |].
    split; [now apply ClipFacts.clamp_below | now apply ClipFacts.clamp_above].
  - intros e i s.
    destruct (ClipFacts.discriminator_update_projects a lc e i s Hb Hl Hq)
      as (s' & l & noise & E & En & T & P & G).
    exists s', l, noise. repeat (split; [assumption |]).
    rewrite P. apply Forall_map, Forall_forall. intros t _.
    apply Forall_map, Forall_forall. intros x _.
    now apply TorchFacts.clamp_bounds.
  - intros e i s.
    destruct (Piece1Facts.generator_update_spec a lc e i s Hb Hl)
      as (s' & noise & scores & E & _ & _ & _ & _ & K & _).
    eauto.
  - intros s Hv Hb' Hs Hp Hd.
    destruct (Piece1Facts.training_loop_spec a lc s Hv Hb' Hs Hl Hp)
      as (s' & E & new & T & _ & _ & _ & _ & N & J & _ & _ & F & _ & K).
    { now left. }
    exists s', new. split; [exact E |]. split; [exact T |].
    split; [exact F |]. split; [rewrite N; exact (J Hq) |].
    intros Hw. apply K; [exact Hq |]. right. now split.
Qed.

(** On the toy networks after the set-up, the discriminator holds
    [[5, -5]]; the step makes it [[6, -4]], and the clamp to [-5, 5] brings
    the first element back to the bound and leaves the second. *)
Lemma weight_clipping_invariant_witness :
  let a := Toy.args "wasserstein" 5%Q 1 4 2 1 false in
  exists s' l,
    @Piece1.discriminator_update (Toy.piece1 (Finite 0)) a
      Piece1.WassersteinGANLoss 0 0 (Toy.ready (Finite 0) a)
    = Ok tt s' /\
    In (Piece1.EvStepD 0 0 [[0%Q]; [1%Q]] 1%nat l) (Piece1.trace s') /\
    In (Piece1.EvClamp 5%Q false [[5%Q; (-4)%Q]]) (Piece1.trace s') /\
    Piece1.discriminator_p s' = [[5%Q; (-4)%Q]] /\
    Piece1Props.clipped 5%Q (Piece1.discriminator_p s').
Proof.
  intros a.
  destruct (@weight_clipping_invariant (Toy.piece1 (Finite 0)) a
              Piece1.WassersteinGANLoss)
    as (_ & H & _); [reflexivity | simpl; lia | simpl; lia |].
  destruct (H 0 0 (Toy.ready (Finite 0) a))
    as (s' & l & noise & E & En & T & P & _ & K).
  assert (Hp : Piece1.discriminator_p s' = [[5%Q; (-4)%Q]]).
  { rewrite P. vm_compute in En. injection En as <-. reflexivity. }
  exists s', l. split; [exact E |]. split; [| split; [| split]].
  - rewrite T. apply in_or_app. right. right. left. reflexivity.
  - rewrite T, Hp. apply in_or_app. right. right. right. left. reflexivity.
  - exact Hp.
  - exact K.
Defined.

(** *** Command line: learning rate, loss family, clipping *)

Lemma member_In (x : string) (l : list string) :
  Piece1.member x l = true <-> In x l.
Proof.
  unfold Piece1.member. rewrite existsb_exists. split.
  - intros (y & Hy & E). apply String.eqb_eq in E. now subst.
  - intros H. exists x. split; [exact H | apply String.eqb_refl].
Qed.

(** C8.  Whatever [--lr] the caller passes, the namespace the script goes
    on with has [lr = 0.00004], and both RMSprop optimizers are constructed
    with that rate. *)
Theorem learning_rate_overridden {C : Piece1.Collaborators}
  (c : Piece1.Cli) (a : Piece1.Args) (s : Piece1.state) :
  Piece1.parse_args c = inr a ->
  0 <= Piece1.samples a -> 0 <= Piece1.latent_size a ->
  Piece1.lr (Piece1.override a) = 0.00004%Q /\
  exists s' lc,
    Piece1.setup (Piece1.override a) s = Ok lc s' /\
    Piece1.generator_optimizer s'
      = Piece1.RMSprop (Piece1.generator_p s') 0.00004%Q /\
    Piece1.discriminator_optimizer s'
      = Piece1.RMSprop (Piece1.discriminator_p s') 0.00004%Q /\
    filter (fun e => match e with
                     | Piece1.EvOptimizer _ _ => true
                     | _ => false
                     end) (Piece1.trace s')
    = filter (fun e => match e with
                       | Piece1.EvOptimizer _ _ => true
                       | _ => false
                       end) (Piece1.trace s)
      ++ [Piece1.EvOptimizer Gen 0.00004%Q;
          Piece1.EvOptimizer Dis 0.00004%Q].
Proof.
  intros _ Hs Hl. split; [reflexivity |].
  unfold Piece1.setup, Piece1.torch_randn.
  destruct (TorchFacts.randn_rows Piece1.normal (Piece1.rng s)
              (Piece1.samples a / 10) (Piece1.latent_size a))
    as (t & Et & _); [apply Z.div_pos; lia | exact Hl |].
  Piece1Facts.run. rewrite Et. simpl.
  eexists. eexists. split; [reflexivity |]. simpl.
  split; [reflexivity |]. split; [reflexivity |].
  rewrite <- !app_assoc, !filter_app. simpl. reflexivity.
Qed.

Lemma learning_rate_overridden_witness :
  exists s' lc,
    @Piece1.setup (Toy.piece1 (Finite 0))
      (Toy.args "hinge" 0%Q 1 4 2 1 false)
      (@Piece1.boot (Toy.piece1 (Finite 0))) = Ok lc s' /\
    Piece1.opt_lr (Piece1.generator_optimizer s') = 0.00004%Q /\
    Piece1.opt_lr (Piece1.discriminator_optimizer s') = 0.00004%Q.
Proof.
  destruct (@learning_rate_overridden (Toy.piece1 (Finite 0))
              (Toy.cli "hinge" 0%Q 1 4 2 1)
              (Toy.parsed "hinge" 0%Q 1 4 2 1 false)
              (@Piece1.boot (Toy.piece1 (Finite 0))))
    as (_ & s' & lc & E & G & D); [| simpl; lia | simpl; lia |].
  - vm_compute. reflexivity.
  - exists s', lc. split; [exact E |].
    destruct D as [D _]. rewrite G, D. split; reflexivity.
Defined.

Lemma parsed_loss_known (c : Piece1.Cli) (a : Piece1.Args) :
  Piece1.parse_args c = inr a -> In (Piece1.loss a) Piece1.loss_choices.
Proof.
  unfold Piece1.parse_args.
  destruct (Piece1.choice_ok (Piece1.cli_device c) Piece1.device_choices);
    [| discriminate].
  destruct (Piece1.choice_ok (Piece1.cli_loss c) Piece1.loss_choices) eqn:E;
    [| discriminate].
  cbn [negb]. intros H. injection H as <-. cbn [Piece1.loss].
  destruct (Piece1.cli_loss c) as [l |];
    cbn [Piece1.or_default Piece1.choice_ok] in *.
  - now apply member_In.
  - left. reflexivity.
Qed.

Lemma else_branch_is_least_squares (name : string) :
  In name Piece1.loss_choices ->
  Piece1.select_loss name = Piece1.LSGANLoss -> name = "least-squares"%string.
Proof.
  intros H.
  repeat (destruct H as [<- | H]; [vm_compute; congruence |]).
  destruct H.
Qed.

(** C6.  A [--loss] value outside the six families makes [parse_args] exit:
    the script stops with nothing drawn, allocated or stepped.  Conversely,
    whenever parsing succeeds the loss name is one of the six, so the final
    [else] of the dispatch chain is taken by "least-squares" only. *)
Theorem unknown_loss_rejected {C : Piece1.Collaborators}
  (c : Piece1.Cli) (name : string) :
  Piece1.cli_loss c = Some name ->
  ~ In name Piece1.loss_choices ->
  Piece1.program c = Raise SystemExit Piece1.boot /\
  Piece1.trace (final (Piece1.program c)) = [] /\
  Piece1.rng (final (Piece1.program c)) = O /\
  (forall c' a,
      Piece1.parse_args c' = inr a ->
      In (Piece1.loss (Piece1.override a)) Piece1.loss_choices /\
      (Piece1.select_loss (Piece1.loss (Piece1.override a))
       = Piece1.LSGANLoss ->
       Piece1.loss (Piece1.override a) = "least-squares"%string)).
Proof.
  intros Hl Hn.
  assert (E : Piece1.program c = Raise SystemExit Piece1.boot).
  { unfold Piece1.program, Piece1.parse_args. rewrite Hl.
    cbn [Piece1.choice_ok].
    destruct (Piece1.member name Piece1.loss_choices) eqn:Em.
    - apply member_In in Em. contradiction.
    - cbn [negb]. destruct (negb _); reflexivity. }
  rewrite E. simpl. repeat split; auto.
  - now apply (parsed_loss_known c').
  - apply else_branch_is_least_squares. now apply (parsed_loss_known c').
Qed.

Lemma unknown_loss_rejected_witness :
  @Piece1.program (Toy.piece1 (Finite 0)) (Toy.cli "bogus" 0%Q 1 4 2 1)
  = Raise SystemExit (@Piece1.boot (Toy.piece1 (Finite 0))).
Proof.
  apply (@unknown_loss_rejected (Toy.piece1 (Finite 0))
           (Toy.cli "bogus" 0%Q 1 4 2 1) "bogus"%string).
  - reflexivity.
  - simpl. intros H.
    repeat (destruct H as [H | H]; [discriminate H |]). exact H.
Defined.

(** C7 as stated fails: with [--loss hinge --clip_weights 0.5] the script
    parses, trains to the end and clamps after its discriminator steps. *)
Lemma clipping_with_hinge_runs :
  let o := @Piece1.program (Toy.piece1 (Finite 0))
             (Toy.cli "hinge" 0.5%Q 1 4 2 1) in
  Piece1.parse_args (Toy.cli "hinge" 0.5%Q 1 4 2 1)
    = inr (Toy.parsed "hinge" 0.5%Q 1 4 2 1 false) /\
  returned o = true /\
  length (filter Piece1.is_step_d (Piece1.trace (final o))) = 2%nat /\
  length (filter Piece1.is_clamp (Piece1.trace (final o))) = 2%nat /\
  length (filter Piece1.is_step_g (Piece1.trace (final o))) = 2%nat.
Proof. vm_compute. repeat split; reflexivity. Qed.

(** C7, amended.  No loss family is excluded from weight clipping: for each
    of the six names and every [--clip_weights w] with [w > 0] the command
    line parses, and every discriminator update of the run clamps the
    discriminator parameters to [-w, w] after its optimizer step. *)
Theorem clipping_applies_to_every_family {C : Piece1.Collaborators}
  (c : Piece1.Cli) (name : string) (w : Q) :
  Piece1.choice_ok (Piece1.cli_device c) Piece1.device_choices = true ->
  Piece1.cli_loss c = Some name ->
  In name Piece1.loss_choices ->
  Piece1.cli_clip_weights c = Some w ->
  (0 < w)%Q ->
  exists a,
    Piece1.parse_args c = inr a /\
    Piece1.loss (Piece1.override a) = name /\
    Piece1.clip_weights (Piece1.override a) = w /\
    forall e i s,
      0 <= Piece1.batch_size a -> 0 <= Piece1.latent_size a ->
      exists s' l,
        Piece1.discriminator_update (Piece1.override a)
          (Piece1.select_loss name) e i s = Ok tt s' /\
        Piece1.trace s' =
          Piece1.trace s ++
          [Piece1.EvRandn (Piece1.rng s) (Piece1.batch_size a)
             (Piece1.latent_size a);
           Piece1.EvStepD e i
             (slice (Piece1.data s) i (i + Piece1.batch_size a))
             (Piece1.rng s) l;
           Piece1.EvClamp w false (Piece1.discriminator_p s')] /\
        Piece1Props.clipped w (Piece1.discriminator_p s').
Proof.
  intros Hd Hl Hn Hw Hpos.
  unfold Piece1.parse_args. rewrite Hd, Hl. cbn [Piece1.choice_ok negb].
  apply member_In in Hn. rewrite Hn. cbn [negb].
  eexists. split; [reflexivity |]. rewrite Hw. simpl.
  split; [reflexivity |]. split; [reflexivity |].
  intros e i s Hb Hlat.
  assert (Hq : Qgtb w 0 = true) by now apply TorchFacts.Qgtb_lt.
  match goal with
  | |- context [Piece1.discriminator_update ?a' ?lc _ _ _] =>
      destruct (Piece1Facts.discriminator_update_spec a' lc e i s Hb Hlat)
        as (s' & l & E & _ & _ & _ & T & K)
  end.
  simpl in T, K. rewrite Hq in T.
  exists s', l. split; [exact E |]. split; [exact T | exact (K Hq)].
Qed.

Lemma clipping_applies_to_every_family_witness :
  exists s' l,
    @Piece1.discriminator_update (Toy.piece1 (Finite 0))
      (Toy.args "hinge" 0.5%Q 1 4 2 1 false) Piece1.HingeGANLoss 0 0
      (@Piece1.boot (Toy.piece1 (Finite 0))) = Ok tt s' /\
    In (Piece1.EvStepD 0 0 [] 0%nat l) (Piece1.trace s') /\
    In (Piece1.EvClamp 0.5%Q false (Piece1.discriminator_p s'))
       (Piece1.trace s').
Proof.
  destruct (@clipping_applies_to_every_family (Toy.piece1 (Finite 0))
              (Toy.cli "hinge" 0.5%Q 1 4 2 1) "hinge"%string 0.5%Q)
    as (a & Ea & _ & _ & H).
  - reflexivity.
  - reflexivity.
  - simpl. right. right. left. reflexivity.
  - reflexivity.
  - reflexivity.
  - assert (Ha : a = Toy.parsed "hinge" 0.5%Q 1 4 2 1 false).
    { vm_compute in Ea. injection Ea as <-. reflexivity. }
    subst a.
    destruct (H 0 0 (@Piece1.boot (Toy.piece1 (Finite 0))))
      as (s' & l & E & T & _); [simpl; lia | simpl; lia |].
    exists s', l. split; [exact E |]. rewrite T. simpl. split.
    + right. left. reflexivity.
    + right. right. left. reflexivity.
Defined.

(** *** Shuffling and batch windows *)

Lemma NoDup_firstn {A : Type} (n : nat) (l : list A) :
  NoDup l -> NoDup (firstn n l).
Proof.
  intros H. rewrite <- (firstn_skipn n l) in H.
  now apply NoDup_app_remove_r in H.
Qed.

Lemma NoDup_skipn {A : Type} (n : nat) (l : list A) :
  NoDup l -> NoDup (skipn n l).
Proof.
  intros H. rewrite <- (firstn_skipn n l) in H.
  now apply NoDup_app_remove_l in H.
Qed.

Lemma NoDup_slice {A : Type} (l : list A) (i j : Z) :
  NoDup l -> NoDup (slice l i j).
Proof.
  intros H. unfold slice. now apply NoDup_firstn, NoDup_skipn.
Qed.

(** C2 as stated fails: one epoch over a pool of four samples in windows of
    two draws two permutations, not one, and the rows [0] and [1] are fed to
    the discriminator in both windows (the rows [2] and [3] in none). *)
Lemma reshuffled_in_every_window :
  let o := @Piece1.program (Toy.piece1 (Finite 0))
             (Toy.cli "standard" 0%Q 1 4 2 1) in
  returned o = true /\
  filter Piece1.is_randperm (Piece1.trace (final o))
    = [Piece1.EvRandperm 1 4; Piece1.EvRandperm 4 4] /\
  Piece1.batches (Piece1.trace (final o))
    = [(0, [[0%Q]; [1%Q]]); (2, [[1%Q]; [0%Q]])].
Proof. vm_compute. repeat split; reflexivity. Qed.

(** C2, amended.  The pool is reshuffled at the start of every batch
    window, so once per window and [len(range(0, samples, batch_size))] times
    per epoch.  The batch of a window is the slice
    [index : index + batch_size] of the pool as that window has just
    permuted it, the same for all its discriminator updates; within one batch
    no row of the pool is taken twice. *)
Theorem reshuffle_per_window {C : Piece1.Collaborators}
  (a : Piece1.Args) (lc : Piece1.loss_class) (e : Z) (s : Piece1.state) :
  Piece1Props.valid_randperm ->
  0 < Piece1.batch_size a -> 0 <= Piece1.samples a ->
  0 <= Piece1.latent_size a -> Piece1.plot_frequency a <> 0 ->
  1 <= Piece1.d_updates a ->
  (forall i t,
      exists t' new,
        Piece1.batch_iteration a lc e i t = Ok tt t' /\
        Piece1.trace t' = Piece1.trace t ++ new /\
        length (filter Piece1.is_randperm new) = 1%nat /\
        Permutation (Piece1.data t') (Piece1.data t) /\
        Piece1.batches new =
          repeat (i, slice (Piece1.data t') i (i + Piece1.batch_size a))
                 (Piece1Props.d_count a) /\
        (NoDup (Piece1.data t) ->
         NoDup (slice (Piece1.data t') i (i + Piece1.batch_size a)))) /\
  exists s' new,
    Piece1.epoch_iteration a lc e s = Ok tt s' /\
    Piece1.trace s' = Piece1.trace s ++ new /\
    range3 0 (Piece1.samples a) (Piece1.batch_size a)
      = inr (Piece1Props.windows a) /\
    length (filter Piece1.is_randperm new)
      = length (Piece1Props.windows a) /\
    Permutation (Piece1.data s') (Piece1.data s).
Proof.
  intros Hv Hb Hs Hl Hp Hd. split.
  - intros i t.
    destruct (Piece1Facts.batch_iteration_spec a lc e i t Hv)
      as (t' & E & new & _ & P & _ & T & _ & _ & B & R & _);
      [lia | exact Hl | now left |].
    exists t', new. repeat split; auto.
    intros Hn. apply NoDup_slice.
    eapply Permutation_NoDup; [apply Permutation_sym; exact P | exact Hn].
  - destruct (Piece1Facts.epoch_iteration_spec a lc e s Hv Hb Hs Hl Hp)
      as (s' & E & _ & new & T & _ & P & R & _); [now left |].
    exists s', new. repeat split; auto.
    now apply Piece1Facts.windows_range.
Qed.

Lemma reshuffle_per_window_witness :
  exists s' new,
    @Piece1.epoch_iteration (Toy.piece1 (Finite 0))
      (Toy.args "standard" 0%Q 1 4 2 1 false) Piece1.GANLoss 0
      (@Piece1.boot (Toy.piece1 (Finite 0))) = Ok tt s' /\
    Piece1.trace s' = new /\
    length (filter Piece1.is_randperm new) = 2%nat.
Proof.
  destruct (@reshuffle_per_window (Toy.piece1 (Finite 0))
              (Toy.args "standard" 0%Q 1 4 2 1 false) Piece1.GANLoss 0
              (@Piece1.boot (Toy.piece1 (Finite 0)))
              (ToyFacts.toy_perm_valid (Finite 0)))
    as (_ & s' & new & E & T & _ & R & _);
    [simpl; lia | simpl; lia | simpl; lia | simpl; lia | simpl; lia |].
  exists s', new. split; [exact E |]. split; [exact T |].
  rewrite R. reflexivity.
Defined.

(** *** The trailing partial window *)

Lemma ceil_div_not_divisible (n b : Z) :
  0 < b -> 0 <= n -> n mod b <> 0 -> (n + b - 1) / b = n / b + 1.
Proof.
  intros Hb Hn Hr. symmetry.
  apply (Z.div_unique_pos _ _ _ (n mod b - 1)).
  - pose proof (Z.mod_pos_bound n b Hb). lia.
  - pose proof (Z.div_mod n b). lia.
Qed.

(** C9.  When [samples] is not a multiple of [batch_size], the last window
    of [range(0, samples, batch_size)] starts at
    [(samples // batch_size) * batch_size]; its batch is included and holds
    the remaining [samples mod batch_size] rows, every other batch holds
    [batch_size] rows, and the epoch takes [samples // batch_size + 1 =
    ceil(samples / batch_size)] generator steps. *)
Theorem trailing_partial_batch {C : Piece1.Collaborators}
  (a : Piece1.Args) (lc : Piece1.loss_class) (e : Z) (s : Piece1.state) :
  Piece1Props.valid_randperm ->
  0 < Piece1.batch_size a -> 0 <= Piece1.samples a ->
  Piece1.samples a mod Piece1.batch_size a <> 0 ->
  shape0 (Piece1.data s) = Piece1.samples a ->
  0 <= Piece1.latent_size a -> Piece1.plot_frequency a <> 0 ->
  1 <= Piece1.d_updates a ->
  let n := Piece1.samples a in
  let b := Piece1.batch_size a in
  let last := n / b * b in
  exists s' new,
    Piece1.epoch_iteration a lc e s = Ok tt s' /\
    Piece1.trace s' = Piece1.trace s ++ new /\
    range3 0 n b = inr (Piece1Props.windows a) /\
    In last (Piece1Props.windows a) /\
    (n + b - 1) / b = n / b + 1 /\
    Z.of_nat (length (filter Piece1.is_step_g new)) = n / b + 1 /\
    (exists t, In (last, t) (Piece1.batches new)) /\
    (forall i t,
        In (i, t) (Piece1.batches new) ->
        (i = last -> shape0 t = n mod b) /\
        (i <> last -> shape0 t = b)) /\
    shape0 (Piece1.data s') = n.
Proof.
  intros Hv Hb Hs Hr Hn Hl Hp Hd n b last.
  destruct (Piece1Facts.epoch_iteration_spec a lc e s Hv Hb Hs Hl Hp)
    as (s' & E & _ & new & T & _ & P & _ & G & _ & _ & I & B & _);
    [now left |].
  pose proof (ceil_div_not_divisible n b Hb Hs Hr) as Hceil.
  pose proof (Z.div_mod n b ltac:(lia)) as Hdm.
  pose proof (Z.mod_pos_bound n b Hb) as Hmb.
  assert (Hq : 0 <= n / b) by (apply Z.div_pos; lia).
  assert (Hlen : length (Piece1Props.windows a) = Z.to_nat (n / b + 1)).
  { rewrite Piece1Facts.length_windows. fold n b. now rewrite Hceil. }
  assert (Hlast : In last (Piece1Props.windows a)).
  { apply PyFacts.In_count_from. exists (Z.to_nat (n / b)).
    fold n b. rewrite Hceil. split; [lia |]. rewrite Z2Nat.id by lia.
    unfold last. lia. }
  exists s', new. split; [exact E |]. split; [exact T |].
  split; [now apply Piece1Facts.windows_range |].
  split; [exact Hlast |]. split; [exact Hceil |].
  split; [rewrite G, Hlen; lia |].
  split.
  { assert (Hin : In last (map fst (Piece1.batches new))).
    { rewrite I. apply in_flat_map. exists last. split; [exact Hlast |].
      unfold Piece1Props.d_count.
      destruct (Z.to_nat (Piece1.d_updates a)) eqn:Ed; [lia |].
      now left. }
    apply in_map_iff in Hin. destruct Hin as ([i t] & Ei & Hin).
    simpl in Ei. subst i. now exists t. }
  split.
  { intros i t Hin.
    assert (Hi : In i (Piece1Props.windows a)).
    { assert (Hm : In i (map fst (Piece1.batches new))).
      { apply in_map_iff. now exists (i, t). }
      rewrite I in Hm. apply in_flat_map in Hm.
      destruct Hm as (j & Hj & Hrep). apply repeat_spec in Hrep.
      now subst. }
    apply PyFacts.In_count_from in Hi. destruct Hi as (k & Hk & Ek).
    fold n b in Hk. rewrite Hceil in Hk.
    rewrite Forall_forall in B. specialize (B (i, t) Hin).
    unfold Piece1Props.batch_ok in B. simpl in B. fold n b in B.
    rewrite Hn in B. fold n in B. fold b in Ek. unfold last.
    assert (Hkq : Z.of_nat k <= n / b) by lia.
    split; intros Hi.
    - rewrite B. lia.
    - assert (Hne : Z.of_nat k <> n / b) by (intros Heq; apply Hi; rewrite Ek, Heq; lia).
      assert (Hmul : Z.of_nat k * b <= (n / b - 1) * b)
        by (apply Z.mul_le_mono_nonneg_r; lia).
      rewrite B. lia. }
  unfold shape0 in *. now rewrite (Permutation_length P).
Qed.

Lemma trailing_partial_batch_witness :
  exists s' new,
    @Piece1.epoch_iteration (Toy.piece1 (Finite 0))
      (Toy.args "standard" 0%Q 1 5 2 1 false) Piece1.GANLoss 0
      (Piece1.set_data [[0%Q]; [1%Q]; [2%Q]; [3%Q]; [4%Q]]
         (@Piece1.boot (Toy.piece1 (Finite 0)))) = Ok tt s' /\
    Piece1.trace s' = new /\
    length (filter Piece1.is_step_g new) = 3%nat /\
    (exists t, In (4, t) (Piece1.batches new) /\ shape0 t = 1).
Proof.
  destruct (@trailing_partial_batch (Toy.piece1 (Finite 0))
              (Toy.args "standard" 0%Q 1 5 2 1 false) Piece1.GANLoss 0
              (Piece1.set_data [[0%Q]; [1%Q]; [2%Q]; [3%Q]; [4%Q]]
                 (@Piece1.boot (Toy.piece1 (Finite 0))))
              (ToyFacts.toy_perm_valid (Finite 0)))
    as (s' & new & E & T & _ & _ & _ & G & (t & Ht) & B & _);
    [simpl; lia | simpl; lia | vm_compute; discriminate | reflexivity
     | simpl; lia | simpl; lia | simpl; lia |].
  exists s', new. split; [exact E |]. split; [exact T |]. split.
  - apply Nat2Z.inj. rewrite G. reflexivity.
  - exists t. split; [exact Ht |].
    destruct (B _ _ Ht) as [B1 _]. now rewrite B1.
Defined.

(** *** Order of the updates and the noise they consume *)

(** C1 as stated fails on piece2: on a full batch of 64 images the
    discriminator step and the generator step are both computed from latent
    tensor number 0, which is not drawn but filled with 0.5. *)
Lemma piece2_steps_share_one_latent :
  let o := @Piece2.train_batch (Toy.piece2 (Finite 0) []) 0
             (0, Toy.images 64) (@Piece2.boot (Toy.piece2 (Finite 0) [])) in
  returned o = true /\
  nth_error (Piece2.trace (final o)) 0
    = Some (Piece2.EvLatent 0 (Piece2.Filled 0.5%Q) 64 100) /\
  Piece2.steps (Piece2.trace (final o)) = [(Dis, 0%nat); (Gen, 0%nat)] /\
  ~ Protocol.alternation 1 (Piece2.steps (Piece2.trace (final o))).
Proof.
  cbv zeta.
  assert (E : Piece2.steps
                (Piece2.trace
                   (final (@Piece2.train_batch (Toy.piece2 (Finite 0) []) 0
                             (0, Toy.images 64)
                             (@Piece2.boot (Toy.piece2 (Finite 0) [])))))
              = [(Dis, 0%nat); (Gen, 0%nat)]) by (vm_compute; reflexivity).
  split; [vm_compute; reflexivity |].
  split; [vm_compute; reflexivity |].
  split; [exact E |].
  rewrite E. intros (ds & g & Est & Hlen & Hnd).
  destruct ds as [| d [| d' ds]]; simpl in Hlen; try discriminate.
  simpl in Est. injection Est as <- <-.
  inversion Hnd as [| x l Hx _]; subst. apply Hx. now left.
Qed.

(** C1, amended.  In piece1, with [d_updates >= 1], every batch iteration
    takes exactly [d_updates] discriminator steps and then one generator
    step, and each of these steps consumes the latent batch of a
    [torch.randn] call of its own, made in that iteration.  In piece2 every
    full batch takes one discriminator step and then one generator step, both
    computed from the same latent tensor, which under the configured
    "uniform" activation is a constant fill. *)
Theorem alternating_updates
  {P1 : Piece1.Collaborators} {P2 : Piece2.Collaborators}
  (a : Piece1.Args) (lc : Piece1.loss_class) (e i : Z) (s : Piece1.state)
  (e2 i2 : Z) (imgs : tensor) (s2 : Piece2.state) :
  Piece1Props.valid_randperm ->
  0 <= Piece1.batch_size a -> 0 <= Piece1.latent_size a ->
  1 <= Piece1.d_updates a ->
  Piece2Props.row_preserving ->
  Piece2Props.known_activation (Piece2.input_activation s2) ->
  shape0 imgs = Piece2.batch_size ->
  (exists s' new,
      Piece1.batch_iteration a lc e i s = Ok tt s' /\
      Piece1.trace s' = Piece1.trace s ++ new /\
      Z.of_nat (Piece1Props.d_count a) = Piece1.d_updates a /\
      Protocol.alternation (Piece1Props.d_count a) (Piece1.steps new) /\
      map snd (Piece1.steps new) = Piece1.randn_draws new /\
      Forall (fun k => (Piece1.rng s <= k < Piece1.rng s')%nat)
             (Piece1.randn_draws new)) /\
  (exists s2' new2 src,
      Piece2.train_batch e2 (i2, imgs) s2 = Ok tt s2' /\
      Piece2.trace s2' =
        Piece2.trace s2
        ++ Piece2.EvLatent (Piece2.tensors s2) src Piece2.batch_size
             Piece2.latent_dim :: new2 /\
      Piece2.steps new2
        = [(Dis, Piece2.tensors s2); (Gen, Piece2.tensors s2)] /\
      (forall v,
          Piece2.input_activation s2 = Piece2.SetActivation "uniform" v ->
          src = Piece2.Filled v)).
Proof.
  intros Hv Hb Hl Hd Hrows Hk Himgs. split.
  - destruct (Piece1Facts.batch_iteration_spec a lc e i s Hv Hb Hl)
      as (s' & E & new & R & _ & _ & T & St & W & _); [now left |].
    exists s', new. split; [exact E |]. split; [exact T |].
    split; [unfold Piece1Props.d_count; lia |].
    split; [| split].
    + exists (seq (S (Piece1.rng s)) (Piece1Props.d_count a)).
      exists (S (Piece1.rng s) + Piece1Props.d_count a)%nat.
      split; [exact St |]. split; [apply length_seq |].
      rewrite <- seq_S. apply seq_NoDup.
    + rewrite St, W, map_app, map_map, seq_S. simpl. now rewrite map_id.
    + rewrite W. apply Forall_forall. intros k Hin.
      apply in_seq in Hin. lia.
  - destruct (Piece2Facts.train_batch_full e2 i2 imgs s2 Hrows Hk Himgs)
      as (s2' & new2 & src & E & T & S & _ & U & _).
    exists s2', new2, src. auto.
Qed.

Lemma alternating_updates_witness :
  exists s' new,
    @Piece1.batch_iteration (Toy.piece1 (Finite 0))
      (Toy.args "standard" 0%Q 1 4 2 3 false) Piece1.GANLoss 0 0
      (Piece1.set_data [[0%Q]; [1%Q]; [2%Q]; [3%Q]]
         (@Piece1.boot (Toy.piece1 (Finite 0)))) = Ok tt s' /\
    Piece1.trace s' = new /\
    Protocol.alternation 3 (Piece1.steps new).
Proof.
  destruct (@alternating_updates (Toy.piece1 (Finite 0))
              (Toy.piece2 (Finite 0) [])
              (Toy.args "standard" 0%Q 1 4 2 3 false) Piece1.GANLoss 0 0
              (Piece1.set_data [[0%Q]; [1%Q]; [2%Q]; [3%Q]]
                 (@Piece1.boot (Toy.piece1 (Finite 0))))
              0 0 (Toy.images 64)
              (@Piece2.boot (Toy.piece2 (Finite 0) []))
              (ToyFacts.toy_perm_valid (Finite 0)))
    as ((s' & new & E & T & _ & A & _) & _).
  - simpl; lia.
  - simpl; lia.
  - simpl; lia.
  - apply ToyFacts.toy_rows2.
  - simpl. right. reflexivity.
  - reflexivity.
  - exists s', new. split; [exact E |]. split; [exact T | exact A].
Defined.

(** *** Non-finite losses *)

Module Piece2Losses.

Import Py Run Torch Piece2 Piece2Props.

Local Open Scope Z_scope.



Section Losses.

Context {C : Collaborators}.







End Losses.

End Piece2Losses.




(** *** Piece2: the latent batch and the trailing batch of the loader *)

(** C10.  The latent batch of a training step always has [batch_size = 64]
    rows, whatever the number of images: every batch, of any size, starts by
    creating the same 64-row latent tensor.  On a batch of fewer than 64
    images the discriminator's predictions on the generated samples have 64
    rows while the label tensors have [imgs.size(0)] rows, so [criterion]
    refuses them: the batch raises before either optimizer steps. *)
Theorem short_batch_shape_mismatch {C : Piece2.Collaborators}
  (s : Piece2.state) :
  Piece2Props.row_preserving ->
  Piece2Props.known_activation (Piece2.input_activation s) ->
  exists s1 z src,
    Piece2.call_input_activation Piece2.batch_size Piece2.latent_dim s
      = Ok (Piece2.tensors s, z) s1 /\
    shape0 z = 64 /\
    Piece2.trace s1
      = Piece2.trace s ++ [Piece2.EvLatent (Piece2.tensors s) src 64 100] /\
    (forall e i imgs,
        exists rest,
          Piece2.trace (final (Piece2.train_batch e (i, imgs) s))
          = Piece2.trace s
            ++ Piece2.EvLatent (Piece2.tensors s) src 64 100 :: rest) /\
    (forall e i imgs,
        shape0 imgs < 64 ->
        let fake := repeat 0%Q (length imgs) in
        let prediction_fake :=
          Piece2.discriminator (Piece2.discriminator_p s)
            (Piece2.generator (Piece2.generator_p s) z) in
        shape0 prediction_fake = 64 /\
        shape0 fake = shape0 imgs /\
        shape0 prediction_fake <> shape0 fake /\
        Piece2.criterion prediction_fake fake = inl ValueError /\
        Piece2.train_batch e (i, imgs) s = Raise ValueError s1 /\
        Piece2.steps (Piece2.trace s1) = Piece2.steps (Piece2.trace s)).
Proof.
  intros Hrows Hk.
  destruct (Piece2Facts.call_input_activation_spec Piece2.batch_size
              Piece2.latent_dim s)
    as (s1 & z & src & Ez & Sz & Tz & _);
    [unfold Piece2.batch_size; lia | unfold Piece2.latent_dim; lia
     | exact Hk |].
  exists s1, z, src. split; [exact Ez |]. split; [exact Sz |].
  split; [exact Tz |]. split.
  - intros e i imgs.
    destruct (Z.eq_dec (shape0 imgs) Piece2.batch_size) as [Hn | Hn].
    + destruct (Piece2Facts.train_batch_full e i imgs s Hrows Hk Hn)
        as (s' & new & src' & E & T & _ & _ & _ & s1' & z' & Ez' & Tz').
      rewrite Ez in Ez'. injection Ez' as <- <-.
      rewrite Tz in Tz'. apply app_inv_head in Tz'.
      injection Tz' as <-. rewrite E. simpl. now exists new.
    + destruct (Piece2Facts.train_batch_short e i imgs s Hrows Hk Hn)
        as (s1' & z' & src' & Ez' & _ & _ & E & T).
      rewrite Ez in Ez'. injection Ez' as <- <-.
      rewrite Tz in T. apply app_inv_head in T.
      injection T as <-. rewrite E. simpl. exists []. exact Tz.
  - intros e i imgs Hn.
    destruct (Piece2Facts.train_batch_short e i imgs s Hrows Hk)
      as (s1' & z' & src' & Ez' & _ & Sp & E & T).
    { unfold Piece2.batch_size. lia. }
    rewrite Ez in Ez'. injection Ez' as <- <-. cbv zeta.
    assert (Hf : shape0 (repeat 0%Q (length imgs)) = shape0 imgs).
    { unfold shape0. now rewrite repeat_length. }
    split; [exact Sp |]. split; [exact Hf |].
    split; [rewrite Sp, Hf; unfold Piece2.batch_size; lia |].
    split.
    { apply Piece2Facts.criterion_mismatch. unfold shape0 in *.
      rewrite repeat_length. unfold Piece2.batch_size in Sp. lia. }
    split; [exact E |].
    rewrite Tz. unfold Piece2.steps. rewrite flat_map_app. simpl.
    now rewrite app_nil_r.
Qed.

Lemma short_batch_shape_mismatch_witness :
  exists s',
    @Piece2.train_batch (Toy.piece2 (Finite 0) []) 0 (937, Toy.images 32)
      (@Piece2.boot (Toy.piece2 (Finite 0) [])) = Raise ValueError s' /\
    Piece2.steps (Piece2.trace s') = [].
Proof.
  destruct (@short_batch_shape_mismatch (Toy.piece2 (Finite 0) [])
              (@Piece2.boot (Toy.piece2 (Finite 0) []))
              (ToyFacts.toy_rows2 (Finite 0) []))
    as (s1 & z & src & _ & _ & _ & _ & H).
  - simpl. right. reflexivity.
  - destruct (H 0 937 (Toy.images 32)) as (_ & _ & _ & _ & E & St);
      [reflexivity |].
    exists s1. split; [exact E | exact St].
Defined.

(* ===================================================================== *)
(** ** Further facts: how the loops raise, and what they leave alone *)
(* ===================================================================== *)

Module RunMore.

Import Py Run.

Lemma bind_ok_inv {S A B : Type} (c : M S A) (k : A -> M S B) (s s' : S)
  (b : B) :
  bind c k s = Ok b s' -> exists a s1, c s = Ok a s1 /\ k a s1 = Ok b s'.
Proof.
  unfold bind. destruct (c s) as [a s1 | e s1]; [| discriminate].
  intros H. now exists a, s1.
Qed.

(** A loop leaves alone what each of its iterations leaves alone. *)
Lemma for_each_preserves {S A X : Type} (f : S -> X) (body : A -> M S unit)
  (l : list A) :
  (forall x s s', In x l -> body x s = Ok tt s' -> f s' = f s) ->
  forall s s', for_each l body s = Ok tt s' -> f s' = f s.
Proof.
  induction l as [| x l IH]; intros Hb s s' H; simpl in H.
  - unfold ret in H. now injection H as <-.
  - apply bind_ok_inv in H. destruct H as ([] & s1 & H1 & H2).
    rewrite (IH (fun y t t' Hy => Hb y t t' (or_intror Hy)) s1 s' H2).
    apply (Hb x); [now left | exact H1].
Qed.

(** The loop raises where its first iteration raises. *)
Lemma for_each_raise_head {S A : Type} (body : A -> M S unit) (x : A)
  (l : list A) (s s' : S) (e : error) :
  body x s = Raise e s' -> for_each (x :: l) body s = Raise e s'.
Proof. intros H. simpl. unfold bind. now rewrite H. Qed.

(** After a prefix that returns, the loop goes on with the rest. *)
Lemma for_each_app_ok {S A : Type} (body : A -> M S unit) (l1 l2 : list A)
  (s s1 : S) :
  for_each l1 body s = Ok tt s1 ->
  for_each (l1 ++ l2) body s = for_each l2 body s1.
Proof.
  revert s. induction l1 as [| x l1 IH]; intros s H; simpl in *.
  - unfold ret in H. now injection H as <-.
  - apply bind_ok_inv in H. destruct H as ([] & s2 & H1 & H2).
    unfold bind. rewrite H1. now apply IH.
Qed.

End RunMore.

Module PyMore.

Import Py.

Local Open Scope Z_scope.

Lemma count_from_snoc (start step : Z) (n : nat) :
  count_from start step (S n) =
  count_from start step n ++ [start + Z.of_nat n * step].
Proof.
  revert start. induction n as [| n IH]; intros start.
  - simpl. f_equal. lia.
  - change (count_from start step (S (S n)))
      with (start :: count_from (start + step) step (S n)).
    rewrite IH. cbn [count_from app]. do 3 f_equal.
    rewrite Nat2Z.inj_succ. lia.
Qed.

Lemma range_cons (n : Z) :
  1 <= n -> exists l, range n = 0 :: l.
Proof.
  intros H. unfold range.
  destruct (Z.to_nat n) as [| k] eqn:E; [lia |]. simpl. eauto.
Qed.

Lemma range_nil (n : Z) : n <= 0 -> range n = [].
Proof.
  intros H. unfold range.
  destruct (Z.to_nat n) as [| k] eqn:E; [reflexivity | lia].
Qed.

(** [range(0, stop, step)] is empty when [stop] lies on the wrong side. *)
Lemma range3_empty (stop step : Z) :
  (step < 0 /\ 0 <= stop) \/ (0 < step /\ stop <= 0) ->
  range3 0 stop step = inr [].
Proof.
  intros H. unfold range3, range_len.
  destruct (Z.eqb_spec step 0) as [E | _]; [lia |].
  destruct (Z.ltb_spec 0 step) as [Hp | Hn].
  - assert (Hq : (stop - 0 + step - 1) / step <= 0).
    { apply Z.lt_succ_r. apply Z.div_lt_upper_bound; lia. }
    rewrite Z.max_l by lia. reflexivity.
  - assert (Hq : (0 - stop - step - 1) / - step <= 0).
    { apply Z.lt_succ_r. apply Z.div_lt_upper_bound; lia. }
    rewrite Z.max_l by lia. reflexivity.
Qed.

Lemma range3_zero_step (start stop : Z) :
  range3 start stop 0 = inl ValueError.
Proof. reflexivity. Qed.

End PyMore.

Module Piece1More.

Import Py Run Torch Piece1 Piece1Props TraceProps.

Local Open Scope Z_scope.

Section Edges.

Context {C : Collaborators}.

(** The set-up with non-negative sizes: one draw for the fixed noise, then
    data, networks and the two optimizers. *)
Lemma setup_runs (a : Args) (s : state) :
  0 <= samples a -> 0 <= latent_size a ->
  exists s1,
    setup a s = Ok (select_loss (loss a)) s1 /\
    main a s = training_loop a (select_loss (loss a)) s1 /\
    rng s1 = S (rng s) /\
    loss_d s1 = loss_d s /\
    grad_enabled s1 = grad_enabled s /\
    data s1 = get_data (samples a) /\
    generator_optimizer s1 = RMSprop (generator_p s1) (lr a) /\
    discriminator_optimizer s1 = RMSprop (discriminator_p s1) (lr a) /\
    trace s1 =
      trace s ++
      [EvRandn (rng s) (samples a / 10) (latent_size a);
       EvOptimizer Gen (lr a); EvOptimizer Dis (lr a)].
Proof.
  intros Hs Hl. unfold main, setup, torch_randn.
  destruct (TorchFacts.randn_rows normal (rng s) (samples a / 10)
              (latent_size a)) as (t & Et & _);
    [apply Z.div_pos; lia | exact Hl |].
  Piece1Facts.run. rewrite Et. simpl.
  eexists. split; [reflexivity |]. split; [reflexivity |]. simpl.
  rewrite <- !app_assoc. repeat split; auto.
Qed.

(** A negative size stops the script at line 80. *)
Lemma setup_negative (a : Args) (s : state) :
  samples a < 0 \/ latent_size a < 0 ->
  main a s = Raise RuntimeError s.
Proof.
  intros H. unfold main, setup, torch_randn, randn.
  assert (E : (samples a / 10 <? 0) || (latent_size a <? 0) = true).
  { apply orb_true_iff. destruct H as [H | H].
    - left. apply Z.ltb_lt. apply Z.div_lt_upper_bound; lia.
    - right. now apply Z.ltb_lt. }
  Piece1Facts.run. rewrite E. reflexivity.
Qed.

Lemma windows_cons (a : Args) :
  0 < batch_size a -> 0 < samples a -> exists l, windows a = 0 :: l.
Proof.
  intros Hb Hs. unfold windows.
  assert (H : 1 <= (samples a + batch_size a - 1) / batch_size a).
  { apply Z.div_le_lower_bound; lia. }
  destruct (Z.to_nat _) as [| k] eqn:E; [lia |]. simpl. eauto.
Qed.

(** With no discriminator update before it, the first progress line finds
    [loss_d] unbound. *)
Lemma batch_iteration_unbound (a : Args) (lc : loss_class) (e i : Z)
  (s : state) :
  valid_randperm ->
  0 <= batch_size a -> 0 <= latent_size a ->
  d_updates a <= 0 -> loss_d s = None ->
  exists s' scores,
    batch_iteration a lc e i s = Raise NameError s' /\
    trace s' =
      trace s ++
      [EvRandperm (rng s) (shape0 (data s));
       EvRandn (S (rng s)) (batch_size a) (latent_size a);
       EvStepG e i (S (rng s)) scores (loss_generator lc scores)].
Proof.
  intros Hv Hb Hl Hd Hn. unfold batch_iteration, bind.
  destruct (Piece1Facts.shuffle_spec s Hv) as (s1 & E1 & R1 & _ & _ & L1 & T1).
  rewrite E1, (PyMore.range_nil _ Hd). simpl. unfold ret.
  destruct (Piece1Facts.generator_update_spec a lc e i s1 Hb Hl)
    as (s2 & noise & scores & E2 & _ & _ & _ & _ & _ & L2 & T2).
  rewrite E2. unfold set_description. Piece1Facts.run.
  rewrite L2, L1, Hn. Piece1Facts.run.
  exists s2, scores. split; [reflexivity |].
  rewrite T2, T1, R1, <- app_assoc. reflexivity.
Qed.

(** Where the first window of the first epoch raises, training raises. *)
Lemma training_raises_at_start (a : Args) (lc : loss_class) (s s' : state)
  (err : error) :
  1 <= epochs a -> 0 < batch_size a -> 0 < samples a ->
  batch_iteration a lc 0 0 s = Raise err s' ->
  training_loop a lc s = Raise err s'.
Proof.
  intros He Hb Hs H. unfold training_loop.
  destruct (PyMore.range_cons _ He) as (l & ->).
  apply RunMore.for_each_raise_head. unfold epoch_iteration.
  rewrite (Piece1Facts.windows_range a Hb) by lia.
  destruct (windows_cons a Hb Hs) as (ws & ->).
  Piece1Facts.run. unfold bind. now rewrite H.
Qed.

End Edges.

End Piece1More.

(** *** Degenerate command lines *)

(** X1.  With [--d_updates 0] (or negative) the script crashes in its very
    first batch window: it shuffles, takes no discriminator step, takes one
    generator step, and the progress line then raises NameError because
    [loss_d] was never bound. *)
Theorem no_discriminator_updates_name_error {C : Piece1.Collaborators}
  (c : Piece1.Cli) (a : Piece1.Args) :
  Piece1Props.valid_randperm ->
  Piece1.parse_args c = inr a ->
  Piece1.d_updates a <= 0 ->
  1 <= Piece1.epochs a -> 0 < Piece1.batch_size a ->
  0 < Piece1.samples a -> 0 <= Piece1.latent_size a ->
  exists s' scores,
    Piece1.program c = Raise NameError s' /\
    Piece1.trace s' =
      [Piece1.EvRandn 0 (Piece1.samples a / 10) (Piece1.latent_size a);
       Piece1.EvOptimizer Gen 0.00004%Q;
       Piece1.EvOptimizer Dis 0.00004%Q;
       Piece1.EvRandperm 1 (shape0 (Piece1.get_data (Piece1.samples a)));
       Piece1.EvRandn 2 (Piece1.batch_size a) (Piece1.latent_size a);
       Piece1.EvStepG 0 0 2 scores
         (Piece1.loss_generator (Piece1.select_loss (Piece1.loss a))
            scores)].
Proof.
  intros Hv Hp Hd He Hb Hs Hl. unfold Piece1.program. rewrite Hp.
  destruct (Piece1More.setup_runs (Piece1.override a) Piece1.boot)
    as (s1 & _ & Em & R1 & L1 & _ & D1 & _ & _ & T1);
    [simpl; lia | exact Hl |].
  rewrite Em.
  destruct (Piece1More.batch_iteration_unbound (Piece1.override a)
              (Piece1.select_loss (Piece1.loss a)) 0 0 s1 Hv)
    as (s' & scores & E & T); [simpl; lia | exact Hl | exact Hd | |].
  { rewrite L1. reflexivity. }
  exists s', scores. split.
  - apply Piece1More.training_raises_at_start; auto.
  - rewrite T, T1, R1, D1. reflexivity.
Qed.

Lemma no_discriminator_updates_name_error_witness :
  exists s',
    @Piece1.program (Toy.piece1 (Finite 0)) (Toy.cli "hinge" 0%Q 3 4 2 0)
    = Raise NameError s' /\
    Piece1.steps (Piece1.trace s') = [(Gen, 2%nat)].
Proof.
  destruct (@no_discriminator_updates_name_error (Toy.piece1 (Finite 0))
              (Toy.cli "hinge" 0%Q 3 4 2 0)
              (Toy.parsed "hinge" 0%Q 3 4 2 0 false)
              (ToyFacts.toy_perm_valid (Finite 0)))
    as (s' & scores & E & T);
    [reflexivity | simpl; lia | simpl; lia | simpl; lia | simpl; lia
     | simpl; lia |].
  exists s'. split; [exact E |]. rewrite T. reflexivity.
Defined.

Module Piece1Epochs.

Import Py Run Torch Piece1 Piece1Props TraceProps.

Local Open Scope Z_scope.

Section Epochs.

Context {C : Collaborators}.

(** What the plotting test does, whenever the frequency is not zero. *)
Lemma plot_effect (a : Args) (e : Z) (s : state) :
  plot_frequency a <> 0 ->
  plot a e s = Ok tt (if plot_due a e then log (EvPlot e) s else s).
Proof.
  intros Hp. unfold plot, plot_due, mod_.
  destruct (Z.eqb_spec (plot_frequency a) 0) as [E | _]; [contradiction |].
  Piece1Facts.run. now destruct (_ =? 0).
Qed.

Lemma plot_zero_frequency (a : Args) (e : Z) (s : state) :
  plot_frequency a = 0 -> plot a e s = Raise ZeroDivisionError s.
Proof. intros Hp. unfold plot, mod_. now rewrite Hp. Qed.

(** The windows of an epoch all run, one batch iteration each, and the
    epoch ends with the plotting test. *)
Lemma epoch_windows_run (a : Args) (lc : loss_class) (e : Z) (s : state) :
  valid_randperm ->
  0 < batch_size a -> 0 <= samples a -> 0 <= latent_size a ->
  can_report a s ->
  exists s1,
    for_each (windows a) (batch_iteration a lc e) s = Ok tt s1 /\
    can_report a s1 /\
    chain (batch_rel a) (windows a) s s1 /\
    epoch_iteration a lc e s = plot a e s1.
Proof.
  intros Hv Hb Hs Hl Hr.
  destruct (RunFacts.for_each_chain (can_report a) (batch_rel a)
              (batch_iteration a lc e) (windows a)) with (s := s)
    as (s1 & E1 & I1 & C1).
  - intros i t _ Ht.
    destruct (Piece1Facts.batch_iteration_spec a lc e i t Hv)
      as (t' & Et & Rt); [lia | exact Hl | exact Ht |].
    exists t'. split; [exact Et |]. split; [| exact Rt].
    destruct Rt as (new & _ & _ & L & _). now right.
  - exact Hr.
  - exists s1. repeat split; auto.
    unfold epoch_iteration. rewrite (Piece1Facts.windows_range a Hb Hs).
    Piece1Facts.run. unfold bind. now rewrite E1.
Qed.

(** An epoch without windows is only the plotting test. *)
Lemma epoch_without_windows (a : Args) (lc : loss_class) (e : Z) (s : state) :
  range3 0 (samples a) (batch_size a) = inr [] ->
  epoch_iteration a lc e s = plot a e s.
Proof. intros H. unfold epoch_iteration. now rewrite H. Qed.

Lemma idle_epochs (a : Args) (lc : loss_class) (l : list Z) :
  plot_frequency a <> 0 ->
  range3 0 (samples a) (batch_size a) = inr [] ->
  forall s,
  exists s',
    for_each l (epoch_iteration a lc) s = Ok tt s' /\
    trace s' = trace s ++ map EvPlot (filter (plot_due a) l) /\
    rng s' = rng s /\
    generator_p s' = generator_p s /\
    discriminator_p s' = discriminator_p s.
Proof.
  intros Hp Hw. induction l as [| e l IH]; intros s.
  - exists s. simpl. rewrite app_nil_r. auto.
  - simpl for_each. unfold bind.
    rewrite (epoch_without_windows a lc e s Hw), (plot_effect a e s Hp).
    simpl filter. destruct (plot_due a e).
    + destruct (IH (log (EvPlot e) s)) as (s' & E & T & R & G & D).
      exists s'. split; [exact E |]. simpl in *.
      rewrite T, <- app_assoc. auto.
    + apply IH.
Qed.

End Epochs.

End Piece1Epochs.

(** X2.  [--batch_size 0] is accepted by the parser and by the set-up; the
    script fails only in the first epoch, when [range] refuses the zero
    step, with ValueError: the fixed noise has been drawn and the optimizers
    built, but no window has been shuffled and no step taken. *)
Theorem zero_batch_size_value_error {C : Piece1.Collaborators}
  (c : Piece1.Cli) (a : Piece1.Args) :
  Piece1.parse_args c = inr a ->
  Piece1.batch_size a = 0 ->
  1 <= Piece1.epochs a -> 0 <= Piece1.samples a ->
  0 <= Piece1.latent_size a ->
  exists s',
    Piece1.program c = Raise ValueError s' /\
    Piece1.rng s' = 1%nat /\
    Piece1.trace s' =
      [Piece1.EvRandn 0 (Piece1.samples a / 10) (Piece1.latent_size a);
       Piece1.EvOptimizer Gen 0.00004%Q;
       Piece1.EvOptimizer Dis 0.00004%Q].
Proof.
  intros Hp Hb He Hs Hl. unfold Piece1.program. rewrite Hp.
  destruct (Piece1More.setup_runs (Piece1.override a) Piece1.boot)
    as (s1 & _ & Em & R1 & _ & _ & _ & _ & _ & T1);
    [exact Hs | exact Hl |].
  rewrite Em. exists s1. split; [| split; [exact R1 | exact T1]].
  unfold Piece1.training_loop.
  destruct (PyMore.range_cons _ He) as (l & El).
  change (Piece1.epochs (Piece1.override a)) with (Piece1.epochs a).
  rewrite El. apply RunMore.for_each_raise_head.
  unfold Piece1.epoch_iteration.
  change (Piece1.batch_size (Piece1.override a)) with (Piece1.batch_size a).
  rewrite Hb. reflexivity.
Qed.

Lemma zero_batch_size_value_error_witness :
  exists s',
    @Piece1.program (Toy.piece1 (Finite 0)) (Toy.cli "hinge" 0%Q 3 4 0 1)
    = Raise ValueError s' /\
    Piece1.steps (Piece1.trace s') = [].
Proof.
  destruct (@zero_batch_size_value_error (Toy.piece1 (Finite 0))
              (Toy.cli "hinge" 0%Q 3 4 0 1)
              (Toy.parsed "hinge" 0%Q 3 4 0 1 false))
    as (s' & E & _ & T);
    [reflexivity | reflexivity | simpl; lia | simpl; lia | simpl; lia |].
  exists s'. split; [exact E |]. rewrite T. reflexivity.
Defined.

(** X3.  A negative [--samples] or [--latent_size], both options within
    the range of a 64-bit integer (beyond it torch fails earlier, while it
    unpacks the size), passes the parser and stops the script at its first
    tensor: [torch.randn] of line 80 raises RuntimeError before the data,
    the networks or the optimizers exist. *)
Theorem negative_size_runtime_error {C : Piece1.Collaborators}
  (c : Piece1.Cli) (a : Piece1.Args) :
  Piece1.parse_args c = inr a ->
  TraceProps.int64 (Piece1.samples a) ->
  TraceProps.int64 (Piece1.latent_size a) ->
  Piece1.samples a < 0 \/ Piece1.latent_size a < 0 ->
  Piece1.program c = Raise RuntimeError Piece1.boot.
Proof.
  intros Hp _ _ H. unfold Piece1.program. rewrite Hp.
  now apply Piece1More.setup_negative.
Qed.

Lemma negative_size_runtime_error_witness :
  @Piece1.program (Toy.piece1 (Finite 0)) (Toy.cli "hinge" 0%Q 3 (-4) 2 1)
  = Raise RuntimeError (@Piece1.boot (Toy.piece1 (Finite 0))).
Proof.
  apply (@negative_size_runtime_error (Toy.piece1 (Finite 0))
           (Toy.cli "hinge" 0%Q 3 (-4) 2 1)
           (Toy.parsed "hinge" 0%Q 3 (-4) 2 1 false)).
  - reflexivity.
  - unfold TraceProps.int64. simpl. lia.
  - unfold TraceProps.int64. simpl. lia.
  - left. simpl. lia.
Defined.

(** X4.  A run without epochs, or whose window range is empty (a negative
    [--batch_size], or no samples), completes without training: it draws
    nothing, takes no optimizer step, leaves both networks as they are, and
    records only the plots that are due. *)
Theorem training_without_windows {C : Piece1.Collaborators}
  (a : Piece1.Args) (lc : Piece1.loss_class) (s : Piece1.state) :
  Piece1.plot_frequency a <> 0 ->
  Piece1.epochs a <= 0 \/
  (Piece1.batch_size a < 0 /\ 0 <= Piece1.samples a) \/
  (0 < Piece1.batch_size a /\ Piece1.samples a <= 0) ->
  exists s',
    Piece1.training_loop a lc s = Ok tt s' /\
    Piece1.trace s' =
      Piece1.trace s
      ++ map Piece1.EvPlot
           (filter (TraceProps.plot_due a) (range (Piece1.epochs a))) /\
    Piece1.rng s' = Piece1.rng s /\
    Piece1.generator_p s' = Piece1.generator_p s /\
    Piece1.discriminator_p s' = Piece1.discriminator_p s.
Proof.
  intros Hp [He | Hw].
  - unfold Piece1.training_loop. rewrite (PyMore.range_nil _ He).
    exists s. simpl. rewrite app_nil_r. auto.
  - apply Piece1Epochs.idle_epochs; [exact Hp |].
    now apply PyMore.range3_empty.
Qed.

Lemma training_without_windows_witness :
  exists s',
    @Piece1.training_loop (Toy.piece1 (Finite 0))
      (Toy.args "hinge" 0%Q 20 4 (-2) 1 false) Piece1.HingeGANLoss
      (@Piece1.boot (Toy.piece1 (Finite 0))) = Ok tt s' /\
    Piece1.trace s' = [Piece1.EvPlot 9; Piece1.EvPlot 19].
Proof.
  destruct (@training_without_windows (Toy.piece1 (Finite 0))
              (Toy.args "hinge" 0%Q 20 4 (-2) 1 false) Piece1.HingeGANLoss
              (@Piece1.boot (Toy.piece1 (Finite 0))))
    as (s' & E & T & _).
  - simpl. lia.
  - right. left. simpl. lia.
  - exists s'. split; [exact E |]. rewrite T. reflexivity.
Defined.

(** X5.  [--plot_frequency 0] is noticed only at the end of the first
    epoch: all windows of epoch 0 are trained, then the test
    [(epoch + 1) % args.plot_frequency] raises ZeroDivisionError. *)
Theorem zero_plot_frequency_after_first_epoch {C : Piece1.Collaborators}
  (a : Piece1.Args) (lc : Piece1.loss_class) (s : Piece1.state) :
  Piece1Props.valid_randperm ->
  0 < Piece1.batch_size a -> 0 <= Piece1.samples a ->
  0 <= Piece1.latent_size a -> 1 <= Piece1.d_updates a ->
  1 <= Piece1.epochs a ->
  Piece1.plot_frequency a = 0 ->
  exists s' new,
    Piece1.training_loop a lc s = Raise ZeroDivisionError s' /\
    Piece1.trace s' = Piece1.trace s ++ new /\
    length (filter Piece1.is_step_g new)
      = length (Piece1Props.windows a) /\
    length (filter Piece1.is_step_d new)
      = (Piece1Props.d_count a * length (Piece1Props.windows a))%nat.
Proof.
  intros Hv Hb Hs Hl Hd He Hp.
  destruct (Piece1Epochs.epoch_windows_run a lc 0 s Hv Hb Hs Hl)
    as (s1 & _ & _ & Hc & Ee); [now left |].
  apply Piece1Facts.seg_of_chain in Hc;
    [| now apply Piece1Facts.windows_nonneg | lia].
  destruct Hc as (new & T & _ & _ & _ & G & D & _).
  exists s1, new. split; [| auto].
  unfold Piece1.training_loop.
  destruct (PyMore.range_cons _ He) as (l & ->).
  apply RunMore.for_each_raise_head.
  rewrite Ee. now apply Piece1Epochs.plot_zero_frequency.
Qed.

Lemma zero_plot_frequency_after_first_epoch_witness :
  exists s' new,
    @Piece1.training_loop (Toy.piece1 (Finite 0))
      {| Piece1.device := "cpu"; Piece1.epochs := 3; Piece1.d_updates := 2;
         Piece1.plot_frequency := 0; Piece1.lr := 0.00004%Q;
         Piece1.latent_size := 1; Piece1.samples := 4;
         Piece1.batch_size := 2; Piece1.loss := "hinge";
         Piece1.spectral_norm := false; Piece1.clip_weights := 0%Q;
         Piece1.topk := false; Piece1.gen_picture := true |}
      Piece1.HingeGANLoss (@Piece1.boot (Toy.piece1 (Finite 0)))
    = Raise ZeroDivisionError s' /\
    Piece1.trace s' = new /\
    length (filter Piece1.is_step_g new) = 2%nat /\
    length (filter Piece1.is_step_d new) = 4%nat.
Proof.
  destruct (@zero_plot_frequency_after_first_epoch (Toy.piece1 (Finite 0))
              {| Piece1.device := "cpu"; Piece1.epochs := 3;
                 Piece1.d_updates := 2;
                 Piece1.plot_frequency := 0; Piece1.lr := 0.00004%Q;
                 Piece1.latent_size := 1; Piece1.samples := 4;
                 Piece1.batch_size := 2; Piece1.loss := "hinge";
                 Piece1.spectral_norm := false; Piece1.clip_weights := 0%Q;
                 Piece1.topk := false; Piece1.gen_picture := true |}
              Piece1.HingeGANLoss (@Piece1.boot (Toy.piece1 (Finite 0)))
              (ToyFacts.toy_perm_valid (Finite 0)))
    as (s' & new & E & T & G & D);
    [simpl; lia | simpl; lia | simpl; lia | simpl; lia | simpl; lia
     | reflexivity |].
  exists s', new. split; [exact E |]. split; [exact T |].
  split; [exact G | exact D].
Defined.

Module Piece1Frame.

Import Py Run Torch Piece1 Piece1Props TraceProps.

Local Open Scope Z_scope.

(** Case analysis on everything an equation [... = Ok _ _] went through. *)
Ltac ok_inv H :=
  unfold ret, raise in H; simpl in H;
  repeat match type of H with
         | context [match ?x with _ => _ end] =>
             lazymatch x with
             | context [match _ with _ => _ end] => fail
             | _ => destruct x eqn:?; simpl in H
             end
         end;
  try discriminate H.

Ltac keep_done :=
  unfold kept, plots; simpl;
  rewrite ?flat_map_app; simpl; rewrite ?app_nil_r; reflexivity.

Section Frame.

Context {C : Collaborators}.

Lemma shuffle_keeps (s s' : state) :
  shuffle s = Ok tt s' -> kept s' = kept s.
Proof.
  unfold shuffle, torch_randperm. Piece1Facts.run. intros H.
  ok_inv H. injection H as <-. keep_done.
Qed.

Lemma discriminator_update_keeps (a : Args) (lc : loss_class) (e i : Z)
  (s s' : state) :
  discriminator_update a lc e i s = Ok tt s' -> kept s' = kept s.
Proof.
  unfold discriminator_update, torch_randn, no_grad, clip.
  Piece1Facts.run. intros H. ok_inv H.
  - unfold no_grad in H. Piece1Facts.run. simpl in H.
    injection H as <-. keep_done.
  - unfold ret in H. injection H as <-. keep_done.
Qed.

Lemma generator_update_keeps (a : Args) (lc : loss_class) (e i : Z)
  (s s' : state) (l : lossval) :
  generator_update a lc e i s = Ok l s' -> kept s' = kept s.
Proof.
  unfold generator_update, torch_randn. Piece1Facts.run. intros H.
  ok_inv H. injection H as _ <-. keep_done.
Qed.

Lemma set_description_keeps (e : Z) (lg : lossval) (s s' : state) :
  set_description e lg s = Ok tt s' -> kept s' = kept s.
Proof.
  unfold set_description. Piece1Facts.run. intros H.
  ok_inv H. unfold emit, modify in H. injection H as <-. keep_done.
Qed.

Lemma batch_iteration_keeps (a : Args) (lc : loss_class) (e i : Z)
  (s s' : state) :
  batch_iteration a lc e i s = Ok tt s' -> kept s' = kept s.
Proof.
  unfold batch_iteration. intros H.
  apply RunMore.bind_ok_inv in H. destruct H as ([] & s1 & H1 & H).
  apply RunMore.bind_ok_inv in H. destruct H as ([] & s2 & H2 & H).
  apply RunMore.bind_ok_inv in H. destruct H as (lg & s3 & H3 & H4).
  rewrite (set_description_keeps _ _ _ _ H4).
  rewrite (generator_update_keeps _ _ _ _ _ _ _ H3).
  rewrite (RunMore.for_each_preserves kept _ _
             (fun x t t' _ => discriminator_update_keeps a lc e i t t')
             _ _ H2).
  now apply shuffle_keeps.
Qed.

(** An epoch keeps all of it but the plots, to which it adds its own when
    due. *)
Lemma epoch_iteration_keeps (a : Args) (lc : loss_class) (e : Z)
  (s s' : state) :
  epoch_iteration a lc e s = Ok tt s' ->
  kept s' =
  (fixed_generator_noise s, opt_lr (generator_optimizer s),
   opt_lr (discriminator_optimizer s), grad_enabled s,
   plots (trace s) ++ (if plot_due a e then [e] else [])).
Proof.
  unfold epoch_iteration. intros H.
  apply RunMore.bind_ok_inv in H. destruct H as (ws & s0 & H0 & H).
  assert (s0 = s).
  { unfold lift in H0. destruct (range3 _ _ _); [discriminate |].
    unfold ret in H0. now injection H0. }
  subst s0.
  apply RunMore.bind_ok_inv in H. destruct H as ([] & s1 & H1 & H2).
  pose proof (RunMore.for_each_preserves kept _ _
                (fun x t t' _ => batch_iteration_keeps a lc e x t t')
                _ _ H1) as K1.
  unfold kept in K1. injection K1 as Kf Kg Kd Kgr Kp.
  rewrite <- Kf, <- Kg, <- Kd, <- Kgr, <- Kp.
  destruct (Z.eq_dec (plot_frequency a) 0) as [Ez | Ez].
  - rewrite (Piece1Epochs.plot_zero_frequency a e s1 Ez) in H2.
    discriminate.
  - rewrite (Piece1Epochs.plot_effect a e s1 Ez) in H2.
    injection H2 as <-. destruct (plot_due a e).
    + unfold kept, plots. simpl. rewrite flat_map_app. reflexivity.
    + unfold kept. now rewrite app_nil_r.
Qed.

Lemma epochs_keep (a : Args) (lc : loss_class) (l : list Z) :
  forall s s',
    for_each l (epoch_iteration a lc) s = Ok tt s' ->
    kept s' =
    (fixed_generator_noise s, opt_lr (generator_optimizer s),
     opt_lr (discriminator_optimizer s), grad_enabled s,
     plots (trace s) ++ filter (plot_due a) l).
Proof.
  induction l as [| e l IH]; intros s s' H; simpl in H.
  - unfold ret in H. injection H as <-. unfold kept. simpl.
    now rewrite app_nil_r.
  - apply RunMore.bind_ok_inv in H. destruct H as ([] & s1 & H1 & H2).
    rewrite (IH _ _ H2).
    pose proof (epoch_iteration_keeps a lc e s s1 H1) as K1.
    unfold kept in K1. injection K1 as -> -> -> -> ->.
    simpl filter. destruct (plot_due a e); simpl.
    + now rewrite <- app_assoc.
    + now rewrite app_nil_r.
Qed.

End Frame.

End Piece1Frame.

Module PlotSchedule.

Import Py Run Torch TraceProps.

Local Open Scope Z_scope.

Lemma div_succ (k p : Z) :
  0 < p -> 0 <= k ->
  (k + 1) / p = k / p + (if (k + 1) mod p =? 0 then 1 else 0).
Proof.
  intros Hp Hk.
  pose proof (Z.div_mod k p ltac:(lia)) as Hdm.
  pose proof (Z.mod_pos_bound k p Hp) as Hb.
  destruct (Z.eq_dec (k mod p + 1) p) as [E | E].
  - assert (Hm : (k + 1) mod p = 0).
    { symmetry. apply (Z.mod_unique_pos _ _ (k / p + 1)); lia. }
    rewrite Hm. simpl. symmetry.
    apply (Z.div_unique_pos _ _ _ 0); lia.
  - assert (Hm : (k + 1) mod p = k mod p + 1).
    { symmetry. apply (Z.mod_unique_pos _ _ (k / p)); lia. }
    rewrite Hm. destruct (Z.eqb_spec (k mod p + 1) 0) as [E0 | _]; [lia |].
    symmetry. apply (Z.div_unique_pos _ _ _ (k mod p + 1)); lia.
Qed.

(** Among the epochs [0 .. n-1], [n // plot_frequency] are plotted. *)
Lemma plots_due_count (a : Piece1.Args) (n : nat) :
  0 < Piece1.plot_frequency a ->
  Z.of_nat (length (filter (plot_due a) (count_from 0 1 n)))
  = Z.of_nat n / Piece1.plot_frequency a.
Proof.
  intros Hp. induction n as [| n IH].
  - simpl. now rewrite Z.div_0_l by lia.
  - rewrite PyMore.count_from_snoc, filter_app, length_app, Nat2Z.inj_add.
    rewrite IH, Nat2Z.inj_succ, <- Z.add_1_r.
    rewrite (div_succ (Z.of_nat n)) by lia.
    f_equal. simpl filter. unfold plot_due at 1.
    replace (0 + Z.of_nat n * 1 + 1) with (Z.of_nat n + 1) by lia.
    replace (Z.of_nat n * 1 + 1) with (Z.of_nat n + 1) by lia.
    now destruct (_ =? 0).
Qed.

End PlotSchedule.

(** *** What a whole run does *)

(** X6.  The plotting block runs exactly after the epochs [e] of the run
    with [(e + 1) % plot_frequency == 0], in order, with no window in
    between adding a plot; for a positive frequency that is
    [epochs // plot_frequency] plots. *)
Theorem plots_on_schedule {C : Piece1.Collaborators}
  (a : Piece1.Args) (lc : Piece1.loss_class) (s : Piece1.state) :
  Piece1Props.valid_randperm ->
  0 < Piece1.batch_size a -> 0 <= Piece1.samples a ->
  0 <= Piece1.latent_size a -> Piece1.plot_frequency a <> 0 ->
  1 <= Piece1.d_updates a ->
  exists s',
    Piece1.training_loop a lc s = Ok tt s' /\
    TraceProps.plots (Piece1.trace s') =
      TraceProps.plots (Piece1.trace s)
      ++ filter (TraceProps.plot_due a) (range (Piece1.epochs a)) /\
    (0 < Piece1.plot_frequency a ->
     Z.of_nat (length (filter (TraceProps.plot_due a)
                              (range (Piece1.epochs a))))
     = Z.max 0 (Piece1.epochs a) / Piece1.plot_frequency a).
Proof.
  intros Hv Hb Hs Hl Hp Hd.
  destruct (Piece1Facts.training_loop_spec a lc s Hv Hb Hs Hl Hp)
    as (s' & E & _); [now left |].
  exists s'. split; [exact E |]. split.
  - pose proof (Piece1Frame.epochs_keep a lc _ _ _ E) as K.
    unfold TraceProps.kept in K. now injection K.
  - intros Hpos. unfold range.
    rewrite PlotSchedule.plots_due_count by exact Hpos.
    f_equal. lia.
Qed.

Lemma plots_on_schedule_witness :
  exists s',
    @Piece1.training_loop (Toy.piece1 (Finite 0))
      (Toy.args "hinge" 0%Q 25 4 2 1 false) Piece1.HingeGANLoss
      (@Piece1.boot (Toy.piece1 (Finite 0))) = Ok tt s' /\
    TraceProps.plots (Piece1.trace s') = [9; 19].
Proof.
  destruct (@plots_on_schedule (Toy.piece1 (Finite 0))
              (Toy.args "hinge" 0%Q 25 4 2 1 false) Piece1.HingeGANLoss
              (@Piece1.boot (Toy.piece1 (Finite 0)))
              (ToyFacts.toy_perm_valid (Finite 0)))
    as (s' & E & P & _);
    [simpl; lia | simpl; lia | simpl; lia | simpl; lia | simpl; lia |].
  exists s'. split; [exact E |]. rewrite P. reflexivity.
Defined.

Lemma setup_keeps {C : Piece1.Collaborators} (a : Piece1.Args)
  (s s1 : Piece1.state) (lc : Piece1.loss_class) :
  Piece1.setup a s = Ok lc s1 ->
  exists t,
    randn Piece1.normal (Piece1.rng s) (Piece1.samples a / 10)
          (Piece1.latent_size a) = inr t /\
    Piece1.fixed_generator_noise s1 = t /\
    Piece1.opt_lr (Piece1.generator_optimizer s1) = Piece1.lr a /\
    Piece1.opt_lr (Piece1.discriminator_optimizer s1) = Piece1.lr a /\
    Piece1.grad_enabled s1 = Piece1.grad_enabled s.
Proof.
  unfold Piece1.setup, Piece1.torch_randn. Piece1Facts.run. intros H.
  Piece1Frame.ok_inv H. injection H as _ <-. simpl. eauto 10.
Qed.

(** X7.  A run that completes ends with what the set-up fixed: the noise
    drawn first (line 80) is still the one the plots use, both optimizers
    still step with learning rate 0.00004, and the autograd mode, switched
    off around the fake samples of each discriminator update and around each
    clamp, is on again. *)
Theorem completed_run_keeps_setup {C : Piece1.Collaborators}
  (c : Piece1.Cli) (s' : Piece1.state) :
  Piece1.program c = Ok tt s' ->
  exists a t,
    Piece1.parse_args c = inr a /\
    randn Piece1.normal 0 (Piece1.samples a / 10) (Piece1.latent_size a)
      = inr t /\
    Piece1.fixed_generator_noise s' = t /\
    Piece1.opt_lr (Piece1.generator_optimizer s') = 0.00004%Q /\
    Piece1.opt_lr (Piece1.discriminator_optimizer s') = 0.00004%Q /\
    Piece1.grad_enabled s' = true.
Proof.
  unfold Piece1.program. intros H.
  destruct (Piece1.parse_args c) as [e | a] eqn:Ep; [discriminate |].
  unfold Piece1.main in H. apply RunMore.bind_ok_inv in H.
  destruct H as (lc & s1 & H1 & H2).
  destruct (setup_keeps _ _ _ _ H1) as (t & Et & F1 & G1 & D1 & M1).
  pose proof (Piece1Frame.epochs_keep _ _ _ _ _ H2) as K.
  unfold TraceProps.kept in K. injection K as Kf Kg Kd Km _.
  exists a, t. split; [reflexivity |]. split; [exact Et |].
  rewrite Kf, Kg, Kd, Km, F1, G1, D1, M1. auto.
Qed.

Lemma completed_run_keeps_setup_witness :
  exists s',
    @Piece1.program (Toy.piece1 (Finite 0)) (Toy.cli "wasserstein" 0.5%Q 2 4 2 1)
    = Ok tt s' /\
    Piece1.grad_enabled s' = true /\
    Piece1.opt_lr (Piece1.discriminator_optimizer s') = 0.00004%Q.
Proof.
  assert (E : exists s',
             @Piece1.program (Toy.piece1 (Finite 0))
               (Toy.cli "wasserstein" 0.5%Q 2 4 2 1) = Ok tt s').
  { vm_compute. eexists. reflexivity. }
  destruct E as (s' & E).
  destruct (@completed_run_keeps_setup (Toy.piece1 (Finite 0)) _ _ E)
    as (a & t & _ & _ & _ & _ & D & M).
  exists s'. split; [exact E |]. split; [exact M | exact D].
Defined.

Module Piece1Draws.

Import Py Run Torch Piece1 Piece1Props TraceProps.

Local Open Scope Z_scope.

Lemma sorted_seq (start n : nat) : StronglySorted lt (seq start n).
Proof.
  revert start. induction n as [| n IH]; intros start; simpl.
  - constructor.
  - constructor; [apply IH |].
    apply Forall_forall. intros k Hk. apply in_seq in Hk. lia.
Qed.

Lemma sorted_app (l1 l2 : list nat) (mid : nat) :
  StronglySorted lt l1 -> StronglySorted lt l2 ->
  Forall (fun k => (k < mid)%nat) l1 ->
  Forall (fun k => (mid <= k)%nat) l2 ->
  StronglySorted lt (l1 ++ l2).
Proof.
  intros H1 H2 B1 B2. induction H1 as [| x l1 H1 IH Hx]; simpl.
  - exact H2.
  - inversion B1 as [| ? ? Bx Bl]; subst.
    constructor; [now apply IH |].
    apply Forall_app. split; [exact Hx |].
    eapply Forall_impl; [| exact B2]. simpl. intros k Hk. lia.
Qed.

Lemma sorted_NoDup (l : list nat) : StronglySorted lt l -> NoDup l.
Proof.
  induction 1 as [| x l H IH Hx]; constructor; [| exact IH].
  intros Hin. rewrite Forall_forall in Hx. specialize (Hx x Hin). lia.
Qed.

Lemma increasing_within_app (lo mid hi : nat) (l1 l2 : list nat) :
  (lo <= mid)%nat -> (mid <= hi)%nat ->
  increasing_within lo mid l1 -> increasing_within mid hi l2 ->
  increasing_within lo hi (l1 ++ l2).
Proof.
  intros H1 H2 [S1 B1] [S2 B2]. split.
  - apply (sorted_app l1 l2 mid); auto.
    + eapply Forall_impl; [| exact B1]. simpl. intros k Hk. lia.
    + eapply Forall_impl; [| exact B2]. simpl. intros k Hk. lia.
  - apply Forall_app. split.
    + eapply Forall_impl; [| exact B1]. simpl. intros k Hk. lia.
    + eapply Forall_impl; [| exact B2]. simpl. intros k Hk. lia.
Qed.

Section Draws.

Context {C : Collaborators}.

Lemma draws_fresh_refl (s : state) : draws_fresh 0 s s.
Proof.
  exists []. rewrite app_nil_r, Nat.add_0_r. repeat split; auto.
  - constructor.
  - intros k Hk. destruct Hk.
Qed.

Lemma draws_fresh_trans (k1 k2 : nat) (s1 s2 s3 : state) :
  draws_fresh k1 s1 s2 -> draws_fresh k2 s2 s3 ->
  draws_fresh (k1 + k2) s1 s3.
Proof.
  intros (n1 & T1 & R1 & I1 & D1) (n2 & T2 & R2 & I2 & D2).
  exists (n1 ++ n2).
  split; [rewrite T2, T1; now rewrite app_assoc |].
  split; [lia |].
  unfold steps, randn_draws in *. rewrite !flat_map_app, map_app.
  split.
  - apply (increasing_within_app _ (rng s2)); auto; lia.
  - apply incl_app; [now apply incl_appl | now apply incl_appr].
Qed.

Lemma draws_fresh_batch (a : Args) (i : Z) (s s' : state) :
  batch_rel a i s s' -> draws_fresh (d_count a + 2) s s'.
Proof.
  intros (new & R & _ & _ & T & St & W & _).
  exists new. split; [exact T |]. split; [lia |].
  assert (E : map snd (steps new) = seq (S (rng s)) (S (d_count a))).
  { rewrite St, map_app, map_map, seq_S. simpl. now rewrite map_id. }
  rewrite E, W. split; [split |].
  - apply sorted_seq.
  - apply Forall_forall. intros k Hk. apply in_seq in Hk. lia.
  - apply incl_refl.
Qed.

Lemma draws_fresh_chain (a : Args) (ws : list Z) :
  forall s s',
    chain (batch_rel a) ws s s' ->
    draws_fresh ((d_count a + 2) * length ws) s s'.
Proof.
  induction ws as [| i ws IH]; intros s s' H; simpl in H.
  - subst s'. rewrite Nat.mul_0_r. apply draws_fresh_refl.
  - destruct H as (s1 & H1 & H2). simpl length.
    replace ((d_count a + 2) * S (length ws))%nat
      with ((d_count a + 2) + (d_count a + 2) * length ws)%nat by lia.
    eapply draws_fresh_trans; [apply (draws_fresh_batch a i); eauto | now apply IH].
Qed.

Lemma draws_fresh_epoch (a : Args) (lc : loss_class) (e : Z) (s : state) :
  valid_randperm ->
  0 < batch_size a -> 0 <= samples a -> 0 <= latent_size a ->
  plot_frequency a <> 0 ->
  can_report a s ->
  exists s',
    epoch_iteration a lc e s = Ok tt s' /\ can_report a s' /\
    draws_fresh ((d_count a + 2) * length (windows a)) s s'.
Proof.
  intros Hv Hb Hs Hl Hp Hr.
  destruct (Piece1Epochs.epoch_windows_run a lc e s Hv Hb Hs Hl Hr)
    as (s1 & _ & R1 & Hc & Ee).
  rewrite Ee, (Piece1Epochs.plot_effect a e s1 Hp).
  eexists. split; [reflexivity |].
  apply draws_fresh_chain in Hc.
  destruct (plot_due a e); [| now split].
  split; [exact R1 |].
  rewrite <- (Nat.add_0_r (_ * _)).
  eapply draws_fresh_trans; [exact Hc |].
  exists [EvPlot e]. simpl. rewrite Nat.add_0_r. repeat split; auto.
  - constructor.
  - intros k Hk. destruct Hk.
Qed.

Lemma draws_fresh_epochs (k : nat) (l : list Z) :
  forall s s',
    chain (fun _ : Z => draws_fresh k) l s s' ->
    draws_fresh (k * length l) s s'.
Proof.
  induction l as [| e l IH]; intros s s' H; simpl in H.
  - subst s'. rewrite Nat.mul_0_r. apply draws_fresh_refl.
  - destruct H as (s1 & H1 & H2). simpl length.
    replace (k * S (length l))%nat with (k + k * length l)%nat by lia.
    eapply draws_fresh_trans; [exact H1 | now apply IH].
Qed.

End Draws.

End Piece1Draws.

(** X8.  Over a whole training run no two optimizer steps, of either
    network, in any window or epoch, consume the same draw: the draws the
    steps consume are [torch.randn] draws of the run and increase strictly
    from step to step.  The run makes [d_updates + 2] draws per window. *)
Theorem noise_never_reused_in_a_run {C : Piece1.Collaborators}
  (a : Piece1.Args) (lc : Piece1.loss_class) (s : Piece1.state) :
  Piece1Props.valid_randperm ->
  0 < Piece1.batch_size a -> 0 <= Piece1.samples a ->
  0 <= Piece1.latent_size a -> Piece1.plot_frequency a <> 0 ->
  1 <= Piece1.d_updates a ->
  exists s' new,
    Piece1.training_loop a lc s = Ok tt s' /\
    Piece1.trace s' = Piece1.trace s ++ new /\
    Piece1.rng s' =
      (Piece1.rng s
       + (Piece1Props.d_count a + 2) * length (Piece1Props.windows a)
         * Z.to_nat (Piece1.epochs a))%nat /\
    StronglySorted lt (map snd (Piece1.steps new)) /\
    NoDup (map snd (Piece1.steps new)) /\
    Forall (fun k => (Piece1.rng s <= k < Piece1.rng s')%nat)
           (map snd (Piece1.steps new)) /\
    incl (map snd (Piece1.steps new)) (Piece1.randn_draws new).
Proof.
  intros Hv Hb Hs Hl Hp Hd. unfold Piece1.training_loop.
  destruct (RunFacts.for_each_chain (Piece1Props.can_report a)
              (fun _ : Z =>
                 TraceProps.draws_fresh
                   ((Piece1Props.d_count a + 2)
                    * length (Piece1Props.windows a)))
              (Piece1.epoch_iteration a lc) (range (Piece1.epochs a)))
    with (s := s) as (s' & E & _ & Hc).
  - intros e t _ Ht. now apply Piece1Draws.draws_fresh_epoch.
  - now left.
  - apply Piece1Draws.draws_fresh_epochs in Hc.
    rewrite PyFacts.length_range in Hc.
    destruct Hc as (new & T & R & [St B] & I).
    exists s', new. repeat split; auto.
    now apply Piece1Draws.sorted_NoDup.
Qed.

Lemma noise_never_reused_in_a_run_witness :
  exists s' new,
    @Piece1.training_loop (Toy.piece1 (Finite 0))
      (Toy.args "hinge" 0%Q 2 4 2 2 false) Piece1.HingeGANLoss
      (@Piece1.boot (Toy.piece1 (Finite 0))) = Ok tt s' /\
    Piece1.trace s' = new /\
    Piece1.rng s' = 16%nat /\
    NoDup (map snd (Piece1.steps new)).
Proof.
  destruct (@noise_never_reused_in_a_run (Toy.piece1 (Finite 0))
              (Toy.args "hinge" 0%Q 2 4 2 2 false) Piece1.HingeGANLoss
              (@Piece1.boot (Toy.piece1 (Finite 0)))
              (ToyFacts.toy_perm_valid (Finite 0)))
    as (s' & new & E & T & R & _ & N & _);
    [simpl; lia | simpl; lia | simpl; lia | simpl; lia | simpl; lia |].
  exists s', new. split; [exact E |]. split; [exact T |].
  split; [rewrite R; reflexivity | exact N].
Defined.

Module WindowSizes.

Import Py Run Torch TraceProps.

Local Open Scope Z_scope.

Lemma total_app (b n : Z) (l1 l2 : list Z) :
  total b n (l1 ++ l2) = total b n l1 + total b n l2.
Proof.
  induction l1 as [| i l1 IH]; simpl; [reflexivity |].
  unfold total in *. simpl. rewrite IH. lia.
Qed.

Lemma total_repeat (b n i : Z) (k : nat) :
  total b n (repeat i k) = Z.of_nat k * size_at b n i.
Proof.
  induction k as [| k IH]; [reflexivity |].
  change (total b n (repeat i (S k)))
    with (size_at b n i + total b n (repeat i k)).
  rewrite IH, Nat2Z.inj_succ. lia.
Qed.

Lemma total_flat_repeat (b n : Z) (k : nat) (ws : list Z) :
  total b n (flat_map (fun i => repeat i k) ws) = Z.of_nat k * total b n ws.
Proof.
  induction ws as [| i ws IH]; simpl; [lia |].
  rewrite total_app, total_repeat, IH.
  change (total b n (i :: ws)) with (size_at b n i + total b n ws). lia.
Qed.

(** [m] consecutive windows from index [st] hold the rows from [st] on, up
    to [m * b] of them. *)
Lemma total_windows (b n : Z) (m : nat) :
  0 < b ->
  forall st,
    total b n (count_from st b m)
    = Z.min (Z.of_nat m * b) (Z.max 0 (n - st)).
Proof.
  intros Hb. induction m as [| m IH]; intros st.
  - simpl. lia.
  - change (total b n (count_from st b (S m)))
      with (size_at b n st + total b n (count_from (st + b) b m)).
    rewrite IH, Nat2Z.inj_succ. unfold size_at.
    assert (0 <= Z.of_nat m * b) by (apply Z.mul_nonneg_nonneg; lia).
    lia.
Qed.

Lemma total_of_batches (a : Piece1.Args) (n : Z)
  (l : list (Z * tensor)) :
  Forall (Piece1Props.batch_ok a n) l ->
  fold_right (fun ib acc => shape0 (snd ib) + acc) 0 l
  = total (Piece1.batch_size a) n (map fst l).
Proof.
  induction 1 as [| ib l H _ IH]; cbn [fold_right map]; [reflexivity |].
  unfold Piece1Props.batch_ok in H. rewrite IH.
  change (total (Piece1.batch_size a) n (fst ib :: map fst l))
    with (size_at (Piece1.batch_size a) n (fst ib)
          + total (Piece1.batch_size a) n (map fst l)).
  unfold size_at. f_equal. exact H.
Qed.

End WindowSizes.

(** X9.  In every epoch the discriminator steps are fed exactly
    [d_updates * samples] real rows: the windows, the short last one
    included, add up to the pool, once for each of the [d_updates] updates
    of a window. *)
Theorem real_rows_per_epoch {C : Piece1.Collaborators}
  (a : Piece1.Args) (lc : Piece1.loss_class) (e : Z) (s : Piece1.state) :
  Piece1Props.valid_randperm ->
  0 < Piece1.batch_size a -> 0 <= Piece1.samples a ->
  shape0 (Piece1.data s) = Piece1.samples a ->
  0 <= Piece1.latent_size a -> Piece1.plot_frequency a <> 0 ->
  1 <= Piece1.d_updates a ->
  exists s' new,
    Piece1.epoch_iteration a lc e s = Ok tt s' /\
    Piece1.trace s' = Piece1.trace s ++ new /\
    TraceProps.real_rows new = Piece1.d_updates a * Piece1.samples a /\
    shape0 (Piece1.data s') = Piece1.samples a.
Proof.
  intros Hv Hb Hs Hn Hl Hp Hd.
  destruct (Piece1Facts.epoch_iteration_spec a lc e s Hv Hb Hs Hl Hp)
    as (s' & E & _ & new & T & _ & P & _ & _ & _ & _ & I & B & _);
    [now left |].
  exists s', new. split; [exact E |]. split; [exact T |]. split.
  - unfold TraceProps.real_rows.
    rewrite (WindowSizes.total_of_batches a _ _ B), I.
    rewrite WindowSizes.total_flat_repeat. unfold Piece1Props.windows.
    rewrite WindowSizes.total_windows by exact Hb.
    rewrite Hn. unfold Piece1Props.d_count.
    rewrite !Z2Nat.id by (try lia; apply Z.div_pos; lia).
    f_equal.
    pose proof (Z.div_mod (Piece1.samples a + Piece1.batch_size a - 1)
                  (Piece1.batch_size a) ltac:(lia)) as Hdm.
    pose proof (Z.mod_pos_bound
                  (Piece1.samples a + Piece1.batch_size a - 1)
                  (Piece1.batch_size a) Hb) as Hmb.
    lia.
  - unfold shape0 in *. now rewrite (Permutation_length P).
Qed.

Lemma real_rows_per_epoch_witness :
  exists s' new,
    @Piece1.epoch_iteration (Toy.piece1 (Finite 0))
      (Toy.args "standard" 0%Q 1 5 2 3 false) Piece1.GANLoss 0
      (Piece1.set_data [[0%Q]; [1%Q]; [2%Q]; [3%Q]; [4%Q]]
         (@Piece1.boot (Toy.piece1 (Finite 0)))) = Ok tt s' /\
    Piece1.trace s' = new /\
    TraceProps.real_rows new = 15.
Proof.
  destruct (@real_rows_per_epoch (Toy.piece1 (Finite 0))
              (Toy.args "standard" 0%Q 1 5 2 3 false) Piece1.GANLoss 0
              (Piece1.set_data [[0%Q]; [1%Q]; [2%Q]; [3%Q]; [4%Q]]
                 (@Piece1.boot (Toy.piece1 (Finite 0))))
              (ToyFacts.toy_perm_valid (Finite 0)))
    as (s' & new & E & T & R & _);
    [simpl; lia | simpl; lia | reflexivity | simpl; lia | simpl; lia
     | simpl; lia |].
  exists s', new. split; [exact E |]. split; [exact T |].
  rewrite R. reflexivity.
Defined.

(** *** The parser and the top-k gate *)




(** X11.  With [--batch_size 1] and [--topk], from the middle of training
    on the filter keeps [1 // 2 = 0] scores: each generator step is taken on
    the loss of an empty score tensor. *)
Theorem topk_on_single_sample_batches {C : Piece1.Collaborators}
  (a : Piece1.Args) (lc : Piece1.loss_class) (e i : Z) (s : Piece1.state) :
  Piece1Props.row_preserving ->
  Piece1.batch_size a = 1 -> 0 <= Piece1.latent_size a ->
  Piece1.topk a = true -> Piece1.epochs a <= 2 * e ->
  exists s',
    Piece1.generator_update a lc e i s
      = Ok (Piece1.loss_generator lc []) s' /\
    Piece1.trace s' =
      Piece1.trace s ++
      [Piece1.EvRandn (Piece1.rng s) 1 (Piece1.latent_size a);
       Piece1.EvStepG e i (Piece1.rng s) []
         (Piece1.loss_generator lc [])].
Proof.
  intros [Hg Hd] Hb Hl Ht He.
  destruct (Piece1Facts.generator_update_spec a lc e i s)
    as (s' & noise & scores & E & En & Es & _ & _ & _ & _ & T);
    [lia | exact Hl |].
  destruct (TorchFacts.randn_rows Piece1.normal (Piece1.rng s)
              (Piece1.batch_size a) (Piece1.latent_size a))
    as (t & Et & St); [lia | exact Hl |].
  assert (t = noise) by congruence. subst t.
  unfold Piece1.generator_loss_input in Es.
  rewrite (proj2 (topk_active_spec a e) (conj Ht He)) in Es.
  assert (Hpf : shape0 (Piece1.discriminator (Piece1.discriminator_p s)
                          (Piece1.generator (Piece1.generator_p s) noise))
                = 1).
  { unfold shape0 in *. rewrite Hd, Hg. lia. }
  rewrite Hpf in Es. unfold TopK.topk in Es. rewrite Hpf in Es.
  simpl in Es. injection Es as <-.
  exists s'. split; [exact E |]. rewrite T, Hb. reflexivity.
Qed.

Lemma topk_on_single_sample_batches_witness :
  exists s',
    @Piece1.generator_update (Toy.piece1 (Finite 0))
      (Toy.args "hinge" 0%Q 10 8 1 1 true) Piece1.HingeGANLoss 5 0
      (@Piece1.boot (Toy.piece1 (Finite 0))) = Ok (Finite 0) s' /\
    In (Piece1.EvStepG 5 0 0 [] (Finite 0)) (Piece1.trace s').
Proof.
  destruct (@topk_on_single_sample_batches (Toy.piece1 (Finite 0))
              (Toy.args "hinge" 0%Q 10 8 1 1 true) Piece1.HingeGANLoss 5 0
              (@Piece1.boot (Toy.piece1 (Finite 0)))
              (ToyFacts.toy_rows1 (Finite 0)))
    as (s' & E & T);
    [reflexivity | simpl; lia | reflexivity | simpl; lia |].
  exists s'. split; [exact E |]. rewrite T. simpl. right. left. reflexivity.
Defined.

Lemma halves_count (n : Z) (m : nat) :
  Z.of_nat (length (filter (fun e => n <=? 2 * e) (count_from 0 1 m)))
  = Z.max 0 (Z.of_nat m - Z.max 0 ((n + 1) / 2)).
Proof.
  induction m as [| m IH].
  - simpl. lia.
  - rewrite PyMore.count_from_snoc, filter_app, length_app, Nat2Z.inj_add.
    rewrite IH, Nat2Z.inj_succ. cbn [filter].
    replace (0 + Z.of_nat m * 1) with (Z.of_nat m) by lia.
    pose proof (Z.div_mod (n + 1) 2 ltac:(lia)) as Hdm.
    pose proof (Z.mod_pos_bound (n + 1) 2 ltac:(lia)) as Hmb.
    destruct (Z.leb_spec n (2 * Z.of_nat m)); cbn [length]; lia.
Qed.

(** X12.  The top-k gate opens once and stays open: if it is active in an
    epoch it is active in all later ones, and over a run of [epochs] epochs
    it is active in exactly [epochs // 2] of them (for 5 epochs, in the last
    two). *)
Theorem topk_active_in_last_half (a : Piece1.Args) :
  Piece1.topk a = true -> 0 <= Piece1.epochs a ->
  (forall e e', e <= e' ->
                Piece1.topk_active a e = true ->
                Piece1.topk_active a e' = true) /\
  Z.of_nat (length (filter (Piece1.topk_active a)
                           (range (Piece1.epochs a))))
  = Piece1.epochs a / 2.
Proof.
  intros Ht He. split.
  - intros e e' Hle H. apply topk_active_spec in H.
    apply topk_active_spec. split; [exact Ht | lia].
  - rewrite (filter_ext (Piece1.topk_active a)
               (fun e => Piece1.epochs a <=? 2 * e)).
    + unfold range. rewrite halves_count.
      pose proof (Z.div_mod (Piece1.epochs a + 1) 2 ltac:(lia)) as Hdm.
      pose proof (Z.mod_pos_bound (Piece1.epochs a + 1) 2 ltac:(lia)) as Hmb.
      pose proof (Z.div_mod (Piece1.epochs a) 2 ltac:(lia)) as Hdm'.
      pose proof (Z.mod_pos_bound (Piece1.epochs a) 2 ltac:(lia)) as Hmb'.
      lia.
    + intros e. destruct (Z.leb_spec (Piece1.epochs a) (2 * e)) as [H | H].
      * apply topk_active_spec. now split.
      * destruct (Piece1.topk_active a e) eqn:E; [| reflexivity].
        apply topk_active_spec in E. lia.
Qed.

Lemma topk_active_in_last_half_witness :
  filter (Piece1.topk_active (Toy.args "hinge" 0%Q 5 8 4 1 true))
         (range 5) = [3; 4].
Proof.
  pose proof (@topk_active_in_last_half
                (Toy.args "hinge" 0%Q 5 8 4 1 true) eq_refl
                ltac:(simpl; lia)) as [_ H].
  reflexivity.
Defined.

(** *** The plotting block *)

Module PlotFacts.

Import Py Run Torch Piece1Plot TraceProps.

Local Open Scope Z_scope.

Lemma item_nth (v : list Q) (k : nat) :
  (k < length v)%nat -> item v k = inr (nth k v 0%Q).
Proof.
  intros H. unfold item. destruct (nth_error v k) eqn:E.
  - now rewrite (nth_error_nth v k 0%Q E).
  - apply nth_error_None in E. lia.
Qed.

Lemma item_none (v : list Q) (k : nat) :
  (length v <= k)%nat -> item v k = inl IndexError.
Proof.
  intros H. unfold item. now rewrite (proj2 (nth_error_None v k) H).
Qed.

Lemma bump_at (done rest : list Z) (x : Z) :
  bump (length done) (done ++ x :: rest) = done ++ (x + 1) :: rest.
Proof. induction done as [| y done IH]; simpl; [reflexivity | now rewrite IH]. Qed.

Section Circles.

Variable closer : Q -> Q -> Q -> Q -> Q -> bool.

Lemma inside_total (center point : list Q) :
  (2 <= length center)%nat -> (2 <= length point)%nat ->
  inside closer center point
  = inr (closer (nth 0 point 0%Q) (nth 0 center 0%Q)
                (nth 1 point 0%Q) (nth 1 center 0%Q) 0.5%Q).
Proof.
  intros Hc Hp. unfold inside.
  rewrite (item_nth point 0), (item_nth center 0), (item_nth point 1),
    (item_nth center 1) by lia.
  reflexivity.
Qed.

Lemma inside_error (center point : list Q) (e : error) :
  inside closer center point = inl e -> e = IndexError.
Proof.
  unfold inside. intros H.
  repeat match type of H with
         | context [match ?x with _ => _ end] => destruct x
         end; congruence.
Qed.

Lemma inside_short_point (center point : list Q) :
  (length point < 2)%nat -> inside closer center point = inl IndexError.
Proof.
  intros H. unfold inside.
  destruct (item point 0) as [e0 | px] eqn:E0; [reflexivity |].
  destruct (item center 0); [reflexivity |].
  rewrite (item_none point 1) by lia. reflexivity.
Qed.

Lemma scan_points_counts (center : list Q) (points : tensor)
  (done rest : list Z) :
  (2 <= length center)%nat ->
  Forall (fun p => (2 <= length p)%nat) points ->
  forall x,
    scan_points closer (length done) center points (done ++ x :: rest)
    = inr (done ++ (x + hits closer center points) :: rest).
Proof.
  intros Hc Hp. induction Hp as [| p points H _ IH]; intros x.
  - simpl. unfold hits. simpl. now rewrite Z.add_0_r.
  - cbn [scan_points]. unfold hits. cbn [filter].
    rewrite (inside_total center p Hc H).
    destruct (closer _ _ _ _ _).
    + rewrite bump_at, IH. unfold hits. cbn [length].
      rewrite Nat2Z.inj_succ. do 3 f_equal. lia.
    + apply IH.
Qed.

Lemma scan_points_bad (i : nat) (center : list Q) (points : tensor) :
  Exists (fun p => (length p < 2)%nat) points ->
  forall sums, scan_points closer i center points sums = inl IndexError.
Proof.
  induction 1 as [p points H | p points _ IH]; intros sums;
    cbn [scan_points].
  - now rewrite (inside_short_point center p H).
  - destruct (inside closer center p) as [e | b] eqn:E.
    + now rewrite (inside_error _ _ _ E).
    + destruct b; apply IH.
Qed.

Lemma scan_centers_counts (points : tensor) (centers : tensor) :
  Forall (fun c => (2 <= length c)%nat) centers ->
  Forall (fun p => (2 <= length p)%nat) points ->
  forall done,
    scan_centers closer (length done) centers points
                 (done ++ repeat 0 (length centers))
    = inr (done ++ map (fun c => hits closer c points) centers).
Proof.
  intros Hc Hp. induction Hc as [| c centers H _ IH]; intros done.
  - reflexivity.
  - cbn [scan_centers length repeat map].
    rewrite (scan_points_counts c points done _ H Hp).
    specialize (IH (done ++ [0 + hits closer c points])).
    rewrite length_app, Nat.add_1_r, <- !app_assoc in IH.
    simpl in IH. simpl. exact IH.
Qed.

Lemma hits_bounds (center : list Q) (points : tensor) :
  0 <= hits closer center points <= shape0 points.
Proof.
  unfold hits, shape0. split; [lia |].
  apply Nat2Z.inj_le. apply filter_length_le.
Qed.

End Circles.

End PlotFacts.

(** X13.  The loops of [get_point_loc], whatever the float32 comparison of
    line 206 answers ([closer] stands for it; its rounding is not
    modelled).  On samples and centres with at least two coordinates the
    function returns one count per circle, in the order of the centres: the
    number of samples for which the comparison of the sample's and the
    centre's first two coordinates with the radius 0.5 answers yes, so a
    number between 0 and the number of samples.  If there is a circle and
    some sample has fewer than two coordinates it raises IndexError. *)
Theorem get_point_loc_counts (closer : Q -> Q -> Q -> Q -> Q -> bool)
  (centers points : tensor) :
  Forall (fun c => (2 <= length c)%nat) centers ->
  (Forall (fun p => (2 <= length p)%nat) points ->
   Piece1Plot.get_point_loc closer centers points
     = inr (map (fun c => TraceProps.hits closer c points) centers) /\
   Forall (fun n => 0 <= n <= shape0 points)
          (map (fun c => TraceProps.hits closer c points) centers)) /\
  (centers <> [] ->
   Exists (fun p => (length p < 2)%nat) points ->
   Piece1Plot.get_point_loc closer centers points = inl IndexError).
Proof.
  intros Hc. split.
  - intros Hp. split.
    + apply (PlotFacts.scan_centers_counts closer points centers Hc Hp []).
    + apply Forall_map, Forall_forall. intros c _.
      apply PlotFacts.hits_bounds.
  - intros Hne Hbad. unfold Piece1Plot.get_point_loc.
    destruct centers as [| c centers]; [congruence |].
    cbn [Piece1Plot.scan_centers].
    now rewrite PlotFacts.scan_points_bad.
Qed.

Lemma get_point_loc_counts_witness :
  Piece1Plot.get_point_loc Piece1Plot.exact_closer
    [[1%Q; 0%Q]; [0%Q; 1%Q]; [0.8%Q; 0.4%Q]]
    [[1%Q; 0.2%Q]; [0.1%Q; 0.9%Q]; [5%Q; 5%Q]; [0.9%Q; 0.2%Q]]
  = inr [2; 1; 2].
Proof.
  destruct (get_point_loc_counts Piece1Plot.exact_closer
              [[1%Q; 0%Q]; [0%Q; 1%Q]; [0.8%Q; 0.4%Q]]
              [[1%Q; 0.2%Q]; [0.1%Q; 0.9%Q]; [5%Q; 5%Q]; [0.9%Q; 0.2%Q]])
    as ((E & _) & _).
  - repeat constructor.
  - repeat constructor.
  - rewrite E. reflexivity.
Defined.

(* ===================================================================== *)
(** ** Piece2: whole epochs *)
(* ===================================================================== *)

Module Piece2More.

Import Py Run Torch Piece2 Piece2Props TraceProps.

Local Open Scope Z_scope.

Lemma combine_count_app {A : Type} (l1 l2 : list A) (x : A) (m : nat) :
  forall st,
    combine (count_from st 1 (length l1 + S m)) (l1 ++ x :: l2)
    = combine (count_from st 1 (length l1)) l1
      ++ (st + Z.of_nat (length l1), x)
         :: combine (count_from (st + Z.of_nat (length l1) + 1) 1 m) l2.
Proof.
  induction l1 as [| y l1 IH]; intros st.
  - cbn [length Nat.add count_from combine app].
    rewrite Z.add_0_r. reflexivity.
  - cbn [length Nat.add count_from combine app]. rewrite IH.
    rewrite Nat2Z.inj_succ. do 3 f_equal; [f_equal; lia |].
    do 2 f_equal. lia.
Qed.

Lemma enumerate_app {A : Type} (l1 l2 : list A) (x : A) :
  exists tl,
    enumerate (l1 ++ x :: l2)
    = enumerate l1 ++ (Z.of_nat (length l1), x) :: tl.
Proof.
  unfold enumerate, range, shape0. rewrite !Nat2Z.id.
  rewrite length_app. cbn [length].
  rewrite combine_count_app. eexists. reflexivity.
Qed.

Lemma enumerate_all {A : Type} (P : A -> Prop) (l : list A) :
  Forall P l -> Forall (fun ib => P (snd ib)) (enumerate l).
Proof.
  intros H. apply Forall_forall. intros [i b] Hin.
  apply in_combine_r in Hin. rewrite Forall_forall in H. now apply H.
Qed.

Lemma length_enumerate {A : Type} (l : list A) :
  length (enumerate l) = length l.
Proof.
  unfold enumerate, range, shape0.
  rewrite length_combine, PyFacts.length_count_from, Nat2Z.id. lia.
Qed.

Section Epochs.

Context {C : Collaborators}.

Lemma batches_done_refl (s : state) : batches_done 0 s s.
Proof. exists [], []. rewrite app_nil_r. auto. Qed.

Lemma batches_done_trans (k1 k2 : nat) (s1 s2 s3 : state) :
  batches_done k1 s1 s2 -> batches_done k2 s2 s3 ->
  batches_done (k1 + k2) s1 s3.
Proof.
  intros (n1 & z1 & T1 & S1 & L1 & A1) (n2 & z2 & T2 & S2 & L2 & A2).
  exists (n1 ++ n2), (z1 ++ z2).
  split; [rewrite T2, T1; now rewrite app_assoc |].
  unfold steps, paired in *. rewrite !flat_map_app, S1, S2, length_app.
  repeat split; auto; congruence.
Qed.

Lemma batches_done_full (e i : Z) (imgs : tensor) (s : state) :
  row_preserving ->
  known_activation (input_activation s) ->
  shape0 imgs = batch_size ->
  exists s', train_batch e (i, imgs) s = Ok tt s' /\ batches_done 1 s s'.
Proof.
  intros Hr Hk Hn.
  destruct (Piece2Facts.train_batch_full e i imgs s Hr Hk Hn)
    as (s' & new & src & E & T & St & A & _).
  exists s'. split; [exact E |].
  exists (EvLatent (tensors s) src batch_size latent_dim :: new),
         [tensors s].
  repeat split; auto.
Qed.

(** A list of full batches runs through, one step pair per batch. *)
Lemma full_batches_run (e : Z) (l : list (Z * tensor)) :
  row_preserving ->
  Forall (fun ib => shape0 (snd ib) = batch_size) l ->
  forall s,
    known_activation (input_activation s) ->
    exists s',
      for_each l (train_batch e) s = Ok tt s' /\
      batches_done (length l) s s'.
Proof.
  intros Hr Hl. induction Hl as [| [i imgs] l H _ IH]; intros s Hk.
  - exists s. split; [reflexivity | apply batches_done_refl].
  - destruct (batches_done_full e i imgs s Hr Hk H) as (s1 & E1 & B1).
    assert (Hk1 : known_activation (input_activation s1)).
    { destruct B1 as (_ & _ & _ & _ & _ & A). now rewrite A. }
    destruct (IH s1 Hk1) as (s' & E & B).
    exists s'. split.
    + cbn [for_each]. unfold bind at 1. unfold tensor in E1.
      now rewrite E1.
    + change (length ((i, imgs) :: l)) with (1 + length l)%nat.
      eapply batches_done_trans; eauto.
Qed.

Lemma epoch_of_full_batches (e : Z) (s : state) :
  row_preserving ->
  Forall (fun b => shape0 b = batch_size) (train_loader e) ->
  known_activation (input_activation s) ->
  exists s',
    epoch_iteration e s = Ok tt s' /\
    batches_done (length (train_loader e)) s s'.
Proof.
  intros Hr Hl Hk. unfold epoch_iteration.
  destruct (full_batches_run e (enumerate (train_loader e)) Hr
              (enumerate_all _ _ Hl) s Hk) as (s' & E & B).
  rewrite length_enumerate in B. eauto.
Qed.

Lemma epochs_of_full_batches (l : list Z) :
  row_preserving ->
  (forall e, In e l -> Forall (fun b => shape0 b = batch_size)
                              (train_loader e)) ->
  forall s,
    known_activation (input_activation s) ->
    exists s',
      for_each l epoch_iteration s = Ok tt s' /\
      batches_done
        (list_sum (map (fun e => length (train_loader e)) l)) s s'.
Proof.
  intros Hr. induction l as [| e l IH]; intros Hl s Hk.
  - exists s. split; [reflexivity | apply batches_done_refl].
  - destruct (epoch_of_full_batches e s Hr (Hl e (or_introl eq_refl)) Hk)
      as (s1 & E1 & B1).
    assert (Hk1 : known_activation (input_activation s1)).
    { destruct B1 as (_ & _ & _ & _ & _ & A). now rewrite A. }
    destruct (IH (fun x Hx => Hl x (or_intror Hx)) s1 Hk1) as (s' & E & B).
    exists s'. split.
    + cbn [for_each]. unfold bind at 1. now rewrite E1.
    + cbn [map list_sum]. eapply batches_done_trans; eauto.
Qed.

End Epochs.

End Piece2More.

(** X14.  Piece2 stops at the first batch that does not have 64 images:
    if the loader's first epoch yields full batches and then one of another
    size, the script takes one discriminator and one generator step for each
    full batch and then raises ValueError on the odd one, in epoch 0; no
    later batch or epoch is reached. *)
Theorem odd_batch_stops_piece2 {C : Piece2.Collaborators}
  (fulls rest : list tensor) (odd : tensor) :
  Piece2Props.row_preserving ->
  Piece2.train_loader 0 = fulls ++ odd :: rest ->
  Forall (fun b => shape0 b = Piece2.batch_size) fulls ->
  shape0 odd <> Piece2.batch_size ->
  exists s' zs,
    Piece2.program = Raise ValueError s' /\
    Piece2.steps (Piece2.trace s') = TraceProps.paired zs /\
    length zs = length fulls.
Proof.
  intros Hr Hload Hf Hs. unfold Piece2.program, Piece2.training_loop.
  destruct (PyMore.range_cons Piece2.epochs) as (l & ->);
    [unfold Piece2.epochs; lia |].
  assert (Hk : Piece2Props.known_activation
                 (Piece2.input_activation Piece2.boot)).
  { simpl. right. reflexivity. }
  destruct (Piece2More.enumerate_app fulls rest odd) as (tl & En).
  destruct (Piece2More.full_batches_run 0 (Piece2.enumerate fulls) Hr
              (Piece2More.enumerate_all _ _ Hf) Piece2.boot Hk)
    as (s1 & E1 & new & zs & T1 & S1 & L1 & A1).
  rewrite Piece2More.length_enumerate in L1.
  assert (Hk1 : Piece2Props.known_activation (Piece2.input_activation s1))
    by now rewrite A1.
  destruct (Piece2Facts.train_batch_short 0 (Z.of_nat (length fulls)) odd s1
              Hr Hk1 Hs) as (s' & z & src & _ & _ & _ & E2 & T2).
  exists s', zs. split; [| split; [| exact L1]].
  - apply RunMore.for_each_raise_head. unfold Piece2.epoch_iteration.
    rewrite Hload, En.
    rewrite (RunMore.for_each_app_ok _ _ _ _ _ E1).
    now apply RunMore.for_each_raise_head.
  - rewrite T2, T1. unfold Piece2.steps in *.
    rewrite !flat_map_app, S1. simpl. now rewrite !app_nil_r.
Qed.

Lemma odd_batch_stops_piece2_witness :
  exists s' zs,
    @Piece2.program
      (Toy.piece2 (Finite 0)
         [Toy.images 64; Toy.images 64; Toy.images 32; Toy.images 64])
    = Raise ValueError s' /\
    Piece2.steps (Piece2.trace s') = TraceProps.paired zs /\
    length zs = 2%nat.
Proof.
  apply (@odd_batch_stops_piece2
           (Toy.piece2 (Finite 0)
              [Toy.images 64; Toy.images 64; Toy.images 32; Toy.images 64])
           [Toy.images 64; Toy.images 64] [Toy.images 64] (Toy.images 32)).
  - apply ToyFacts.toy_rows2.
  - reflexivity.
  - repeat constructor.
  - vm_compute. discriminate.
Defined.

(** X15.  When every batch the loader yields has 64 images, piece2 runs all
    50 epochs to the end: it takes one discriminator step and one generator
    step per batch, both on the same latent tensor, as many pairs as the
    epochs have batches, and the generator's input activation is still the
    uniform 0.5 of line 96. *)
Theorem full_batches_complete_piece2 {C : Piece2.Collaborators} :
  Piece2Props.row_preserving ->
  (forall e, 0 <= e < Piece2.epochs ->
             Forall (fun b => shape0 b = Piece2.batch_size)
                    (Piece2.train_loader e)) ->
  exists s' zs,
    Piece2.program = Ok tt s' /\
    Piece2.steps (Piece2.trace s') = TraceProps.paired zs /\
    length zs =
      list_sum (map (fun e => length (Piece2.train_loader e))
                    (range Piece2.epochs)) /\
    Piece2.input_activation s' = Piece2.SetActivation "uniform" 0.5%Q.
Proof.
  intros Hr Hl. unfold Piece2.program, Piece2.training_loop.
  destruct (Piece2More.epochs_of_full_batches (range Piece2.epochs) Hr)
    with (s := Piece2.boot) as (s' & E & new & zs & T & St & L & A).
  - intros e He. apply Hl. unfold range in He.
    apply PyFacts.In_count_from in He. destruct He as (k & Hk & ->). lia.
  - simpl. right. reflexivity.
  - exists s', zs. split; [exact E |]. split; [| split; [exact L |]].
    + rewrite T. simpl. exact St.
    + rewrite A. reflexivity.
Qed.

Lemma full_batches_complete_piece2_witness :
  exists s' zs,
    @Piece2.program (Toy.piece2 (Finite 0) [Toy.images 64; Toy.images 64])
    = Ok tt s' /\
    Piece2.steps (Piece2.trace s') = TraceProps.paired zs /\
    length zs = 100%nat.
Proof.
  destruct (@full_batches_complete_piece2
              (Toy.piece2 (Finite 0) [Toy.images 64; Toy.images 64]))
    as (s' & zs & E & St & L & _).
  - apply ToyFacts.toy_rows2.
  - intros e _. repeat constructor.
  - exists s', zs. split; [exact E |]. split; [exact St |].
    rewrite L. reflexivity.
Defined.

(** X16.  [set_generator_activation] takes any mode without complaint; a
    mode other than 'random' and 'uniform' only shows when the closure is
    first called: the next batch raises ValueError after the real loss and
    before any latent tensor or optimizer step, leaving the state as
    [set_generator_activation] made it. *)
Theorem unknown_mode_raises_at_first_batch {C : Piece2.Collaborators}
  (mode : string) (value : Q) (s : Piece2.state) (e : Z) (ib : Z * tensor) :
  Piece2Props.row_preserving ->
  mode <> "random"%string ->
  mode <> "uniform"%string ->
  Piece2.train_batch e ib (Piece2.set_generator_activation mode value s)
  = Raise ValueError (Piece2.set_generator_activation mode value s).
Proof.
  intros [_ Hd] Hr Hu. unfold Piece2.train_batch.
  unfold bind at 1, get. unfold bind at 1.
  rewrite Piece2Facts.criterion_same by (now rewrite Hd, repeat_length).
  cbn [lift ret]. unfold bind at 1.
  unfold Piece2.call_input_activation, bind at 1, get.
  cbn [Piece2.input_activation Piece2.set_generator_activation
       Piece2.set_input_activation].
  apply String.eqb_neq in Hr, Hu. rewrite Hr, Hu. reflexivity.
Qed.

Lemma unknown_mode_raises_at_first_batch_witness :
  @Piece2.train_batch (Toy.piece2 (Finite 0) []) 0 (0, Toy.images 64)
    (@Piece2.set_generator_activation (Toy.piece2 (Finite 0) [])
       "normal" 0.5%Q (@Piece2.init (Toy.piece2 (Finite 0) [])))
  = Raise ValueError
      (@Piece2.set_generator_activation (Toy.piece2 (Finite 0) [])
         "normal" 0.5%Q (@Piece2.init (Toy.piece2 (Finite 0) []))).
Proof.
  apply (@unknown_mode_raises_at_first_batch (Toy.piece2 (Finite 0) [])).
  - apply ToyFacts.toy_rows2.
  - discriminate.
  - discriminate.
Defined.

(* ===================================================================== *)
(** ** Piece2: the image pairs of the SSIM average *)
(* ===================================================================== *)

Module MetricFacts.

Import Py Run Torch Piece2Metrics.

Local Open Scope Z_scope.

Lemma guarded_pairs (n : Z) (m : nat) :
  forall a,
    2 * a + 2 * Z.of_nat m <= n ->
    flat_map (fun j => if j + 1 <? n then [(j, j + 1)] else [])
             (count_from (2 * a) 2 m)
    = map (fun k => (2 * k, 2 * k + 1)) (count_from a 1 m).
Proof.
  induction m as [| m IH]; intros a H; [reflexivity |].
  cbn [count_from flat_map map].
  destruct (Z.ltb_spec (2 * a + 1) n) as [_ | Hn]; [| lia].
  replace (2 * a + 2) with (2 * (a + 1)) by lia.
  rewrite IH by lia. reflexivity.
Qed.

Lemma guarded_pairs_from_zero (n : Z) (m : nat) :
  2 * Z.of_nat m <= n ->
  flat_map (fun j => if j + 1 <? n then [(j, j + 1)] else [])
           (count_from 0 2 m)
  = map (fun k => (2 * k, 2 * k + 1)) (count_from 0 1 m).
Proof. intros H. apply (guarded_pairs n m 0). lia. Qed.

Lemma ssim_pairs_spec (n : Z) :
  ssim_pairs n = inr (map (fun k => (2 * k, 2 * k + 1)) (range (n / 2))).
Proof.
  unfold ssim_pairs.
  destruct (Z.le_gt_cases n 0) as [Hn | Hn].
  - rewrite PyMore.range3_empty by lia.
    rewrite PyMore.range_nil; [reflexivity |].
    apply Z.lt_succ_r. apply Z.div_lt_upper_bound; lia.
  - rewrite PyFacts.range3_windows by lia.
    pose proof (Z.div_mod n 2 ltac:(lia)) as D.
    pose proof (Z.mod_pos_bound n 2 ltac:(lia)) as B.
    assert (Hq : 0 <= n / 2) by (apply Z.div_pos; lia).
    unfold range.
    destruct (Z.eq_dec (n mod 2) 0) as [Ev | Od].
    + replace ((n + 2 - 1) / 2) with (n / 2).
      * apply f_equal. apply guarded_pairs_from_zero. lia.
      * apply Z.div_unique with (r := 1); lia.
    + replace ((n + 2 - 1) / 2) with (n / 2 + 1).
      * replace (Z.to_nat (n / 2 + 1)) with (S (Z.to_nat (n / 2))) by lia.
        rewrite PyMore.count_from_snoc, flat_map_app.
        rewrite guarded_pairs_from_zero by lia.
        cbn [flat_map].
        destruct (Z.ltb_spec (0 + Z.of_nat (Z.to_nat (n / 2)) * 2 + 1) n)
          as [Hlt | _]; [lia |].
        now rewrite !app_nil_r.
      * apply Z.div_unique with (r := 0); lia.
Qed.

End MetricFacts.

(** X17.  The SSIM average of the metric log compares disjoint neighbours:
    for [n] generated images [calculate_ssim] is called on the pairs
    (0, 1), (2, 3), ..., so on [n / 2] pairs, and an odd last image is left
    out.  The average that follows divides by the number of pairs: it
    raises ZeroDivisionError exactly when there are fewer than two
    images. *)
Theorem ssim_on_disjoint_neighbours (calculate_ssim : Z -> Z -> Q) (n : Z) :
  Piece2Metrics.ssim_pairs n
  = inr (map (fun k => (2 * k, 2 * k + 1)) (range (n / 2))) /\
  (Piece2Metrics.ssim_avg calculate_ssim n = inl ZeroDivisionError
   <-> n < 2) /\
  (forall e, Piece2Metrics.ssim_avg calculate_ssim n = inl e ->
             e = ZeroDivisionError).
Proof.
  pose proof (MetricFacts.ssim_pairs_spec n) as P.
  split; [exact P |].
  unfold Piece2Metrics.ssim_avg. rewrite P.
  destruct (Z.lt_ge_cases n 2) as [Hn | Hn].
  - rewrite PyMore.range_nil
      by (apply Z.lt_succ_r; apply Z.div_lt_upper_bound; lia).
    cbn [map Piece2Metrics.average]. split; [tauto |].
    intros e H. now injection H as <-.
  - destruct (PyMore.range_cons (n / 2)) as (l & ->).
    { apply Z.div_le_lower_bound; lia. }
    cbn [map Piece2Metrics.average]. split.
    + split; [discriminate | lia].
    + discriminate.
Qed.

(* ===================================================================== *)
(** ** Piece2: where the latent tensors come from *)
(* ===================================================================== *)

Module Piece2Latents.

Import Py Run Torch Piece2 Piece2Props TraceProps.

Local Open Scope Z_scope.

Lemma drawn_app (l1 l2 : list event) :
  drawn (l1 ++ l2) = (drawn l1 + drawn l2)%nat.
Proof. unfold drawn. now rewrite filter_app, length_app. Qed.

Lemma fed_constant_app (v : Q) (l1 l2 : list event) :
  fed_constant v l1 -> fed_constant v l2 -> fed_constant v (l1 ++ l2).
Proof.
  intros H1 H2 n id Hin. unfold steps in Hin.
  rewrite flat_map_app in Hin. apply in_app_or in Hin. apply in_or_app.
  destruct Hin as [Hin | Hin]; [left; now apply (H1 n) | right; now apply (H2 n)].
Qed.

Lemma fed_constant_quiet (v : Q) (l : list event) :
  steps l = [] -> fed_constant v l.
Proof. intros H n id Hin. rewrite H in Hin. destruct Hin. Qed.

Section Latents.

Context {C : Collaborators}.

Lemma noise_free_refl (v : Q) (s : state) : noise_free v s s.
Proof.
  split; [reflexivity |]. exists []. rewrite app_nil_r.
  split; [reflexivity |]. split; [constructor |].
  split; [intros n id [] |]. unfold drawn. simpl. lia.
Qed.

Lemma noise_free_trans (v : Q) (s1 s2 s3 : state) :
  noise_free v s1 s2 -> noise_free v s2 s3 -> noise_free v s1 s3.
Proof.
  intros (A1 & n1 & T1 & L1 & F1 & R1) (A2 & n2 & T2 & L2 & F2 & R2).
  split; [congruence |]. exists (n1 ++ n2).
  split; [rewrite T2, T1; now rewrite app_assoc |].
  split; [now apply Forall_app |].
  split; [now apply fed_constant_app |].
  rewrite drawn_app. lia.
Qed.

Lemma torch_randn_rng (rows cols : Z) (s s' : state) (x : nat * tensor) :
  torch_randn rows cols s = Ok x s' -> rng s' = S (rng s).
Proof.
  unfold torch_randn. Piece2Facts.run.
  destruct (randn normal (rng s) rows cols); simpl; [discriminate |].
  intros H. injection H as _ <-. reflexivity.
Qed.

(** The metric log and the image grid, under a uniform activation. *)
Lemma save_block_noise_free (v : Q) (e i : Z) (ld lg : lossval) (s : state) :
  input_activation s = SetActivation "uniform" v ->
  exists s',
    save_block e i ld lg s = Ok tt s' /\
    exists new,
      input_activation s' = input_activation s /\
      trace s' = trace s ++ new /\
      steps new = [] /\
      Forall (latent_ok v) new /\
      rng s' = (rng s + drawn new)%nat.
Proof.
  intros Hu. unfold save_block, mod_.
  assert (Hsi : save_interval e <> 0).
  { unfold save_interval.
    repeat match goal with
           | |- context [if ?b then _ else _] => destruct b
           end; lia. }
  destruct (Z.eqb_spec (save_interval e) 0) as [E0 | _]; [contradiction |].
  unfold bind at 1, lift, ret. destruct (_ =? 0).
  - unfold bind at 1.
    destruct (Piece2Facts.torch_randn_spec 100 latent_dim s)
      as (s1 & t1 & E1 & _ & T1 & _ & A1 & _);
      [lia | unfold latent_dim; lia |].
    pose proof (torch_randn_rng _ _ _ _ _ E1) as R1.
    rewrite E1. unfold bind at 1, emit, modify. unfold bind at 1.
    destruct (Piece2Facts.call_input_activation_spec batch_size latent_dim
                (log (EvLog e i ld lg) s1))
      as (s3 & t3 & src & E3 & _ & T3 & _ & A3 & _ & _ & _ & _ & U3).
    { unfold batch_size. lia. }
    { unfold latent_dim. lia. }
    { simpl. rewrite A1, Hu. right. reflexivity. }
    destruct (U3 v) as (-> & R3); [simpl; now rewrite A1 |].
    rewrite E3. eexists. split; [reflexivity |].
    exists [EvLatent (tensors s) (Drawn (rng s)) 100 latent_dim;
            EvLog e i ld lg;
            EvLatent (tensors (log (EvLog e i ld lg) s1)) (Filled v)
              batch_size latent_dim;
            EvSave e i].
    cbn [trace log input_activation rng]. split; [| split; [| split; [| split]]].
    + rewrite A3. simpl. exact A1.
    + rewrite T3. simpl. rewrite T1. rewrite <- !app_assoc. reflexivity.
    + reflexivity.
    + repeat constructor.
    + rewrite R3. simpl. rewrite R1. unfold drawn. simpl. lia.
  - exists s. split; [reflexivity |]. exists []. rewrite app_nil_r.
    split; [reflexivity |]. split; [reflexivity |].
    split; [reflexivity |]. split; [constructor |].
    unfold drawn. simpl. lia.
Qed.

Lemma report_noise_free (v : Q) (e i : Z) (ld lg : lossval) (s : state) :
  input_activation s = SetActivation "uniform" v ->
  exists s',
    report e i ld lg s = Ok tt s' /\
    exists new,
      input_activation s' = input_activation s /\
      trace s' = trace s ++ new /\
      steps new = [] /\
      Forall (latent_ok v) new /\
      rng s' = (rng s + drawn new)%nat.
Proof.
  intros Hu. unfold report, print_line, bind.
  destruct (i mod 200 =? 0).
  - Piece2Facts.run.
    destruct (save_block_noise_free v e i ld lg (log (EvPrint e i ld lg) s) Hu)
      as (s' & E & new & A & T & St & L & R).
    rewrite E. exists s'. split; [reflexivity |].
    exists (EvPrint e i ld lg :: new).
    split; [exact A |]. split; [| split; [exact St | split]].
    + rewrite T. simpl. rewrite <- app_assoc. reflexivity.
    + constructor; [exact I | exact L].
    + rewrite R. reflexivity.
  - Piece2Facts.run. now apply save_block_noise_free.
Qed.

(** One batch, however it ends. *)
Lemma train_batch_noise_free (v : Q) (e : Z) (ib : Z * tensor) (s : state) :
  input_activation s = SetActivation "uniform" v ->
  noise_free v s (final (train_batch e ib s)).
Proof.
  intros Hu. destruct ib as [i imgs]. unfold train_batch. cbn [fst snd].
  unfold bind at 1, get. unfold bind at 1.
  destruct (criterion _ _) as [er | rl]; cbn [lift raise ret final].
  { apply noise_free_refl. }
  unfold bind at 1.
  destruct (Piece2Facts.call_input_activation_spec batch_size latent_dim s)
    as (s1 & z & src & E1 & _ & T1 & _ & A1 & _ & _ & _ & _ & U1);
    [unfold batch_size; lia | unfold latent_dim; lia
    | rewrite Hu; right; reflexivity |].
  destruct (U1 v Hu) as (-> & R1).
  rewrite E1. cbn [fst snd]. unfold bind at 1.
  destruct (criterion _ _) as [er | fl]; cbn [lift raise ret final].
  { split; [exact A1 |]. eexists. split; [exact T1 |].
    split; [repeat constructor |].
    split; [apply fed_constant_quiet; reflexivity |].
    rewrite R1. unfold drawn. simpl. lia. }
  unfold bind at 1, modify. unfold bind at 1, emit, modify.
  unfold bind at 1.
  destruct (criterion _ _) as [er | gl]; cbn [lift raise ret final].
  { split; [exact A1 |]. eexists. split.
    - cbn [trace log set_discriminator]. rewrite T1.
      rewrite <- app_assoc. reflexivity.
    - split; [repeat constructor |]. split.
      + intros n id Hin. simpl in Hin.
        destruct Hin as [Hin | []]. injection Hin as _ <-.
        left. reflexivity.
      + cbn [rng log set_discriminator]. rewrite R1.
        unfold drawn. simpl. lia. }
  unfold bind at 1, modify. unfold bind at 1, modify.
  match goal with
  | |- context [report e i ?ld ?lg ?s2] =>
      destruct (report_noise_free v e i ld lg s2)
        as (s3 & E3 & newr & A3 & T3 & S3 & L3 & R3)
  end.
  { simpl. now rewrite A1. }
  rewrite E3. cbn [final]. split.
  { rewrite A3. simpl. exact A1. }
  eexists. split.
  - rewrite T3. cbn [trace log set_discriminator set_generator].
    rewrite T1. rewrite <- !app_assoc. reflexivity.
  - split; [| split].
    + repeat (constructor; [simpl; auto |]). exact L3.
    + intros n id Hin. unfold steps in Hin. simpl in Hin.
      fold (steps newr) in Hin. rewrite S3 in Hin.
      left. destruct Hin as [Hin | [Hin | []]];
        injection Hin as _ <-; reflexivity.
    + rewrite R3. cbn [rng log set_discriminator set_generator].
      rewrite R1. unfold drawn. simpl.
      fold (drawn newr). lia.
Qed.

(** A loop of noise-free bodies is noise-free, however it ends. *)
Lemma for_each_noise_free {A : Type} (v : Q) (body : A -> M state unit)
  (l : list A) :
  (forall x s, input_activation s = SetActivation "uniform" v ->
               noise_free v s (final (body x s))) ->
  forall s,
    input_activation s = SetActivation "uniform" v ->
    noise_free v s (final (for_each l body s)).
Proof.
  intros Hb. induction l as [| x l IH]; intros s Hu.
  - apply noise_free_refl.
  - cbn [for_each]. unfold bind. pose proof (Hb x s Hu) as H1.
    destruct (body x s) as [[] s1 | er s1]; cbn [final] in *.
    + eapply noise_free_trans; [exact H1 |]. apply IH.
      destruct H1 as (A1 & _). now rewrite A1.
    + exact H1.
Qed.

End Latents.

End Piece2Latents.

(** X18.  Piece2 trains without noise.  Line 96 sets the generator's input
    activation to the constant 0.5, so in the whole run, whatever the loader
    yields and whether the run completes or raises, every optimizer step
    consumed a 64-row latent tensor filled with 0.5; the only random latent
    tensors are the 100-row batches of the metric log, and the random
    generator was drawn from exactly once for each of them. *)
Theorem piece2_trains_on_constant_latents {C : Piece2.Collaborators} :
  let tr := Piece2.trace (final Piece2.program) in
  TraceProps.fed_constant 0.5%Q tr /\
  Forall (TraceProps.latent_ok 0.5%Q) tr /\
  Piece2.rng (final Piece2.program) = TraceProps.drawn tr.
Proof.
  assert (H : TraceProps.noise_free 0.5%Q Piece2.boot
                (final Piece2.program)).
  { unfold Piece2.program, Piece2.training_loop.
    apply Piece2Latents.for_each_noise_free; [| reflexivity].
    intros e s Hu. unfold Piece2.epoch_iteration.
    apply Piece2Latents.for_each_noise_free; [| exact Hu].
    intros ib s0 Hu0. now apply Piece2Latents.train_batch_noise_free. }
  destruct H as (_ & new & T & L & F & R). cbn zeta.
  rewrite T, R. simpl. auto.
Qed.

(* ===================================================================== *)
(** ** Piece1: the names of the plot files *)
(* ===================================================================== *)

Module FileNames.

Import Py Piece1Plot.

Local Open Scope string_scope.

Lemma length_append (s t : string) :
  String.length (s ++ t) = (String.length s + String.length t)%nat.
Proof. induction s as [| c s IH]; simpl; [reflexivity | now rewrite IH]. Qed.

Lemma append_cancel_r (t : string) :
  forall s1 s2, s1 ++ t = s2 ++ t -> s1 = s2.
Proof.
  induction s1 as [| c1 s1 IH]; intros [| c2 s2] H; simpl in H.
  - reflexivity.
  - apply (f_equal String.length) in H. simpl in H.
    rewrite length_append in H. lia.
  - apply (f_equal String.length) in H. simpl in H.
    rewrite length_append in H. lia.
  - injection H as -> H. f_equal. now apply IH.
Qed.

Lemma append_empty_r (s : string) : s ++ "" = s.
Proof. induction s as [| c s IH]; simpl; [reflexivity | now rewrite IH]. Qed.

Lemma length_zeros (k : nat) : String.length (zeros k) = k.
Proof. induction k as [| k IH]; simpl; [reflexivity | now rewrite IH]. Qed.

(** Zeros in front of a numeral are leading zero digits. *)
Lemma zeros_digits (k : nat) (d : Decimal.uint) :
  zeros k ++ DecimalString.NilEmpty.string_of_uint d
  = DecimalString.NilEmpty.string_of_uint (Nat.iter k Decimal.D0 d).
Proof. induction k as [| k IH]; simpl; [reflexivity | now rewrite IH]. Qed.

Lemma str_pos (p : positive) :
  str (Z.pos p) = DecimalString.NilEmpty.string_of_uint (Pos.to_uint p).
Proof.
  unfold str. cbn [Z.to_int DecimalString.NilZero.string_of_int].
  pose proof (DecimalPos.Unsigned.to_uint_nonnil p) as H.
  destruct (Pos.to_uint p); [contradiction | reflexivity ..].
Qed.

(** A numeral has no sign, so [zfill] pads it at the front. *)
Lemma zfill_digits (w : nat) (d : Decimal.uint) :
  zfill w (DecimalString.NilEmpty.string_of_uint d)
  = zeros (w - String.length (DecimalString.NilEmpty.string_of_uint d))
    ++ DecimalString.NilEmpty.string_of_uint d.
Proof.
  destruct d; cbn [DecimalString.NilEmpty.string_of_uint];
    [unfold zfill; now rewrite append_empty_r | reflexivity ..].
Qed.

Lemma plot_file_name_pos (p : positive) :
  plot_file_name (Z.pos p - 1)
  = DecimalString.NilEmpty.string_of_uint
      (Nat.iter (4 - String.length (str (Z.pos p))) Decimal.D0
                (Pos.to_uint p))
    ++ ".png".
Proof.
  unfold plot_file_name. replace (Z.pos p - 1 + 1)%Z with (Z.pos p) by lia.
  rewrite str_pos, zfill_digits, zeros_digits. reflexivity.
Qed.

Lemma padded_value (k : nat) (p : positive) :
  Pos.of_uint (Nat.iter k Decimal.D0 (Pos.to_uint p)) = N.pos p.
Proof.
  rewrite <- DecimalPos.Unsigned.of_uint_norm, DecimalFacts.unorm_iter_D0.
  rewrite DecimalPos.Unsigned.of_uint_norm.
  apply DecimalPos.Unsigned.of_to.
Qed.

Lemma string_of_uint_inj (d1 d2 : Decimal.uint) :
  DecimalString.NilEmpty.string_of_uint d1
  = DecimalString.NilEmpty.string_of_uint d2 -> d1 = d2.
Proof.
  intros H. apply (f_equal DecimalString.NilEmpty.uint_of_string) in H.
  rewrite !DecimalString.NilEmpty.usu in H. now injection H.
Qed.

End FileNames.

(** X19.  The plots of different epochs go to different files: for epochs
    of the loop (0 and up), [str(epoch + 1).zfill(4) + '.png'] is a
    different name for each epoch, of at least 8 characters. *)
Theorem plot_files_never_collide (e1 e2 : Z) :
  0 <= e1 -> 0 <= e2 -> e1 <> e2 ->
  Piece1Plot.plot_file_name e1 <> Piece1Plot.plot_file_name e2 /\
  (8 <= String.length (Piece1Plot.plot_file_name e1))%nat.
Proof.
  intros H1 H2 Hne.
  destruct (e1 + 1) as [| p1 | p1] eqn:E1; try lia.
  destruct (e2 + 1) as [| p2 | p2] eqn:E2; try lia.
  replace e1 with (Z.pos p1 - 1) in * by lia.
  replace e2 with (Z.pos p2 - 1) in * by lia.
  split.
  - rewrite !FileNames.plot_file_name_pos. intros H.
    apply FileNames.append_cancel_r in H.
    apply FileNames.string_of_uint_inj in H.
    apply (f_equal Pos.of_uint) in H.
    rewrite !FileNames.padded_value in H. injection H as ->.
    now apply Hne.
  - rewrite FileNames.plot_file_name_pos, <- FileNames.zeros_digits.
    rewrite <- FileNames.str_pos.
    rewrite !FileNames.length_append, FileNames.length_zeros.
    change (String.length ".png") with 4%nat. lia.
Qed.

Lemma plot_files_never_collide_witness :
  Piece1Plot.plot_file_name 0 <> Piece1Plot.plot_file_name 1 /\
  (8 <= String.length (Piece1Plot.plot_file_name 0))%nat.
Proof. apply plot_files_never_collide; lia. Defined.

(* ===================================================================== *)
(** ** Piece2: when the script prints, logs and saves *)
(* ===================================================================== *)

Module Piece2Reports.

Import Py Run Torch Piece2 Piece2Props TraceProps.

Local Open Scope Z_scope.

Lemma save_interval_pos (e : Z) : 10 <= save_interval e.
Proof.
  unfold save_interval.
  repeat match goal with
         | |- context [if ?b then _ else _] => destruct b
         end; lia.
Qed.

Section Reports.

Context {C : Collaborators}.

Lemma gained_refl (s : state) : gained [] [] [] s s.
Proof.
  split; [reflexivity |]. exists []. rewrite app_nil_r. auto.
Qed.

Lemma gained_trans (p1 l1 a1 p2 l2 a2 : list (Z * Z)) (s1 s2 s3 : state) :
  gained p1 l1 a1 s1 s2 -> gained p2 l2 a2 s2 s3 ->
  gained (p1 ++ p2) (l1 ++ l2) (a1 ++ a2) s1 s3.
Proof.
  intros (A1 & n1 & T1 & P1 & L1 & S1) (A2 & n2 & T2 & P2 & L2 & S2).
  split; [congruence |]. exists (n1 ++ n2).
  split; [rewrite T2, T1; now rewrite app_assoc |].
  unfold prints, logs, saves in *. rewrite !flat_map_app.
  repeat split; congruence.
Qed.

Lemma save_block_reports (e i : Z) (ld lg : lossval) (s : state) :
  known_activation (input_activation s) ->
  exists s',
    save_block e i ld lg s = Ok tt s' /\
    gained [] (if save_due e i then [(e, i)] else [])
              (if save_due e i then [(e, i)] else []) s s'.
Proof.
  intros Hk. unfold save_block, mod_, save_due.
  pose proof (save_interval_pos e) as Hsi.
  destruct (Z.eqb_spec (save_interval e) 0) as [E0 | _]; [lia |].
  unfold bind at 1, lift, ret. destruct (_ =? 0).
  - unfold bind at 1.
    destruct (Piece2Facts.torch_randn_spec 100 latent_dim s)
      as (s1 & t1 & E1 & _ & T1 & _ & A1 & _);
      [lia | unfold latent_dim; lia |].
    rewrite E1. unfold bind at 1, emit, modify. unfold bind at 1.
    destruct (Piece2Facts.call_input_activation_spec batch_size latent_dim
                (log (EvLog e i ld lg) s1))
      as (s3 & t3 & src & E3 & _ & T3 & _ & A3 & _).
    { unfold batch_size. lia. }
    { unfold latent_dim. lia. }
    { simpl. now rewrite A1. }
    rewrite E3. eexists. split; [reflexivity |]. split.
    + cbn [input_activation log]. rewrite A3. simpl. exact A1.
    + eexists. split.
      * cbn [trace log]. rewrite T3. simpl. rewrite T1.
        rewrite <- !app_assoc. reflexivity.
      * repeat split; reflexivity.
  - exists s. split; [reflexivity | apply gained_refl].
Qed.

Lemma report_reports (e i : Z) (ld lg : lossval) (s : state) :
  known_activation (input_activation s) ->
  exists s',
    report e i ld lg s = Ok tt s' /\
    gained (if print_due i then [(e, i)] else [])
           (if save_due e i then [(e, i)] else [])
           (if save_due e i then [(e, i)] else []) s s'.
Proof.
  intros Hk. unfold report, print_line, bind, print_due.
  destruct (i mod 200 =? 0).
  - Piece2Facts.run.
    destruct (save_block_reports e i ld lg (log (EvPrint e i ld lg) s) Hk)
      as (s' & E & G).
    rewrite E. exists s'. split; [reflexivity |].
    apply (gained_trans [(e, i)] [] [] [] _ _ s (log (EvPrint e i ld lg) s));
      [| exact G].
    split; [reflexivity |]. exists [EvPrint e i ld lg]. auto.
  - Piece2Facts.run. now apply save_block_reports.
Qed.

(** A full batch reports once its two steps are taken. *)
Lemma train_batch_reports (e i : Z) (imgs : tensor) (s : state) :
  row_preserving ->
  known_activation (input_activation s) ->
  shape0 imgs = batch_size ->
  exists s',
    train_batch e (i, imgs) s = Ok tt s' /\
    gained (if print_due i then [(e, i)] else [])
           (if save_due e i then [(e, i)] else [])
           (if save_due e i then [(e, i)] else []) s s'.
Proof.
  intros [Hg Hd] Hk Hn. unfold train_batch. cbn [fst snd].
  unfold bind at 1, get. unfold bind at 1.
  rewrite Piece2Facts.criterion_same by (now rewrite Hd, repeat_length).
  cbn [lift ret]. unfold bind at 1.
  destruct (Piece2Facts.call_input_activation_spec batch_size latent_dim s)
    as (s1 & z & src & E1 & Z1 & T1 & _ & A1 & _);
    [unfold batch_size; lia | unfold latent_dim; lia | exact Hk |].
  rewrite E1. cbn [fst snd]. unfold bind at 1.
  assert (Hz : length z = length imgs).
  { unfold shape0 in *. lia. }
  rewrite Piece2Facts.criterion_same
    by (now rewrite Hd, Hg, repeat_length).
  cbn [lift ret]. unfold bind at 1, modify. unfold bind at 1, emit, modify.
  unfold bind at 1.
  rewrite Piece2Facts.criterion_same
    by (now rewrite Hd, Hg, repeat_length).
  cbn [lift ret]. unfold bind at 1, modify. unfold bind at 1, modify.
  match goal with
  | |- context [report e i ?ld ?lg ?s2] =>
      destruct (report_reports e i ld lg s2) as (s3 & E3 & G3);
        [simpl; now rewrite A1 |];
      rewrite E3; exists s3; split; [reflexivity |];
      apply (gained_trans [] [] [] _ _ _ s s2); [| exact G3]
  end.
  split; [simpl; exact A1 |]. eexists. split.
  - cbn [trace log set_discriminator set_generator]. rewrite T1.
    rewrite <- !app_assoc. reflexivity.
  - repeat split; reflexivity.
Qed.

(** The batches [idx] of one epoch, all full. *)
Lemma batches_report (e : Z) :
  row_preserving ->
  forall (idx : list Z) (l : list tensor) (s : state),
    length idx = length l ->
    Forall (fun b => shape0 b = batch_size) l ->
    known_activation (input_activation s) ->
    exists s',
      for_each (combine idx l) (train_batch e) s = Ok tt s' /\
      gained (at_epoch e print_due idx) (at_epoch e (save_due e) idx)
             (at_epoch e (save_due e) idx) s s'.
Proof.
  intros Hr. induction idx as [| i idx IH]; intros [| b l] s Hlen Hl Hk;
    try discriminate.
  - exists s. split; [reflexivity | apply gained_refl].
  - inversion Hl as [| ? ? Hb Hl']; subst.
    destruct (train_batch_reports e i b s Hr Hk Hb) as (s1 & E1 & G1).
    assert (Hk1 : known_activation (input_activation s1)).
    { destruct G1 as (A & _). now rewrite A. }
    destruct (IH l s1 ltac:(simpl in Hlen; lia) Hl' Hk1) as (s' & E & G).
    exists s'. split.
    + cbn [combine for_each]. unfold bind at 1. now rewrite E1.
    + pose proof (gained_trans _ _ _ _ _ _ _ _ _ G1 G) as G'.
      unfold at_epoch. cbn [filter].
      destruct (print_due i), (save_due e i); exact G'.
Qed.

End Reports.

End Piece2Reports.

(** X20.  In an epoch whose batches all have 64 images, piece2 prints the
    console line at the batches [i] with [i % 200 == 0], and writes a line
    of the metric log and saves an image grid at those with
    [i % save_interval == 0], in order and nowhere else.  The interval is
    never below 10, so the test cannot divide by zero, and batch 0 of a
    non-empty epoch always prints, logs and saves. *)
Theorem reports_on_schedule {C : Piece2.Collaborators}
  (e : Z) (s : Piece2.state) :
  Piece2Props.row_preserving ->
  Piece2Props.known_activation (Piece2.input_activation s) ->
  Forall (fun b => shape0 b = Piece2.batch_size) (Piece2.train_loader e) ->
  let idx := range (shape0 (Piece2.train_loader e)) in
  exists s' new,
    Piece2.epoch_iteration e s = Ok tt s' /\
    Piece2.trace s' = Piece2.trace s ++ new /\
    TraceProps.prints new = TraceProps.at_epoch e TraceProps.print_due idx /\
    TraceProps.logs new
      = TraceProps.at_epoch e (TraceProps.save_due e) idx /\
    TraceProps.saves new
      = TraceProps.at_epoch e (TraceProps.save_due e) idx /\
    10 <= Piece2.save_interval e /\
    (Piece2.train_loader e <> [] ->
     exists rest1 rest2,
       TraceProps.prints new = (e, 0) :: rest1 /\
       TraceProps.saves new = (e, 0) :: rest2).
Proof.
  intros Hr Hk Hl idx. unfold Piece2.epoch_iteration, Piece2.enumerate.
  fold idx.
  destruct (Piece2Reports.batches_report e Hr idx (Piece2.train_loader e) s)
    as (s' & E & _ & new & T & P & L & Sv); auto.
  { unfold idx. rewrite PyFacts.length_range. unfold shape0. lia. }
  exists s', new. repeat (split; [assumption |]).
  split; [apply Piece2Reports.save_interval_pos |].
  intros Hne. rewrite P, Sv.
  destruct (PyMore.range_cons (shape0 (Piece2.train_loader e))) as (tl & Ei).
  { unfold shape0. destruct (Piece2.train_loader e); [contradiction |].
    simpl length. lia. }
  unfold idx. rewrite Ei. unfold TraceProps.at_epoch.
  cbn [filter]. change (TraceProps.print_due 0) with true.
  change (TraceProps.save_due e 0) with true. cbn [map]. eauto.
Qed.

Lemma reports_on_schedule_witness :
  exists s' new,
    @Piece2.epoch_iteration
      (Toy.piece2 (Finite 0) (repeat (Toy.images 64) 12)) 0
      (@Piece2.boot (Toy.piece2 (Finite 0) (repeat (Toy.images 64) 12)))
    = Ok tt s' /\
    Piece2.trace s' = new /\
    TraceProps.prints new = [(0, 0)] /\
    TraceProps.saves new = [(0, 0); (0, 10)].
Proof.
  destruct (@reports_on_schedule
              (Toy.piece2 (Finite 0) (repeat (Toy.images 64) 12)) 0
              (@Piece2.boot
                 (Toy.piece2 (Finite 0) (repeat (Toy.images 64) 12))))
    as (s' & new & E & T & P & _ & Sv & _).
  - apply ToyFacts.toy_rows2.
  - simpl. right. reflexivity.
  - repeat constructor.
  - exists s', new. split; [exact E |]. split; [exact T |].
    split; [rewrite P | rewrite Sv]; reflexivity.
Defined.
